(** * PixelForge: document model, undo history, glitch operator and warp geometry

    A shallow embedding of the editor's reducer ([reducer], [pushHistory]),
    of the warp-tool initialisation ([handleWarpTool]), of the brush stroke of
    the workspace, and of the pixel/warp helpers of [canvasUtils.ts]
    ([applyGlitch], [renderWarpedLayer], [renderTriangleFixed]).

    Conventions.
    - A JavaScript [number] that carries a coordinate, a size or an angle is
      read as a real number; rounding of IEEE doubles is not modelled, except
      for the initial warp quad, whose arithmetic is also given on binary64
      floats.  The offset of the glitch operator, which is floored, is a
      rational.
    - Array indices and lengths ([historyIndex], [history.length]) are [nat];
      the bytes of a [Uint8ClampedArray] are integers.
    - [Date.now()] is an input of the reducer: every dispatched action comes
      with the clock value its reducer call observes.
    - Canvas elements are mutable DOM objects: layers hold references into a
      store of canvases, and the store is threaded through every operation
      that allocates or paints.  Layer arrays and layer objects are never
      mutated in place by the source, so they are plain values. *)

From Stdlib Require Import PrimFloat.
From Stdlib Require Import Reals Lra ZArith Lia QArith Qround.
From stdpp Require Import base list strings pretty.

Abbreviation number := R (only parsing).

(** ** types.ts *)

Inductive BlendMode :=
  | BM_source_over | BM_multiply | BM_screen | BM_overlay | BM_darken
  | BM_lighten | BM_color_dodge | BM_color_burn | BM_hard_light
  | BM_soft_light | BM_difference | BM_exclusion | BM_hue | BM_saturation
  | BM_color | BM_luminosity.

Inductive ToolType :=
  | T_move | T_brush | T_eraser | T_rect_select | T_lasso_select | T_text
  | T_crop | T_eyedropper | T_warp.

#[global] Instance ToolType_eq_dec : EqDecision ToolType.
Proof. solve_decision. Defined.

Record FilterState := {
  brightness : number;
  contrast : number;
  saturation : number;
  blur : number;
  sepia : number;
  grayscale : number;
  hueRotate : number
}.

Inductive FilterKey :=
  | K_brightness | K_contrast | K_saturation | K_blur | K_sepia
  | K_grayscale | K_hueRotate.

Record DropShadow := {
  ds_enabled : bool; ds_color : string; ds_blur : number;
  ds_x : number; ds_y : number; ds_opacity : number
}.
Record Vignette := { vg_enabled : bool; vg_amount : number; vg_size : number }.
Record Pixelate := { pix_enabled : bool; pix_blockSize : number }.
Record Scanlines := { sl_enabled : bool; sl_intensity : number; sl_spacing : number }.
Record Glitch := { gl_enabled : bool; gl_offset : number }.

Record EffectState := {
  dropShadow : DropShadow;
  vignette : Vignette;
  pixelate : Pixelate;
  scanlines : Scanlines;
  glitch : Glitch
}.

(** The payload [{ effectGroup, changes }] of UPDATE_LAYER_EFFECT: the group
    name together with the value stored under it. *)
Inductive EffectChange :=
  | E_dropShadow (v : DropShadow)
  | E_vignette (v : Vignette)
  | E_pixelate (v : Pixelate)
  | E_scanlines (v : Scanlines)
  | E_glitch (v : Glitch).

Record Point := { px : number; py : number }.

Record WarpPoints := { tl : Point; tr : Point; bl : Point; br : Point }.

Inductive LayerType := L_image | L_text | L_drawing.
#[global] Instance LayerType_eq_dec : EqDecision LayerType.
Proof. solve_decision. Defined.

Inductive FontWeight := FW_normal | FW_bold.
Inductive FontStyle := FS_normal | FS_italic.
Inductive TextAlign := TA_left | TA_center | TA_right.

(** [imageElement]: a reference to a DOM object.  Only canvases are ever
    painted on, so only they have a store (see [Heap]). *)
Inductive ImageElement :=
  | HTMLImageElement (ref : nat)
  | HTMLCanvasElement (ref : nat).

Record Layer := {
  layer_id : string;
  layer_name : string;
  layer_type : LayerType;
  visible : bool;
  locked : bool;
  opacity : number;
  blendMode : BlendMode;
  layer_x : number;
  layer_y : number;
  layer_width : number;
  layer_height : number;
  rotation : number;
  warpPoints : option WarpPoints;
  imageElement : option ImageElement;
  text : option string;
  color : option string;
  fontSize : option number;
  fontFamily : option string;
  fontWeight : option FontWeight;
  fontStyle : option FontStyle;
  textAlign : option TextAlign;
  textStrokeColor : option string;
  textStrokeWidth : option number;
  filters : FilterState;
  effects : EffectState
}.

(** [Partial<Layer>]: [None] is an absent key.  For the optional fields of
    [Layer] a present key can hold [undefined] (as in [text: undefined]),
    hence the nested option. *)
Record LayerChanges := {
  c_id : option string;
  c_name : option string;
  c_type : option LayerType;
  c_visible : option bool;
  c_locked : option bool;
  c_opacity : option number;
  c_blendMode : option BlendMode;
  c_x : option number;
  c_y : option number;
  c_width : option number;
  c_height : option number;
  c_rotation : option number;
  c_warpPoints : option (option WarpPoints);
  c_imageElement : option (option ImageElement);
  c_text : option (option string);
  c_color : option (option string);
  c_fontSize : option (option number);
  c_fontFamily : option (option string);
  c_fontWeight : option (option FontWeight);
  c_fontStyle : option (option FontStyle);
  c_textAlign : option (option TextAlign);
  c_textStrokeColor : option (option string);
  c_textStrokeWidth : option (option number);
  c_filters : option FilterState;
  c_effects : option EffectState
}.

Record Size := { width : number; height : number }.

Record Rect := { rect_x : number; rect_y : number; rect_width : number; rect_height : number }.

Inductive Direction := up | down.

Record EditorState := {
  layers : list Layer;
  activeLayerId : option string;
  tool : ToolType;
  canvasSize : Size;
  zoom : number;
  pan : Point;
  brushSize : number;
  brushColor : string;
  brushHardness : number;
  selectionPath : option (list Point);
  history : list (list Layer);
  historyIndex : nat
}.

Inductive EditorAction :=
  | SET_TOOL (payload : ToolType)
  | ADD_LAYER (payload : Layer)
  | REMOVE_LAYER (payload : string)
  | DUPLICATE_LAYER (payload : string)
  | SELECT_LAYER (payload : string)
  | UPDATE_LAYER (id : string) (changes : LayerChanges)
  | REORDER_LAYER (id : string) (direction : Direction)
  | SET_CANVAS_SIZE (payload : Size)
  | CROP_CANVAS (payload : Rect)
  | SET_ZOOM (payload : number)
  | SET_PAN (payload : Point)
  | SET_BRUSH_SIZE (payload : number)
  | SET_BRUSH_COLOR (payload : string)
  | SET_LAYER_FILTER (layerId : string) (filter : FilterKey) (value : number)
  | UPDATE_LAYER_EFFECT (layerId : string) (change : EffectChange)
  | SET_SELECTION_PATH (payload : option (list Point))
  | UNDO
  | REDO
  | PUSH_HISTORY.

Definition DEFAULT_FILTERS : FilterState :=
  {| brightness := 100; contrast := 100; saturation := 100; blur := 0;
     sepia := 0; grayscale := 0; hueRotate := 0 |}.

Definition DEFAULT_EFFECTS : EffectState :=
  {| dropShadow := {| ds_enabled := false; ds_color := "#000000"; ds_blur := 10;
                      ds_x := 5; ds_y := 5; ds_opacity := 5 / 10 |};
     vignette := {| vg_enabled := false; vg_amount := 50; vg_size := 50 |};
     pixelate := {| pix_enabled := false; pix_blockSize := 10 |};
     scanlines := {| sl_enabled := false; sl_intensity := 20; sl_spacing := 4 |};
     glitch := {| gl_enabled := false; gl_offset := 10 |} |}.

(** ** Small JavaScript idioms *)

(** [s || null] on a string: the empty string is falsy. *)
Definition or_null (s : string) : option string :=
  if decide (s = EmptyString) then None else Some s.

(** [n || 0] on a number: only [0] (and NaN, which reals do not have) is
    falsy, so the value is unchanged. *)
Definition or_zero (n : number) : number :=
  if Req_dec_T n 0 then 0%R else n.

(** [Date.now().toString()]: the decimal numeral of the millisecond clock. *)
Definition Date_now_toString (now : Z) : string := pretty now.

(** [arr.find(l => l.id === id)] and [arr.findIndex(l => l.id === id)]. *)
Definition find_layer (id : string) (ls : list Layer) : option Layer :=
  snd <$> list_find (λ l, layer_id l = id) ls.

Definition findIndex_layer (id : string) (ls : list Layer) : option nat :=
  fst <$> list_find (λ l, layer_id l = id) ls.

(** ** Record updates ([{ ...state, field: v }]) *)

Definition set_layers (v : list Layer) (s : EditorState) : EditorState :=
  {| layers := v; activeLayerId := activeLayerId s; tool := tool s;
     canvasSize := canvasSize s; zoom := zoom s; pan := pan s;
     brushSize := brushSize s; brushColor := brushColor s;
     brushHardness := brushHardness s; selectionPath := selectionPath s;
     history := history s; historyIndex := historyIndex s |}.

Definition set_activeLayerId (v : option string) (s : EditorState) : EditorState :=
  {| layers := layers s; activeLayerId := v; tool := tool s;
     canvasSize := canvasSize s; zoom := zoom s; pan := pan s;
     brushSize := brushSize s; brushColor := brushColor s;
     brushHardness := brushHardness s; selectionPath := selectionPath s;
     history := history s; historyIndex := historyIndex s |}.

Definition set_tool (v : ToolType) (s : EditorState) : EditorState :=
  {| layers := layers s; activeLayerId := activeLayerId s; tool := v;
     canvasSize := canvasSize s; zoom := zoom s; pan := pan s;
     brushSize := brushSize s; brushColor := brushColor s;
     brushHardness := brushHardness s; selectionPath := selectionPath s;
     history := history s; historyIndex := historyIndex s |}.

Definition set_canvasSize (v : Size) (s : EditorState) : EditorState :=
  {| layers := layers s; activeLayerId := activeLayerId s; tool := tool s;
     canvasSize := v; zoom := zoom s; pan := pan s;
     brushSize := brushSize s; brushColor := brushColor s;
     brushHardness := brushHardness s; selectionPath := selectionPath s;
     history := history s; historyIndex := historyIndex s |}.

Definition set_zoom (v : number) (s : EditorState) : EditorState :=
  {| layers := layers s; activeLayerId := activeLayerId s; tool := tool s;
     canvasSize := canvasSize s; zoom := v; pan := pan s;
     brushSize := brushSize s; brushColor := brushColor s;
     brushHardness := brushHardness s; selectionPath := selectionPath s;
     history := history s; historyIndex := historyIndex s |}.

Definition set_pan (v : Point) (s : EditorState) : EditorState :=
  {| layers := layers s; activeLayerId := activeLayerId s; tool := tool s;
     canvasSize := canvasSize s; zoom := zoom s; pan := v;
     brushSize := brushSize s; brushColor := brushColor s;
     brushHardness := brushHardness s; selectionPath := selectionPath s;
     history := history s; historyIndex := historyIndex s |}.

Definition set_brushSize (v : number) (s : EditorState) : EditorState :=
  {| layers := layers s; activeLayerId := activeLayerId s; tool := tool s;
     canvasSize := canvasSize s; zoom := zoom s; pan := pan s;
     brushSize := v; brushColor := brushColor s;
     brushHardness := brushHardness s; selectionPath := selectionPath s;
     history := history s; historyIndex := historyIndex s |}.

Definition set_brushColor (v : string) (s : EditorState) : EditorState :=
  {| layers := layers s; activeLayerId := activeLayerId s; tool := tool s;
     canvasSize := canvasSize s; zoom := zoom s; pan := pan s;
     brushSize := brushSize s; brushColor := v;
     brushHardness := brushHardness s; selectionPath := selectionPath s;
     history := history s; historyIndex := historyIndex s |}.

Definition set_selectionPath (v : option (list Point)) (s : EditorState) : EditorState :=
  {| layers := layers s; activeLayerId := activeLayerId s; tool := tool s;
     canvasSize := canvasSize s; zoom := zoom s; pan := pan s;
     brushSize := brushSize s; brushColor := brushColor s;
     brushHardness := brushHardness s; selectionPath := v;
     history := history s; historyIndex := historyIndex s |}.

Definition set_history (h : list (list Layer)) (i : nat) (s : EditorState) : EditorState :=
  {| layers := layers s; activeLayerId := activeLayerId s; tool := tool s;
     canvasSize := canvasSize s; zoom := zoom s; pan := pan s;
     brushSize := brushSize s; brushColor := brushColor s;
     brushHardness := brushHardness s; selectionPath := selectionPath s;
     history := h; historyIndex := i |}.

(** [{ ...l, ...changes }]: every key present in [changes] overrides. *)
Definition merge_layer (l : Layer) (c : LayerChanges) : Layer :=
  {| layer_id := default (layer_id l) (c_id c);
     layer_name := default (layer_name l) (c_name c);
     layer_type := default (layer_type l) (c_type c);
     visible := default (visible l) (c_visible c);
     locked := default (locked l) (c_locked c);
     opacity := default (opacity l) (c_opacity c);
     blendMode := default (blendMode l) (c_blendMode c);
     layer_x := default (layer_x l) (c_x c);
     layer_y := default (layer_y l) (c_y c);
     layer_width := default (layer_width l) (c_width c);
     layer_height := default (layer_height l) (c_height c);
     rotation := default (rotation l) (c_rotation c);
     warpPoints := default (warpPoints l) (c_warpPoints c);
     imageElement := default (imageElement l) (c_imageElement c);
     text := default (text l) (c_text c);
     color := default (color l) (c_color c);
     fontSize := default (fontSize l) (c_fontSize c);
     fontFamily := default (fontFamily l) (c_fontFamily c);
     fontWeight := default (fontWeight l) (c_fontWeight c);
     fontStyle := default (fontStyle l) (c_fontStyle c);
     textAlign := default (textAlign l) (c_textAlign c);
     textStrokeColor := default (textStrokeColor l) (c_textStrokeColor c);
     textStrokeWidth := default (textStrokeWidth l) (c_textStrokeWidth c);
     filters := default (filters l) (c_filters c);
     effects := default (effects l) (c_effects c) |}.

(** The empty change set [{}]. *)
Definition no_changes : LayerChanges :=
  {| c_id := None; c_name := None; c_type := None; c_visible := None;
     c_locked := None; c_opacity := None; c_blendMode := None; c_x := None;
     c_y := None; c_width := None; c_height := None; c_rotation := None;
     c_warpPoints := None; c_imageElement := None; c_text := None;
     c_color := None; c_fontSize := None; c_fontFamily := None;
     c_fontWeight := None; c_fontStyle := None; c_textAlign := None;
     c_textStrokeColor := None; c_textStrokeWidth := None; c_filters := None;
     c_effects := None |}.

(** [{ warpPoints: w }]. *)
Definition changes_warpPoints (w : WarpPoints) : LayerChanges :=
  {| c_id := None; c_name := None; c_type := None; c_visible := None;
     c_locked := None; c_opacity := None; c_blendMode := None; c_x := None;
     c_y := None; c_width := None; c_height := None; c_rotation := None;
     c_warpPoints := Some (Some w); c_imageElement := None; c_text := None;
     c_color := None; c_fontSize := None; c_fontFamily := None;
     c_fontWeight := None; c_fontStyle := None; c_textAlign := None;
     c_textStrokeColor := None; c_textStrokeWidth := None; c_filters := None;
     c_effects := None |}.

(** [{ ...l, x: l.x - dx, y: l.y - dy }] (CROP_CANVAS). *)
Definition translate_layer (dx dy : number) (l : Layer) : Layer :=
  {| layer_id := layer_id l; layer_name := layer_name l;
     layer_type := layer_type l; visible := visible l; locked := locked l;
     opacity := opacity l; blendMode := blendMode l;
     layer_x := (layer_x l - dx)%R; layer_y := (layer_y l - dy)%R;
     layer_width := layer_width l; layer_height := layer_height l;
     rotation := rotation l; warpPoints := warpPoints l;
     imageElement := imageElement l; text := text l; color := color l;
     fontSize := fontSize l; fontFamily := fontFamily l;
     fontWeight := fontWeight l; fontStyle := fontStyle l;
     textAlign := textAlign l; textStrokeColor := textStrokeColor l;
     textStrokeWidth := textStrokeWidth l; filters := filters l;
     effects := effects l |}.

(** [{ ...l.filters, [filter]: value }]. *)
Definition set_filter (k : FilterKey) (v : number) (f : FilterState) : FilterState :=
  {| brightness := match k with K_brightness => v | _ => brightness f end;
     contrast := match k with K_contrast => v | _ => contrast f end;
     saturation := match k with K_saturation => v | _ => saturation f end;
     blur := match k with K_blur => v | _ => blur f end;
     sepia := match k with K_sepia => v | _ => sepia f end;
     grayscale := match k with K_grayscale => v | _ => grayscale f end;
     hueRotate := match k with K_hueRotate => v | _ => hueRotate f end |}.

(** [{ ...l.effects, [effectGroup]: changes }]. *)
Definition set_effect (c : EffectChange) (e : EffectState) : EffectState :=
  {| dropShadow := match c with E_dropShadow v => v | _ => dropShadow e end;
     vignette := match c with E_vignette v => v | _ => vignette e end;
     pixelate := match c with E_pixelate v => v | _ => pixelate e end;
     scanlines := match c with E_scanlines v => v | _ => scanlines e end;
     glitch := match c with E_glitch v => v | _ => glitch e end |}.

(** [{ ...l, filters: f, effects: e }]. *)
Definition with_filters_effects (f : FilterState) (e : EffectState) (l : Layer) : Layer :=
  {| layer_id := layer_id l; layer_name := layer_name l;
     layer_type := layer_type l; visible := visible l; locked := locked l;
     opacity := opacity l; blendMode := blendMode l;
     layer_x := layer_x l; layer_y := layer_y l;
     layer_width := layer_width l; layer_height := layer_height l;
     rotation := rotation l; warpPoints := warpPoints l;
     imageElement := imageElement l; text := text l; color := color l;
     fontSize := fontSize l; fontFamily := fontFamily l;
     fontWeight := fontWeight l; fontStyle := fontStyle l;
     textAlign := textAlign l; textStrokeColor := textStrokeColor l;
     textStrokeWidth := textStrokeWidth l; filters := f; effects := e |}.

(** [JSON.parse(JSON.stringify(e))] on an [EffectState]: a fresh object with
    the same booleans, strings and numbers, rebuilt group by group. *)
Definition JSON_clone (e : EffectState) : EffectState :=
  {| dropShadow :=
       {| ds_enabled := ds_enabled (dropShadow e); ds_color := ds_color (dropShadow e);
          ds_blur := ds_blur (dropShadow e); ds_x := ds_x (dropShadow e);
          ds_y := ds_y (dropShadow e); ds_opacity := ds_opacity (dropShadow e) |};
     vignette :=
       {| vg_enabled := vg_enabled (vignette e); vg_amount := vg_amount (vignette e);
          vg_size := vg_size (vignette e) |};
     pixelate :=
       {| pix_enabled := pix_enabled (pixelate e);
          pix_blockSize := pix_blockSize (pixelate e) |};
     scanlines :=
       {| sl_enabled := sl_enabled (scanlines e);
          sl_intensity := sl_intensity (scanlines e);
          sl_spacing := sl_spacing (scanlines e) |};
     glitch := {| gl_enabled := gl_enabled (glitch e); gl_offset := gl_offset (glitch e) |} |}.

(** ** The canvas store and the reducer (App.tsx) *)

Section Canvas2D.

(** What a canvas holds, and the two operations of the 2D API that the
    document code relies on: the content of a freshly created canvas of a
    given size, and [ctx.drawImage(src, 0, 0)]. *)
Context {bitmap : Type}.
Variable blank : number → number → bitmap.
Variable drawImage : bitmap → bitmap → bitmap.

Record Canvas := {
  canvas_width : number;
  canvas_height : number;
  canvas_bitmap : bitmap
}.

(** The canvases created so far, by reference. *)
Local Abbreviation Heap := (list Canvas).

(** [createOffscreenLayer(width, height)] allocates a canvas. *)
Definition createOffscreenLayer (w h : number) (σ : Heap) : nat * Heap :=
  (length σ,
   σ ++ [{| canvas_width := w; canvas_height := h; canvas_bitmap := blank w h |}]).

(** In-place painting on the canvas [r]. *)
Definition paint (f : bitmap → bitmap) (r : nat) (σ : Heap) : Heap :=
  match σ !! r with
  | Some c =>
      <[r := {| canvas_width := canvas_width c; canvas_height := canvas_height c;
                canvas_bitmap := f (canvas_bitmap c) |}]> σ
  | None => σ
  end.

(** [dst.getContext('2d')?.drawImage(src, 0, 0)]. *)
Definition ctx_drawImage (dst src : nat) (σ : Heap) : Heap :=
  match σ !! src with
  | Some s => paint (λ d, drawImage d (canvas_bitmap s)) dst σ
  | None => σ
  end.

(** The body of the [if (layerToDup)] branch of DUPLICATE_LAYER: the new
    layer and the store after the clone of its canvas.  [effects] is a
    required field of [Layer], so the fallback [|| DEFAULT_EFFECTS] is not
    taken; the canvas that was just created yields its 2D context, so the
    optional call [ctx?.drawImage] is a call.  An [HTMLImageElement] is not
    cloned: the new layer holds the same reference. *)
Definition duplicate_layer (now : Z) (σ : Heap) (layerToDup : Layer) : Heap * Layer :=
  let '(σ', image) :=
    match imageElement layerToDup with
    | Some (HTMLCanvasElement src) =>
        let '(newCanvas, σ1) :=
          createOffscreenLayer (layer_width layerToDup) (layer_height layerToDup) σ in
        (ctx_drawImage newCanvas src σ1, Some (HTMLCanvasElement newCanvas))
    | other => (σ, other)
    end in
  (σ',
   {| layer_id := Date_now_toString now;
      layer_name := layer_name layerToDup +:+ " (Copy)";
      layer_type := layer_type layerToDup;
      visible := visible layerToDup;
      locked := locked layerToDup;
      opacity := opacity layerToDup;
      blendMode := blendMode layerToDup;
      layer_x := (layer_x layerToDup + 20)%R;
      layer_y := (layer_y layerToDup + 20)%R;
      layer_width := layer_width layerToDup;
      layer_height := layer_height layerToDup;
      rotation := rotation layerToDup;
      warpPoints := warpPoints layerToDup;
      imageElement := image;
      text := text layerToDup;
      color := color layerToDup;
      fontSize := fontSize layerToDup;
      fontFamily := fontFamily layerToDup;
      fontWeight := fontWeight layerToDup;
      fontStyle := fontStyle layerToDup;
      textAlign := textAlign layerToDup;
      textStrokeColor := textStrokeColor layerToDup;
      textStrokeWidth := textStrokeWidth layerToDup;
      filters := filters layerToDup;
      effects := JSON_clone (effects layerToDup) |}).

(** [[a[i], a[j]] = [a[j], a[i]]]. *)
Definition swap_layers (i j : nat) (ls : list Layer) : list Layer :=
  match ls !! i, ls !! j with
  | Some a, Some b => <[j := a]> (<[i := b]> ls)
  | _, _ => ls
  end.

(** [pushHistory]: prune what lies beyond the cursor, push, cap at 20. *)
Definition pushHistory (state newState : EditorState) : EditorState :=
  let newHistory := take (historyIndex state + 1) (history state) ++ [layers newState] in
  let newHistory := if decide (20 < length newHistory) then drop 1 newHistory else newHistory in
  set_history newHistory (length newHistory - 1) newState.

(** The second [switch] of the reducer: the state handed to [pushHistory],
    or [None] where the reducer returns early ([currentIndex === -1]). *)
Definition nextState (now : Z) (σ : Heap) (state : EditorState) (action : EditorAction)
  : option (Heap * EditorState) :=
  match action with
  | ADD_LAYER payload =>
      Some (σ, set_activeLayerId (Some (layer_id payload))
                 (set_layers (payload :: layers state) state))
  | REMOVE_LAYER payload =>
      Some (σ, set_activeLayerId
                 (if decide (activeLayerId state = Some payload)
                  then l ← layers state !! 1; or_null (layer_id l)
                  else activeLayerId state)
                 (set_layers (filter (λ l, layer_id l ≠ payload) (layers state)) state))
  | DUPLICATE_LAYER payload =>
      match find_layer payload (layers state) with
      | Some layerToDup =>
          let '(σ', newLayer) := duplicate_layer now σ layerToDup in
          Some (σ', set_activeLayerId (Some (layer_id newLayer))
                      (set_layers (newLayer :: layers state) state))
      | None => Some (σ, state)
      end
  | UPDATE_LAYER id changes =>
      Some (σ, set_layers
                 (map (λ l, if decide (layer_id l = id) then merge_layer l changes else l)
                      (layers state)) state)
  | REORDER_LAYER id direction =>
      match findIndex_layer id (layers state) with
      | None => None
      | Some currentIndex =>
          let swapIndex : Z :=
            match direction with
            | up => Z.of_nat currentIndex - 1
            | down => Z.of_nat currentIndex + 1
            end%Z in
          if decide (0 ≤ swapIndex ∧ swapIndex < Z.of_nat (length (layers state)))%Z
          then Some (σ, set_layers
                          (swap_layers currentIndex (Z.to_nat swapIndex) (layers state))
                          state)
          else Some (σ, state)
      end
  | SET_CANVAS_SIZE payload => Some (σ, set_canvasSize payload state)
  | CROP_CANVAS payload =>
      Some (σ, set_tool T_move
                 (set_layers
                    (map (translate_layer (rect_x payload) (rect_y payload)) (layers state))
                    (set_canvasSize {| width := rect_width payload;
                                       height := rect_height payload |} state)))
  | SET_LAYER_FILTER layerId filter value =>
      Some (σ, set_layers
                 (map (λ l, if decide (layer_id l = layerId)
                            then with_filters_effects
                                   (set_filter filter value (filters l)) (effects l) l
                            else l)
                      (layers state)) state)
  | UPDATE_LAYER_EFFECT layerId change =>
      Some (σ, set_layers
                 (map (λ l, if decide (layer_id l = layerId)
                            then with_filters_effects
                                   (filters l) (set_effect change (effects l)) l
                            else l)
                      (layers state)) state)
  | _ => Some (σ, state)
  end.

(** [reducer].  [now] is the value [Date.now()] returns during the call.
    [state.history[i]] for an [i] outside the array is [undefined] in the
    source; the embedding reads the empty layer list there, and
    [history_wf] below shows that no reachable state gets there. *)
Definition reducer (now : Z) (σ : Heap) (state : EditorState) (action : EditorAction)
  : Heap * EditorState :=
  match action with
  | UNDO =>
      if decide (0 < historyIndex state)
      then (σ, set_history (history state) (historyIndex state - 1)
                 (set_layers (default [] (history state !! (historyIndex state - 1))) state))
      else (σ, state)
  | REDO =>
      if decide (historyIndex state < length (history state) - 1)
      then (σ, set_history (history state) (historyIndex state + 1)
                 (set_layers (default [] (history state !! (historyIndex state + 1))) state))
      else (σ, state)
  | SET_TOOL payload => (σ, set_tool payload state)
  | SELECT_LAYER payload => (σ, set_activeLayerId (Some payload) state)
  | SET_ZOOM payload => (σ, set_zoom payload state)
  | SET_PAN payload => (σ, set_pan payload state)
  | SET_BRUSH_COLOR payload => (σ, set_brushColor payload state)
  | SET_BRUSH_SIZE payload => (σ, set_brushSize payload state)
  | SET_SELECTION_PATH payload => (σ, set_selectionPath payload state)
  | _ =>
      match nextState now σ state action with
      | Some (σ', newState) => (σ', pushHistory state newState)
      | None => (σ, state)
      end
  end.

(** The actions that end in [pushHistory] from a given state. *)
Definition commits (state : EditorState) (action : EditorAction) : bool :=
  match action with
  | ADD_LAYER _ | REMOVE_LAYER _ | DUPLICATE_LAYER _ | UPDATE_LAYER _ _
  | SET_CANVAS_SIZE _ | CROP_CANVAS _ | SET_LAYER_FILTER _ _ _
  | UPDATE_LAYER_EFFECT _ _ | PUSH_HISTORY => true
  | REORDER_LAYER id _ => bool_decide (is_Some (findIndex_layer id (layers state)))
  | _ => false
  end.

(** Dispatching a list of actions, each with the clock value its reducer
    call observes. *)
Definition dispatch (c : Heap * EditorState) (a : Z * EditorAction) : Heap * EditorState :=
  reducer a.1 c.1 c.2 a.2.

Definition run (c : Heap * EditorState) (acts : list (Z * EditorAction))
  : Heap * EditorState :=
  foldl dispatch c acts.

(** Every action of the list commits, in the state it is dispatched in. *)
Fixpoint all_commit (c : Heap * EditorState) (acts : list (Z * EditorAction)) : bool :=
  match acts with
  | [] => true
  | a :: rest => commits c.2 a.2 && all_commit (dispatch c a) rest
  end.

Definition initialState : EditorState :=
  {| layers := []; activeLayerId := None; tool := T_move;
     canvasSize := {| width := 800; height := 600 |};
     zoom := 1; pan := {| px := 0; py := 0 |};
     brushSize := 10; brushColor := "#ef4444"; brushHardness := 100;
     selectionPath := None; history := [[]]; historyIndex := 0 |}.

End Canvas2D.

(** The store of canvases: the canvases created so far, by reference. *)
Abbreviation Heap bitmap := (list (@Canvas bitmap)).

(** ** The warp tool (App.tsx, [handleWarpTool]) *)

(** [rotatePoint], with the centre and the cosine and sine it closes over. *)
Definition rotatePoint (cx cy cos sin : number) (p_x p_y : number) : Point :=
  let dx := (p_x - cx)%R in
  let dy := (p_y - cy)%R in
  {| px := (cx + dx * cos - dy * sin)%R;
     py := (cy + dx * sin + dy * cos)%R |}.

(** The quad built by the [if (!layer.warpPoints)] branch. *)
Definition initialWarp (layer : Layer) : WarpPoints :=
  let x := layer_x layer in
  let y := layer_y layer in
  let w := layer_width layer in
  let h := layer_height layer in
  let cx := (x + w / 2)%R in
  let cy := (y + h / 2)%R in
  let ang := (or_zero (rotation layer) * PI / 180)%R in
  let cos := cos ang in
  let sin := sin ang in
  {| tl := rotatePoint cx cy cos sin x y;
     tr := rotatePoint cx cy cos sin (x + w)%R y;
     bl := rotatePoint cx cy cos sin x (y + h)%R;
     br := rotatePoint cx cy cos sin (x + w)%R (y + h)%R |}.

(** [handleWarpTool]: the actions it dispatches, in order. *)
Definition handleWarpTool (state : EditorState) : list EditorAction :=
  match activeLayerId state ≫= or_null with
  | None => []
  | Some activeId =>
      match find_layer activeId (layers state) with
      | None => []
      | Some layer =>
          match layer_type layer with
          | L_text => []
          | L_image | L_drawing =>
              match warpPoints layer with
              | None => [UPDATE_LAYER (layer_id layer) (changes_warpPoints (initialWarp layer))]
              | Some _ => []
              end ++ [SET_TOOL T_warp]
          end
      end
  end.

(** *** The same quad in double-precision arithmetic

    A [number] is an IEEE 754 double.  The arithmetic of the initial quad is
    repeated here on binary64 floats, operation by operation, so that the
    effect of rounding can be computed.  [Math.cos] and [Math.sin] are
    parameters: ECMAScript leaves their precision to the implementation and
    fixes their values at [+0], which are [1] and [+0]. *)

Definition Math_PI : float := 0x1.921fb54442d18p+1%float.

(** [n || 0] on a double: [0], [-0] and NaN are falsy. *)
Definition or_zero_f64 (n : float) : float :=
  if (PrimFloat.is_nan n || PrimFloat.eqb n 0)%bool then 0%float else n.

Record Point_f64 := { px_f64 : float; py_f64 : float }.

Record WarpPoints_f64 := {
  tl_f64 : Point_f64; tr_f64 : Point_f64; bl_f64 : Point_f64; br_f64 : Point_f64
}.

Definition rotatePoint_f64 (cx cy cos sin : float) (p_x p_y : float) : Point_f64 :=
  let dx := (p_x - cx)%float in
  let dy := (p_y - cy)%float in
  {| px_f64 := (cx + dx * cos - dy * sin)%float;
     py_f64 := (cy + dx * sin + dy * cos)%float |}.

Definition initialWarp_f64 (Math_cos Math_sin : float → float)
    (x y w h rotation : float) : WarpPoints_f64 :=
  let cx := (x + w / 2)%float in
  let cy := (y + h / 2)%float in
  let ang := (or_zero_f64 rotation * Math_PI / 180)%float in
  let cos := Math_cos ang in
  let sin := Math_sin ang in
  {| tl_f64 := rotatePoint_f64 cx cy cos sin x y;
     tr_f64 := rotatePoint_f64 cx cy cos sin (x + w)%float y;
     bl_f64 := rotatePoint_f64 cx cy cos sin x (y + h)%float;
     br_f64 := rotatePoint_f64 cx cy cos sin (x + w)%float (y + h)%float |}.

(** ** Brush and eraser strokes (Workspace.tsx) *)

Section Workspace.

Context {bitmap : Type}.

(** The brush/eraser branch of [handleMouseMove].  [stroke] is what the
    calls [save … lineTo; stroke; restore] do to the bitmap of the layer's
    canvas (it depends on the brush, the selection clip and the pointer).
    The branch paints on the canvas in place and then calls
    [onUpdateLayer(layer.id, {})], which dispatches UPDATE_LAYER with the
    empty change set. *)
Definition brushMove (stroke : bitmap → bitmap) (isDrawing : bool)
    (σ : Heap bitmap) (state : EditorState) : Heap bitmap * list EditorAction :=
  if isDrawing && bool_decide (tool state = T_brush ∨ tool state = T_eraser) then
    match activeLayerId state ≫= or_null with
    | Some activeId =>
        match find_layer activeId (layers state) with
        | Some layer =>
            match layer_type layer, imageElement layer with
            | (L_drawing | L_image), Some (HTMLCanvasElement r) =>
                (paint stroke r σ, [UPDATE_LAYER (layer_id layer) no_changes])
            | _, _ => (σ, [])
            end
        | None => (σ, [])
        end
    | None => (σ, [])
    end
  else (σ, []).

(** The brush/eraser line of [handleMouseUp]: [onCommitLayerUpdate()]. *)
Definition brushUp (isDrawing : bool) (state : EditorState) : list EditorAction :=
  if isDrawing && bool_decide (tool state = T_brush ∨ tool state = T_eraser)
  then [PUSH_HISTORY] else [].

(** The bitmap a layer shows: the content of the canvas it refers to. *)
Definition layer_bitmap (σ : Heap bitmap) (l : Layer) : option bitmap :=
  match imageElement l with
  | Some (HTMLCanvasElement r) => canvas_bitmap <$> σ !! r
  | _ => None
  end.

End Workspace.

(** ** canvasUtils.ts: the warp renderer *)

(** The calls made on a [CanvasRenderingContext2D], in order. *)
Inductive CanvasOp :=
  | Op_save
  | Op_beginPath
  | Op_moveTo (x y : number)
  | Op_lineTo (x y : number)
  | Op_closePath
  | Op_clip
  | Op_transform (a b c d e f : number)
  | Op_drawImage (im : ImageElement) (sx sy sw sh dx dy dw dh : number)
  | Op_restore.

(** Division by a computed value.  Dividing by zero is made observable as
    [None], so that the guards of the renderer can be checked against it. *)
Definition div (a b : number) : option number :=
  if Req_dec_T b 0 then None else Some (a / b)%R.

Definition lerp (a b t : number) : number := (a + (b - a) * t)%R.

Definition getWarpedPoint (u v : number) (wp : WarpPoints) : Point :=
  let tx := lerp (px (tl wp)) (px (tr wp)) u in
  let ty := lerp (py (tl wp)) (py (tr wp)) u in
  let bx := lerp (px (bl wp)) (px (br wp)) u in
  let by_ := lerp (py (bl wp)) (py (br wp)) u in
  {| px := lerp tx bx v; py := lerp ty by_ v |}.

(** [bloat], with the centroid it closes over. *)
Definition bloat (cx cy : number) (p : Point) : option Point :=
  let dx := (px p - cx)%R in
  let dy := (py p - cy)%R in
  let len := sqrt (dx * dx + dy * dy) in
  let overlap := 0.6%R in
  if Rlt_dec len 0.1 then Some p
  else
    q ← div overlap len;
    let s := (1 + q)%R in
    Some {| px := (cx + dx * s)%R; py := (cy + dy * s)%R |}.

Definition renderTriangleFixed (im : ImageElement)
    (sx sy sw sh : number) (p0 p1 p2 : Point) (isUpper : bool)
  : option (list CanvasOp) :=
  let cx := ((px p0 + px p1 + px p2) / 3)%R in
  let cy := ((py p0 + py p1 + py p2) / 3)%R in
  cp0 ← bloat cx cy p0;
  cp1 ← bloat cx cy p1;
  cp2 ← bloat cx cy p2;
  m ← (if isUpper then
         m11 ← div (px p1 - px p0) sw;
         m12 ← div (py p1 - py p0) sw;
         m21 ← div (px p2 - px p0) sh;
         m22 ← div (py p2 - py p0) sh;
         Some (m11, m12, m21, m22,
               (px p0 - m11 * sx - m21 * sy)%R, (py p0 - m12 * sx - m22 * sy)%R)
       else
         m11 ← div (px p0 - px p2) sw;
         m12 ← div (py p0 - py p2) sw;
         m21 ← div (px p0 - px p1) sh;
         m22 ← div (py p0 - py p1) sh;
         let srcX := (sx + sw)%R in
         let srcY := (sy + sh)%R in
         Some (m11, m12, m21, m22,
               (px p0 - m11 * srcX - m21 * srcY)%R, (py p0 - m12 * srcX - m22 * srcY)%R));
  let '(m11, m12, m21, m22, dx, dy) := m in
  let pad := 2.0%R in
  let s_x := (sx - pad)%R in
  let s_y := (sy - pad)%R in
  let s_w := (sw + 2 * pad)%R in
  let s_h := (sh + 2 * pad)%R in
  let '(s_w, s_x) := if Rlt_dec s_x 0 then ((s_w + s_x)%R, 0%R) else (s_w, s_x) in
  let '(s_h, s_y) := if Rlt_dec s_y 0 then ((s_h + s_y)%R, 0%R) else (s_h, s_y) in
  Some ([Op_save; Op_beginPath;
         Op_moveTo (px cp0) (py cp0); Op_lineTo (px cp1) (py cp1);
         Op_lineTo (px cp2) (py cp2); Op_closePath; Op_clip;
         Op_transform m11 m12 m21 m22 dx dy]
        ++ (if Rgt_dec s_w 0 then
              if Rgt_dec s_h 0 then [Op_drawImage im s_x s_y s_w s_h s_x s_y s_w s_h]
              else []
            else [])
        ++ [Op_restore]).

Definition GRID_SIZE : nat := 20.

(** One iteration of the inner loop: the two triangles of the cell [(x, y)]. *)
Definition renderCell (image : ImageElement) (wp : WarpPoints)
    (originalWidth originalHeight : number) (y x : nat) : option (list CanvasOp) :=
  let stepU := (1.0 / INR GRID_SIZE)%R in
  let stepV := (1.0 / INR GRID_SIZE)%R in
  let stepW := (originalWidth / INR GRID_SIZE)%R in
  let stepH := (originalHeight / INR GRID_SIZE)%R in
  let u0 := (INR x * stepU)%R in
  let v0 := (INR y * stepV)%R in
  let u1 := (u0 + stepU)%R in
  let v1 := (v0 + stepV)%R in
  let sx := (u0 * originalWidth)%R in
  let sy := (v0 * originalHeight)%R in
  let p1 := getWarpedPoint u0 v0 wp in
  let p2 := getWarpedPoint u1 v0 wp in
  let p3 := getWarpedPoint u0 v1 wp in
  let p4 := getWarpedPoint u1 v1 wp in
  upper ← renderTriangleFixed image sx sy stepW stepH p1 p2 p3 true;
  lower ← renderTriangleFixed image sx sy stepW stepH p4 p2 p3 false;
  Some (upper ++ lower).

(** [renderWarpedLayer]: the calls it makes on [ctx], or [None] when a
    division by zero is reached. *)
Definition renderWarpedLayer (image : ImageElement) (wp : WarpPoints)
    (originalWidth originalHeight : number) : option (list CanvasOp) :=
  let stepW := (originalWidth / INR GRID_SIZE)%R in
  let stepH := (originalHeight / INR GRID_SIZE)%R in
  if Rle_dec stepW 0.001 then Some []
  else if Rle_dec stepH 0.001 then Some []
  else
    rows ← mapM (λ y,
              cells ← mapM (renderCell image wp originalWidth originalHeight y)
                           (seq 0 GRID_SIZE);
              Some (concat cells))
            (seq 0 GRID_SIZE);
    Some (concat rows).

(** ** canvasUtils.ts: the glitch operator *)

(** Reading a [Uint8ClampedArray] outside its bounds yields [undefined],
    which is stored back as [0]. *)
Definition read (a : list Z) (i : Z) : Z :=
  if (i <? 0)%Z then 0%Z else default 0%Z (a !! Z.to_nat i).

(** The loop counter takes the values [0, 4, 8, …] below [data.length]. *)
Definition pixel_starts (len : nat) : list nat :=
  (λ k, 4 * k) <$> seq 0 ((len + 3) `div` 4).

(** The body of the loop; [copy] is the snapshot taken before it. *)
Definition glitch_step (copy : list Z) (byteOffset : Z) (data : list Z) (i : nat) : list Z :=
  let len := Z.of_nat (length data) in
  let leftIdx := (Z.of_nat i - byteOffset)%Z in
  let rightIdx := (Z.of_nat i + byteOffset)%Z in
  let data :=
    if (0 <=? leftIdx)%Z && (leftIdx <? len)%Z
    then <[i := read copy leftIdx]> data else data in
  if (0 <=? rightIdx)%Z && (rightIdx <? len)%Z
  then <[i + 2 := read copy (rightIdx + 2)]> data else data.

(** [applyGlitch] on the bytes that [getImageData(0, 0, width, height)]
    returns (RGBA, row by row); the result is what [putImageData] writes
    back. *)
Definition applyGlitch (data : list Z) (offset : Q) : list Z :=
  if Qle_bool offset 0 then data
  else
    let copy := data in
    let pixelOffset := Qfloor offset in
    let byteOffset := (pixelOffset * 4)%Z in
    foldl (glitch_step copy byteOffset) data (pixel_starts (length data)).

(** * Properties *)

(** ** The history stack *)

(** The invariant of the history stack: the cursor is a valid index, the
    stack holds at most 20 entries, and the entry under the cursor is the
    current layer sequence. *)
Definition history_wf (s : EditorState) : Prop :=
  historyIndex s < length (history s) ∧
  length (history s) ≤ 20 ∧
  history s !! historyIndex s = Some (layers s).

(** [undo()] and [redo()] pressed once per clock value of the list. *)
Definition undos (clocks : list Z) : list (Z * EditorAction) := (λ t, (t, UNDO)) <$> clocks.
Definition redos (clocks : list Z) : list (Z * EditorAction) := (λ t, (t, REDO)) <$> clocks.

(** ** Concrete inputs

    A small instance of the 2D API on which the model runs: a bitmap is a
    list of bytes, a fresh canvas holds none, and drawing a source on a
    fresh canvas yields the bytes of the source. *)
Definition toy_blank (w h : number) : list Z := [].
Definition toy_drawImage (dst src : list Z) : list Z := src.

(** A drawing layer as [handleAddLayer] builds it, with a given id and
    canvas. *)
Definition sample_layer (id : string) (image : option ImageElement) : Layer :=
  {| layer_id := id; layer_name := "Layer 1"; layer_type := L_drawing;
     visible := true; locked := false; opacity := 1;
     blendMode := BM_source_over;
     layer_x := 0; layer_y := 0; layer_width := 800; layer_height := 600;
     rotation := 0; warpPoints := None; imageElement := image;
     text := None; color := None; fontSize := None; fontFamily := None;
     fontWeight := None; fontStyle := None; textAlign := None;
     textStrokeColor := None; textStrokeWidth := None;
     filters := DEFAULT_FILTERS; effects := DEFAULT_EFFECTS |}.

(** ** The document invariant *)

(** The active layer id, when set, is the id of a layer of the sequence. *)
Definition active_layer_valid (ls : list Layer) (active : option string) : Prop :=
  match active with
  | Some id => id ∈ layer_id <$> ls
  | None => True
  end.

Definition active_valid (s : EditorState) : Prop :=
  active_layer_valid (layers s) (activeLayerId s).



(** Two layers, the lower one selected: what the layers panel shows after
    two clicks on "New Layer" and a click on the lower row. *)
Definition two_layers_lower_active : Heap (list Z) * EditorState :=
  run toy_blank toy_drawImage ([], initialState)
    [(2%Z, ADD_LAYER (sample_layer "2" None));
     (1%Z, ADD_LAYER (sample_layer "1" None));
     (3%Z, SELECT_LAYER "2")].


(** One layer created at clock value 5, with its canvas. *)
Definition layer_at_5 : Heap (list Z) * EditorState :=
  run toy_blank toy_drawImage
    ([{| canvas_width := 800; canvas_height := 600; canvas_bitmap := [255; 0; 0; 255]%Z |}],
     initialState)
    [(5%Z, ADD_LAYER (sample_layer "5" (Some (HTMLCanvasElement 0))))].

(** ** Plane geometry, in the words of the specification *)

(** Degrees to radians. *)
Definition radians (deg : R) : R := (deg * PI / 180)%R.

(** The standard rotation matrix of the angle [θ], applied to a vector. *)
Definition rotation_matrix (θ : R) (v : Point) : Point :=
  {| px := (cos θ * px v - sin θ * py v)%R;
     py := (sin θ * px v + cos θ * py v)%R |}.

(** A point rotated about a centre: the centre plus the rotated offset. *)
Definition rotate_about (c : Point) (θ : R) (p : Point) : Point :=
  let v := rotation_matrix θ {| px := (px p - px c)%R; py := (py p - py c)%R |} in
  {| px := (px c + px v)%R; py := (py c + py v)%R |}.

Definition hypot (a b : R) : R := sqrt (a * a + b * b).

Definition distance (p q : Point) : R := hypot (px p - px q) (py p - py q).

(** The centre of the bounding box of a layer, and its four corners before
    rotation. *)
Definition box_center (l : Layer) : Point :=
  {| px := (layer_x l + layer_width l / 2)%R; py := (layer_y l + layer_height l / 2)%R |}.

Definition box_corners (l : Layer) : WarpPoints :=
  {| tl := {| px := layer_x l; py := layer_y l |};
     tr := {| px := (layer_x l + layer_width l)%R; py := layer_y l |};
     bl := {| px := layer_x l; py := (layer_y l + layer_height l)%R |};
     br := {| px := (layer_x l + layer_width l)%R; py := (layer_y l + layer_height l)%R |} |}.

(** The corners of the bounding box, on doubles. *)
Definition box_corners_f64 (x y w h : float) : WarpPoints_f64 :=
  {| tl_f64 := {| px_f64 := x; py_f64 := y |};
     tr_f64 := {| px_f64 := (x + w)%float; py_f64 := y |};
     bl_f64 := {| px_f64 := x; py_f64 := (y + h)%float |};
     br_f64 := {| px_f64 := (x + w)%float; py_f64 := (y + h)%float |} |}.

(** An image layer of 100 by 50 at (10, 20), turned by a given angle, and
    the editor state in which it is the only layer and the active one. *)
Definition turned_layer (deg : R) : Layer :=
  {| layer_id := "7"; layer_name := "photo.png"; layer_type := L_image;
     visible := true; locked := false; opacity := 1;
     blendMode := BM_source_over;
     layer_x := 10; layer_y := 20; layer_width := 100; layer_height := 50;
     rotation := deg; warpPoints := None;
     imageElement := Some (HTMLCanvasElement 0);
     text := None; color := None; fontSize := None; fontFamily := None;
     fontWeight := None; fontStyle := None; textAlign := None;
     textStrokeColor := None; textStrokeWidth := None;
     filters := DEFAULT_FILTERS; effects := DEFAULT_EFFECTS |}.

Definition turned_state (deg : R) : EditorState :=
  {| layers := [turned_layer deg]; activeLayerId := Some "7"; tool := T_move;
     canvasSize := {| width := 800; height := 600 |};
     zoom := 1; pan := {| px := 0; py := 0 |};
     brushSize := 10; brushColor := "#ef4444"; brushHardness := 100;
     selectionPath := None; history := [[]; [turned_layer deg]]; historyIndex := 1 |}.

(** ** Pixels of an RGBA buffer *)

(** Channel [c] (0 red, 1 green, 2 blue, 3 alpha) of the [p]-th pixel in
    row-major order, and of the pixel in column [x] of row [y]. *)
Definition pixel_channel (data : list Z) (p c : nat) : Z :=
  default 0%Z (data !! (4 * p + c)).

Definition channel (width : nat) (data : list Z) (x y c : nat) : Z :=
  pixel_channel data (y * width + x) c.

(** The glitch operator as C7 words it, row by row: red from [k] columns to
    the left, blue from [k] columns to the right, and a channel whose sample
    would leave the row keeps its value. *)
Definition glitch_rows_claim (width height k : nat) (data out : list Z) : Prop :=
  ∀ x y, x < width → y < height →
    channel width out x y 0 =
      (if decide (k ≤ x) then channel width data (x - k) y 0 else channel width data x y 0) ∧
    channel width out x y 1 = channel width data x y 1 ∧
    channel width out x y 2 =
      (if decide (x + k < width) then channel width data (x + k) y 2
       else channel width data x y 2) ∧
    channel width out x y 3 = channel width data x y 3.

(** What the operator computes, on the sequence of [n] pixels in row-major
    order: red from [k] pixels earlier, blue from [k] pixels later, and a
    channel whose sample would leave the sequence keeps its value. *)
Definition glitch_expected (data : list Z) (n k p c : nat) : Z :=
  match c with
  | 0 => if decide (k ≤ p) then pixel_channel data (p - k) 0 else pixel_channel data p 0
  | 2 => if decide (p + k < n) then pixel_channel data (p + k) 2 else pixel_channel data p 2
  | _ => pixel_channel data p c
  end.

(** The state of the loop after [j] iterations. *)
Definition glitch_inv (data : list Z) (n k j : nat) (d : list Z) : Prop :=
  length d = 4 * n ∧
  ∀ p c, p < n → c < 4 →
    d !! (4 * p + c) =
      Some (if decide (p < j) then glitch_expected data n k p c else pixel_channel data p c).

(** A buffer of 2 by 2 opaque pixels with red values 10, 20, 30, 40. *)
Definition glitch_sample : list Z :=
  [10; 0; 0; 255;  20; 0; 0; 255;  30; 0; 0; 255;  40; 0; 0; 255]%Z.

(** The layer created at clock value 5, with the brush selected, and an
    eraser-like stroke that clears the bitmap. *)
Definition brush_on_layer_5 : Heap (list Z) * EditorState :=
  run toy_blank toy_drawImage layer_at_5 [(6%Z, SET_TOOL T_brush)].

Definition clear_bitmap (b : list Z) : list Z := [0; 0; 0; 0]%Z.


(** ** Further vocabulary for the reducer *)

(** Comparisons of numbers are decided. *)
#[global] Instance Rlt_decision (a b : R) : Decision (a < b)%R := Rlt_dec a b.
#[global] Instance Rle_decision (a b : R) : Decision (a <= b)%R := Rle_dec a b.
#[global] Instance Rgt_decision (a b : R) : Decision (a > b)%R := Rgt_dec a b.
#[global] Instance Rge_decision (a b : R) : Decision (a >= b)%R := Rge_dec a b.
#[global] Instance R_eq_decision : EqDecision R := Req_dec_T.

(** The layer an action names, for the actions that edit one layer. *)
Definition target (a : EditorAction) : option string :=
  match a with
  | REMOVE_LAYER id | DUPLICATE_LAYER id | UPDATE_LAYER id _
  | SET_LAYER_FILTER id _ _ | UPDATE_LAYER_EFFECT id _ => Some id
  | _ => None
  end.

(** The last 20 entries of a stack. *)
Definition last20 {A} (l : list A) : list A := drop (length l - 20) l.

(** The canvases a layer sequence refers to, in layer order. *)
Definition canvas_of (l : Layer) : option nat :=
  match imageElement l with
  | Some (HTMLCanvasElement r) => Some r
  | _ => None
  end.

Definition canvas_refs (ls : list Layer) : list nat := omap canvas_of ls.

(** No canvas is referred to by two layers of the sequence, and every
    reference is to a canvas of the store. *)
Definition owns {bitmap} (σ : Heap bitmap) (ls : list Layer) : Prop :=
  NoDup (canvas_refs ls) ∧ Forall (λ r, r < length σ) (canvas_refs ls).

Definition store_wf {bitmap} (σ : Heap bitmap) (s : EditorState) : Prop :=
  owns σ (layers s) ∧ Forall (owns σ) (history s).

(** What the callers of the reducer provide: a layer that is added brings a
    canvas of the store that no layer of the document refers to, and a
    change set does not assign [imageElement]. *)
Definition brings_own_canvas {bitmap} (σ : Heap bitmap) (s : EditorState)
    (a : EditorAction) : Prop :=
  match a with
  | ADD_LAYER l =>
      ∀ r, canvas_of l = Some r → r < length σ ∧ r ∉ canvas_refs (layers s)
  | UPDATE_LAYER _ changes => c_imageElement changes = None
  | _ => True
  end.

(** An action that brings no canvas: the layer it adds has none, and its
    change set does not assign one. *)
Definition keeps_canvases (a : EditorAction) : Prop :=
  match a with
  | ADD_LAYER l => canvas_of l = None
  | UPDATE_LAYER _ changes => c_imageElement changes = None
  | _ => True
  end.

Section Strokes.

Context {bitmap : Type}.
Variable blank : number → number → bitmap.
Variable drawImage : bitmap → bitmap → bitmap.

(** A brush or eraser gesture: one call of the brush branch of
    [handleMouseMove] per pointer move, each with the paint it applies and
    the clock value of its dispatch, the component being rendered again
    between two events; then the pointer is released. *)
Definition brushGesture (moves : list (Z * (bitmap → bitmap))) (release : Z)
    (c : Heap bitmap * EditorState) : Heap bitmap * EditorState :=
  let c :=
    foldl (λ c m,
             let moved := brushMove m.2 true c.1 c.2 in
             run blank drawImage (moved.1, c.2) ((λ a, (m.1, a)) <$> moved.2))
          c moves in
  run blank drawImage c ((λ a, (release, a)) <$> brushUp true c.2).

End Strokes.

(** ** The transformation matrix of a 2D context

    The current transformation matrix of a [CanvasRenderingContext2D], as
    the HTML standard defines it: the matrix [[a c e; b d f; 0 0 1]] sends
    the point [(x, y)] of the coordinates that drawing calls use to
    [(a x + c y + e, b x + d y + f)], and [transform], [translate], [scale]
    and [rotate] multiply the current matrix on the right. *)

Record Matrix := {
  m_a : number; m_b : number; m_c : number; m_d : number; m_e : number; m_f : number
}.

Definition identity_matrix : Matrix :=
  {| m_a := 1; m_b := 0; m_c := 0; m_d := 1; m_e := 0; m_f := 0 |}.

Definition ctx_transform (a b c d e f : number) (m : Matrix) : Matrix :=
  {| m_a := (m_a m * a + m_c m * b)%R;
     m_b := (m_b m * a + m_d m * b)%R;
     m_c := (m_a m * c + m_c m * d)%R;
     m_d := (m_b m * c + m_d m * d)%R;
     m_e := (m_a m * e + m_c m * f + m_e m)%R;
     m_f := (m_b m * e + m_d m * f + m_f m)%R |}.

Definition ctx_translate (x y : number) : Matrix → Matrix := ctx_transform 1 0 0 1 x y.
Definition ctx_scale (x y : number) : Matrix → Matrix := ctx_transform x 0 0 y 0 0.
Definition ctx_rotate (angle : number) : Matrix → Matrix :=
  ctx_transform (cos angle) (sin angle) (- sin angle) (cos angle) 0 0.

Definition apply_matrix (m : Matrix) (p : Point) : Point :=
  {| px := (m_a m * px p + m_c m * py p + m_e m)%R;
     py := (m_b m * px p + m_d m * py p + m_f m)%R |}.

(** The matrix under which the unwarped branch of [renderCanvas] draws the
    image of a layer: [translate(centerX, centerY)], [rotate] when the
    rotation is not zero, [translate(-width / 2, -height / 2)], and
    [drawImage(image, 0, 0, layer.width, layer.height)], which stretches the
    image, of [imageWidth] by [imageHeight] pixels, over the box of the
    layer. *)
Definition layerImageMatrix (layer : Layer) (imageWidth imageHeight : number) : Matrix :=
  let centerX := (layer_x layer + layer_width layer / 2)%R in
  let centerY := (layer_y layer + layer_height layer / 2)%R in
  let m := ctx_translate centerX centerY identity_matrix in
  let m := if decide (rotation layer = 0%R)
           then m else ctx_rotate (rotation layer * PI / 180) m in
  let m := ctx_translate (- layer_width layer / 2) (- layer_height layer / 2) m in
  ctx_scale (layer_width layer / imageWidth) (layer_height layer / imageHeight) m.

(** The matrix that a list of calls passes to [transform]. *)
Fixpoint transform_of (ops : list CanvasOp) : option Matrix :=
  match ops with
  | [] => None
  | Op_transform a b c d e f :: _ => Some (ctx_transform a b c d e f identity_matrix)
  | _ :: ops => transform_of ops
  end.

(** The calls of one triangle: the clip path, the transform and the image. *)
Definition triangle_block (ops : list CanvasOp) : Prop :=
  ∃ cp0 cp1 cp2 a b c d e f im s_x s_y s_w s_h,
    ops = [Op_save; Op_beginPath;
           Op_moveTo (px cp0) (py cp0); Op_lineTo (px cp1) (py cp1);
           Op_lineTo (px cp2) (py cp2); Op_closePath; Op_clip;
           Op_transform a b c d e f;
           Op_drawImage im s_x s_y s_w s_h s_x s_y s_w s_h;
           Op_restore] ∧
    (0 <= s_x)%R ∧ (0 <= s_y)%R ∧ (0 < s_w)%R ∧ (0 < s_h)%R.

(** ** canvasUtils.ts: scanlines *)





(** ** canvasUtils.ts: the shared buffer *)



(** ** canvasUtils.ts: the box of a text layer *)

Definition Math_ceil (x : number) : number := IZR (Zceil x).

(** The line feed, and [text.split('\n')]. *)
Definition line_feed : Ascii.ascii := Ascii.ascii_of_nat 10.

Fixpoint split_lines (text : string) : list string :=
  match text with
  | EmptyString => [EmptyString]
  | String c rest =>
      if Ascii.eqb c line_feed then EmptyString :: split_lines rest
      else
        match split_lines rest with
        | [] => [String c EmptyString]
        | line :: lines => String c line :: lines
        end
  end.

Section Text.

(** [ctx.measureText(line).width] for a context whose font was set to
    [`${fontStyle} ${fontWeight} ${fontSize}px ${fontFamily}`]. *)
Variable measureText : FontStyle → FontWeight → number → string → string → number.

(** [measureTextLayer]; a parameter that is not passed, or is passed as
    [undefined], takes its default value.  The canvas that the function
    creates yields its 2D context, so the branch [if (!ctx)] is not taken. *)
Definition measureTextLayer (text : string) (fontSize : number) (fontFamily : string)
    (fontWeight : option FontWeight) (fontStyle : option FontStyle)
    (strokeWidth : option number) : Size :=
  let fontWeight := default FW_normal fontWeight in
  let fontStyle := default FS_normal fontStyle in
  let strokeWidth := default 0%R strokeWidth in
  let lines := split_lines text in
  let lineHeight := (fontSize * 1.2)%R in
  let maxWidth :=
    foldl (λ maxWidth line,
             let m := measureText fontStyle fontWeight fontSize fontFamily line in
             if decide (m > maxWidth)%R then m else maxWidth)
          0%R lines in
  let horizontalPadding := (or_zero strokeWidth + 20)%R in
  let verticalPadding := (or_zero strokeWidth + 10)%R in
  {| width := Math_ceil (maxWidth + horizontalPadding);
     height := Math_ceil (INR (length lines) * lineHeight + verticalPadding) |}.

(** The box that [measureTextLayer] gives for the typography of a layer, as
    [handleUpdateLayer] and [rasterizeText] call it: [fontSize || 24] and
    [fontFamily || 'sans-serif']. *)
Definition or_default_number (d : number) (v : option number) : number :=
  match v with
  | Some n => if decide (n = 0%R) then d else n
  | None => d
  end.

Definition text_box (text : string) (l : Layer) : Size :=
  measureTextLayer text (or_default_number 24 (fontSize l))
    (default "sans-serif" (fontFamily l ≫= or_null))
    (fontWeight l) (fontStyle l) (textStrokeWidth l).

(** [{ ...changes, width, height }]: the two assignments
    [changes.width = width; changes.height = height]. *)
Definition set_changes_size (size : Size) (c : LayerChanges) : LayerChanges :=
  {| c_id := c_id c; c_name := c_name c; c_type := c_type c; c_visible := c_visible c;
     c_locked := c_locked c; c_opacity := c_opacity c; c_blendMode := c_blendMode c;
     c_x := c_x c; c_y := c_y c;
     c_width := Some (width size); c_height := Some (height size);
     c_rotation := c_rotation c; c_warpPoints := c_warpPoints c;
     c_imageElement := c_imageElement c; c_text := c_text c; c_color := c_color c;
     c_fontSize := c_fontSize c; c_fontFamily := c_fontFamily c;
     c_fontWeight := c_fontWeight c; c_fontStyle := c_fontStyle c;
     c_textAlign := c_textAlign c; c_textStrokeColor := c_textStrokeColor c;
     c_textStrokeWidth := c_textStrokeWidth c; c_filters := c_filters c;
     c_effects := c_effects c |}.

(** [relevantProps.some(p => p in changes)]. *)
Definition needsResize (changes : LayerChanges) : bool :=
  bool_decide (is_Some (c_text changes)) || bool_decide (is_Some (c_fontSize changes))
  || bool_decide (is_Some (c_fontFamily changes))
  || bool_decide (is_Some (c_fontWeight changes))
  || bool_decide (is_Some (c_fontStyle changes))
  || bool_decide (is_Some (c_textStrokeWidth changes)).

(** [handleUpdateLayer] (App.tsx): the action it dispatches. *)
Definition handleUpdateLayer (state : EditorState) (id : string) (changes : LayerChanges)
  : list EditorAction :=
  let changes :=
    match find_layer id (layers state) with
    | Some layer =>
        if bool_decide (layer_type layer = L_text) && needsResize changes then
          let merged := merge_layer layer changes in
          match text merged ≫= or_null with
          | Some merged_text => set_changes_size (text_box merged_text merged) changes
          | None => changes
          end
        else changes
    | None => changes
    end in
  [UPDATE_LAYER id changes].

End Text.

(** ** Workspace.tsx: the view, hit tests and pointer gestures *)

(** [canvas.getBoundingClientRect()]. *)
Record DOMRect := {
  dom_left : number; dom_top : number; dom_width : number; dom_height : number
}.

Record MouseEvent := {
  clientX : number; clientY : number;
  movementX : number; movementY : number;
  button : nat; shiftKey : bool
}.


(** The matrix that the render loop sets up before it draws the document:
    [scale(dpr, dpr)], [translate(vWidth / 2 + pan.x, vHeight / 2 + pan.y)],
    [scale(zoom, zoom)] and [translate(-canvasSize.width / 2,
    -canvasSize.height / 2)].  [canvas_w] and [canvas_h] are the [width]
    and [height] attributes of the canvas element. *)
Definition viewMatrix (dpr canvas_w canvas_h : number) (state : EditorState) : Matrix :=
  let m := ctx_scale dpr dpr identity_matrix in
  let vWidth := (canvas_w / dpr)%R in
  let vHeight := (canvas_h / dpr)%R in
  let m := ctx_translate (vWidth / 2 + px (pan state)) (vHeight / 2 + py (pan state)) m in
  let m := ctx_scale (zoom state) (zoom state) m in
  ctx_translate (- width (canvasSize state) / 2) (- height (canvasSize state) / 2) m.

(** Where a pixel of the canvas element shows in the window: the element is
    laid out over [rect], and its [canvas_w] by [canvas_h] pixels are
    stretched over it. *)
Definition clientPosition (rect : DOMRect) (canvas_w canvas_h : number) (q : Point) : Point :=
  {| px := (dom_left rect + px q * (dom_width rect / canvas_w))%R;
     py := (dom_top rect + py q * (dom_height rect / canvas_h))%R |}.

(** [getCanvasCoordinates].  The quotient by [state.zoom] is the quotient
    of real numbers: what is proved of it assumes a zoom that is not zero. *)
Definition getCanvasCoordinates (rect : DOMRect) (state : EditorState) (e : MouseEvent)
  : Point :=
  let clientX := (clientX e - dom_left rect)%R in
  let clientY := (clientY e - dom_top rect)%R in
  let centerX := (dom_width rect / 2 + px (pan state))%R in
  let centerY := (dom_height rect / 2 + py (pan state))%R in
  {| px := ((clientX - centerX) / zoom state + width (canvasSize state) / 2)%R;
     py := ((clientY - centerY) / zoom state + height (canvasSize state) / 2)%R |}.

(** The values of [activeHandle]. *)
Inductive Handle := H_pan | H_tl | H_tr | H_br | H_bl | H_rot | H_body.

#[global] Instance Handle_eq_dec : EqDecision Handle.
Proof. solve_decision. Defined.

Definition getHandleAtPosition (state : EditorState) (x y : number) (layer : Layer)
  : option Handle :=
  let cx := (layer_x layer + layer_width layer / 2)%R in
  let cy := (layer_y layer + layer_height layer / 2)%R in
  let dx := (x - cx)%R in
  let dy := (y - cy)%R in
  let angle := (- or_zero (rotation layer) * PI / 180)%R in
  let lx := (dx * cos angle - dy * sin angle)%R in
  let ly := (dx * sin angle + dy * cos angle)%R in
  let w := layer_width layer in
  let h := layer_height layer in
  let threshold := (10 / zoom state)%R in
  if decide (Rabs (lx - (- w / 2)) < threshold ∧ Rabs (ly - (- h / 2)) < threshold)%R
  then Some H_tl
  else if decide (Rabs (lx - w / 2) < threshold ∧ Rabs (ly - (- h / 2)) < threshold)%R
  then Some H_tr
  else if decide (Rabs (lx - w / 2) < threshold ∧ Rabs (ly - h / 2) < threshold)%R
  then Some H_br
  else if decide (Rabs (lx - (- w / 2)) < threshold ∧ Rabs (ly - h / 2) < threshold)%R
  then Some H_bl
  else if decide (Rabs (lx - 0) < threshold ∧
                  Rabs (ly - (- h / 2 - 20 / zoom state)) < threshold)%R
  then Some H_rot
  else if decide (lx >= - w / 2 ∧ lx <= w / 2 ∧ ly >= - h / 2 ∧ ly <= h / 2)%R
  then Some H_body
  else None.

Definition getWarpHandleAtPosition (state : EditorState) (x y : number) (wp : WarpPoints)
  : option Handle :=
  let threshold := (10 / zoom state)%R in
  if decide (hypot (x - px (tl wp)) (y - py (tl wp)) < threshold)%R then Some H_tl
  else if decide (hypot (x - px (tr wp)) (y - py (tr wp)) < threshold)%R then Some H_tr
  else if decide (hypot (x - px (bl wp)) (y - py (bl wp)) < threshold)%R then Some H_bl
  else if decide (hypot (x - px (br wp)) (y - py (br wp)) < threshold)%R then Some H_br
  else None.

(** The handles of the move tool, where the render loop draws them: the
    matrix of the controls ([translate(cx, cy)] and [rotate]) and the
    centres of the four squares and of the circle, in its coordinates. *)
Definition controlsMatrix (activeLayer : Layer) (m : Matrix) : Matrix :=
  let cx := (layer_x activeLayer + layer_width activeLayer / 2)%R in
  let cy := (layer_y activeLayer + layer_height activeLayer / 2)%R in
  ctx_rotate (or_zero (rotation activeLayer) * PI / 180) (ctx_translate cx cy m).

Definition drawnHandles (state : EditorState) (activeLayer : Layer) : list (Handle * Point) :=
  let w := layer_width activeLayer in
  let h := layer_height activeLayer in
  let rotHandleY := (- h / 2 - 20 / zoom state)%R in
  [(H_tl, {| px := (- w / 2)%R; py := (- h / 2)%R |});
   (H_tr, {| px := (w / 2)%R; py := (- h / 2)%R |});
   (H_br, {| px := (w / 2)%R; py := (h / 2)%R |});
   (H_bl, {| px := (- w / 2)%R; py := (h / 2)%R |});
   (H_rot, {| px := 0%R; py := rotHandleY |})].

(** The point of the canvas of a layer on which the brush draws for a
    pointer at [coords] ([drawX], [drawY]). *)
Definition brushPoint (layer : Layer) (coords : Point) : Point :=
  let cx := (layer_x layer + layer_width layer / 2)%R in
  let cy := (layer_y layer + layer_height layer / 2)%R in
  let dx := (px coords - cx)%R in
  let dy := (py coords - cy)%R in
  let angle := (- or_zero (rotation layer) * PI / 180)%R in
  let lx := (dx * cos angle - dy * sin angle)%R in
  let ly := (dx * sin angle + dy * cos angle)%R in
  {| px := (lx + layer_width layer / 2)%R; py := (ly + layer_height layer / 2)%R |}.

(** The interaction state of the component. *)
Record Gesture := {
  isDragging : bool;
  isDrawing : bool;
  activeHandle : option Handle;
  startPos : Point;
  lastMousePos : Point;
  initialLayerState : option Layer;
  cropRect : option Rect;
  currentSelectionPath : list Point
}.

Definition idle : Gesture :=
  {| isDragging := false; isDrawing := false; activeHandle := None;
     startPos := {| px := 0; py := 0 |}; lastMousePos := {| px := 0; py := 0 |};
     initialLayerState := None; cropRect := None; currentSelectionPath := [] |}.

Definition set_positions (p : Point) (g : Gesture) : Gesture :=
  {| isDragging := isDragging g; isDrawing := isDrawing g; activeHandle := activeHandle g;
     startPos := p; lastMousePos := p; initialLayerState := initialLayerState g;
     cropRect := cropRect g; currentSelectionPath := currentSelectionPath g |}.

Definition set_lastMousePos (p : Point) (g : Gesture) : Gesture :=
  {| isDragging := isDragging g; isDrawing := isDrawing g; activeHandle := activeHandle g;
     startPos := startPos g; lastMousePos := p; initialLayerState := initialLayerState g;
     cropRect := cropRect g; currentSelectionPath := currentSelectionPath g |}.

Definition start_drag (h : Handle) (l : option Layer) (g : Gesture) : Gesture :=
  {| isDragging := true; isDrawing := isDrawing g; activeHandle := Some h;
     startPos := startPos g; lastMousePos := lastMousePos g;
     initialLayerState := match l with Some _ => l | None => initialLayerState g end;
     cropRect := cropRect g; currentSelectionPath := currentSelectionPath g |}.

Definition set_isDragging (g : Gesture) : Gesture :=
  {| isDragging := true; isDrawing := isDrawing g; activeHandle := activeHandle g;
     startPos := startPos g; lastMousePos := lastMousePos g;
     initialLayerState := initialLayerState g;
     cropRect := cropRect g; currentSelectionPath := currentSelectionPath g |}.

Definition set_isDrawing (g : Gesture) : Gesture :=
  {| isDragging := isDragging g; isDrawing := true; activeHandle := activeHandle g;
     startPos := startPos g; lastMousePos := lastMousePos g;
     initialLayerState := initialLayerState g;
     cropRect := cropRect g; currentSelectionPath := currentSelectionPath g |}.

Definition set_cropRect (r : option Rect) (g : Gesture) : Gesture :=
  {| isDragging := isDragging g; isDrawing := isDrawing g; activeHandle := activeHandle g;
     startPos := startPos g; lastMousePos := lastMousePos g;
     initialLayerState := initialLayerState g;
     cropRect := r; currentSelectionPath := currentSelectionPath g |}.

Definition set_currentSelectionPath (p : list Point) (g : Gesture) : Gesture :=
  {| isDragging := isDragging g; isDrawing := isDrawing g; activeHandle := activeHandle g;
     startPos := startPos g; lastMousePos := lastMousePos g;
     initialLayerState := initialLayerState g;
     cropRect := cropRect g; currentSelectionPath := p |}.

(** The change sets of the move tool: [{ x, y }], [{ rotation }] and
    [{ width, height, x, y }]. *)
Definition changes_position (x y : number) : LayerChanges :=
  {| c_id := None; c_name := None; c_type := None; c_visible := None;
     c_locked := None; c_opacity := None; c_blendMode := None; c_x := Some x;
     c_y := Some y; c_width := None; c_height := None; c_rotation := None;
     c_warpPoints := None; c_imageElement := None; c_text := None;
     c_color := None; c_fontSize := None; c_fontFamily := None;
     c_fontWeight := None; c_fontStyle := None; c_textAlign := None;
     c_textStrokeColor := None; c_textStrokeWidth := None; c_filters := None;
     c_effects := None |}.

Definition changes_rotation (r : number) : LayerChanges :=
  {| c_id := None; c_name := None; c_type := None; c_visible := None;
     c_locked := None; c_opacity := None; c_blendMode := None; c_x := None;
     c_y := None; c_width := None; c_height := None; c_rotation := Some r;
     c_warpPoints := None; c_imageElement := None; c_text := None;
     c_color := None; c_fontSize := None; c_fontFamily := None;
     c_fontWeight := None; c_fontStyle := None; c_textAlign := None;
     c_textStrokeColor := None; c_textStrokeWidth := None; c_filters := None;
     c_effects := None |}.

Definition changes_box (w h x y : number) : LayerChanges :=
  {| c_id := None; c_name := None; c_type := None; c_visible := None;
     c_locked := None; c_opacity := None; c_blendMode := None; c_x := Some x;
     c_y := Some y; c_width := Some w; c_height := Some h; c_rotation := None;
     c_warpPoints := None; c_imageElement := None; c_text := None;
     c_color := None; c_fontSize := None; c_fontFamily := None;
     c_fontWeight := None; c_fontStyle := None; c_textAlign := None;
     c_textStrokeColor := None; c_textStrokeWidth := None; c_filters := None;
     c_effects := None |}.

(** The layer that [state.layers.find(l => l.id === state.activeLayerId)]
    yields behind a test [state.activeLayerId &&]. *)
Definition activeLayer (state : EditorState) : option Layer :=
  activeId ← activeLayerId state ≫= or_null; find_layer activeId (layers state).

(** The corner of a warp quad that a drag moves. *)
Definition moveCorner (handle : Handle) (coords : Point) (wp : WarpPoints) : WarpPoints :=
  {| tl := if decide (handle = H_tl) then coords else tl wp;
     tr := if decide (handle = H_tr) then coords else tr wp;
     bl := if decide (handle = H_bl) then coords else bl wp;
     br := if decide (handle = H_br) then coords else br wp |}.

Section Pointer.

Context {bitmap : Type}.
Variable blank : number → number → bitmap.
Variable drawImage : bitmap → bitmap → bitmap.
Variable measureText : FontStyle → FontWeight → number → string → string → number.
(** [Math.atan2]. *)
Variable Math_atan2 : number → number → number.

(** [handleMouseDown].  The calls [beginPath] and [moveTo] of its brush
    branch start a path on the context of the layer and paint nothing; the
    path is part of what a later stroke paints. *)
Definition handleMouseDown (now : Z) (rect : DOMRect) (g : Gesture)
    (σ : Heap bitmap) (state : EditorState) (e : MouseEvent)
  : Gesture * Heap bitmap * list EditorAction :=
  let coords := getCanvasCoordinates rect state e in
  let g := set_positions coords g in
  if bool_decide (button e = 1) || (bool_decide (button e = 0) && shiftKey e) then
    (start_drag H_pan None g, σ, [])
  else if bool_decide (tool state = T_crop) then
    (set_cropRect (Some {| rect_x := px coords; rect_y := py coords;
                           rect_width := 0; rect_height := 0 |})
       (set_isDragging g), σ, [])
  else
    let warpHit :=
      if bool_decide (tool state = T_warp) then
        layer ← activeLayer state;
        wp ← warpPoints layer;
        handle ← getWarpHandleAtPosition state (px coords) (py coords) wp;
        Some (handle, layer)
      else None in
    match warpHit with
    | Some (handle, layer) => (start_drag handle (Some layer) g, σ, [])
    | None =>
        if bool_decide (tool state = T_lasso_select) then
          (set_currentSelectionPath [coords] (set_isDrawing g), σ,
           [SET_SELECTION_PATH None])
        else
          let moveHit :=
            if bool_decide (tool state = T_move) then
              layer ← activeLayer state;
              handle ← getHandleAtPosition state (px coords) (py coords) layer;
              Some (handle, layer)
            else None in
          match moveHit with
          | Some (handle, layer) => (start_drag handle (Some layer) g, σ, [])
          | None =>
              let '(g, σ, drawn) :=
                if bool_decide (tool state = T_brush ∨ tool state = T_eraser) then
                  let target := activeLayerId state ≫= λ id, find_layer id (layers state) in
                  let text_or_none :=
                    match target with
                    | Some l => bool_decide (layer_type l = L_text)
                    | None => true
                    end in
                  if text_or_none && bool_decide (tool state = T_brush) then
                    let '(newCanvas, σ) :=
                      createOffscreenLayer blank (width (canvasSize state))
                        (height (canvasSize state)) σ in
                    (set_isDrawing g, σ,
                     [ADD_LAYER
                        {| layer_id := Date_now_toString now;
                           layer_name := "Drawing " +:+ pretty (length (layers state) + 1);
                           layer_type := L_drawing; visible := true; locked := false;
                           opacity := 1; blendMode := BM_source_over;
                           layer_x := 0; layer_y := 0;
                           layer_width := width (canvasSize state);
                           layer_height := height (canvasSize state);
                           rotation := 0; warpPoints := None;
                           imageElement := Some (HTMLCanvasElement newCanvas);
                           text := None; color := None; fontSize := None;
                           fontFamily := None; fontWeight := None; fontStyle := None;
                           textAlign := None; textStrokeColor := None;
                           textStrokeWidth := None;
                           filters := DEFAULT_FILTERS; effects := DEFAULT_EFFECTS |}])
                  else (set_isDrawing g, σ, [])
                else (g, σ, []) in
              let typed :=
                if bool_decide (tool state = T_text) then
                  let size :=
                    measureTextLayer measureText "New Text" 32 "sans-serif" None None None in
                  [ADD_LAYER
                     {| layer_id := Date_now_toString now;
                        layer_name := "Text " +:+ pretty (length (layers state) + 1);
                        layer_type := L_text; visible := true; locked := false;
                        opacity := 1; blendMode := BM_source_over;
                        layer_x := px coords; layer_y := py coords;
                        layer_width := width size; layer_height := height size;
                        rotation := 0; warpPoints := None; imageElement := None;
                        text := Some "New Text"; color := Some (brushColor state);
                        fontSize := Some 32%R; fontFamily := Some "sans-serif";
                        fontWeight := Some FW_normal; fontStyle := Some FS_normal;
                        textAlign := Some TA_left; textStrokeColor := Some "#000000";
                        textStrokeWidth := Some 0%R;
                        filters := DEFAULT_FILTERS; effects := DEFAULT_EFFECTS |}]
                else [] in
              (g, σ, drawn ++ typed)
          end
    end.

(** The prop [onUpdateLayer] of the component is [handleUpdateLayer]. *)
Definition onUpdateLayer : EditorState → string → LayerChanges → list EditorAction :=
  handleUpdateLayer measureText.

(** [handleMouseMove].  [stroke] is the paint of the brush branch, as in
    [brushMove].  The quotient of the two distances of a resize is the
    quotient of real numbers: what is proved of it assumes a drag that did
    not start at the centre of the layer. *)
Definition handleMouseMove (stroke : bitmap → bitmap) (rect : DOMRect) (g : Gesture)
    (σ : Heap bitmap) (state : EditorState) (e : MouseEvent)
  : Gesture * Heap bitmap * list EditorAction :=
  let coords := getCanvasCoordinates rect state e in
  if isDragging g && bool_decide (activeHandle g = Some H_pan) then
    (g, σ, [SET_PAN {| px := (px (pan state) + movementX e)%R;
                       py := (py (pan state) + movementY e)%R |}])
  else if isDragging g && bool_decide (tool state = T_crop)
          && bool_decide (is_Some (cropRect g)) then
    (set_cropRect
       ((λ r, {| rect_x := rect_x r; rect_y := rect_y r;
                 rect_width := (px coords - px (startPos g))%R;
                 rect_height := (py coords - py (startPos g))%R |}) <$> cropRect g) g,
     σ, [])
  else
  if isDragging g && bool_decide (tool state = T_warp)
     && bool_decide (is_Some (activeLayerId state ≫= or_null))
     && bool_decide (is_Some (activeHandle g)) then
    (g, σ,
     match activeLayer state, activeHandle g with
     | Some layer, Some handle =>
         match warpPoints layer with
         | Some wp =>
             onUpdateLayer state (layer_id layer)
               (changes_warpPoints (moveCorner handle coords wp))
         | None => []
         end
     | _, _ => []
     end)
  else if isDrawing g && bool_decide (tool state = T_lasso_select) then
    (set_currentSelectionPath (currentSelectionPath g ++ [coords]) g, σ, [])
  else
    let moved : option (list EditorAction) :=
      if isDragging g && bool_decide (tool state = T_move)
         && bool_decide (is_Some (activeLayerId state ≫= or_null))
         && bool_decide (is_Some (initialLayerState g)) then
        match activeLayer state with
        | None => None
        | Some layer =>
            Some
              match activeHandle g, initialLayerState g with
              | Some H_body, _ =>
                  let dx := (px coords - px (lastMousePos g))%R in
                  let dy := (py coords - py (lastMousePos g))%R in
                  onUpdateLayer state (layer_id layer)
                    (changes_position (layer_x layer + dx) (layer_y layer + dy))
              | Some H_rot, _ =>
                  let cx := (layer_x layer + layer_width layer / 2)%R in
                  let cy := (layer_y layer + layer_height layer / 2)%R in
                  let angleRad := Math_atan2 (py coords - cy)%R (px coords - cx)%R in
                  let angleDeg := (angleRad * 180 / PI)%R in
                  onUpdateLayer state (layer_id layer) (changes_rotation (angleDeg + 90))
              | Some _, Some initial =>
                  let cx := (layer_x layer + layer_width layer / 2)%R in
                  let cy := (layer_y layer + layer_height layer / 2)%R in
                  let initialDist := hypot (px (startPos g) - cx) (py (startPos g) - cy) in
                  let currentDist := hypot (px coords - cx) (py coords - cy) in
                  let scale := (currentDist / initialDist)%R in
                  if decide (layer_width initial ≠ 0%R ∧ layer_height initial ≠ 0%R) then
                    let newWidth := (layer_width initial * scale)%R in
                    let newHeight := (layer_height initial * scale)%R in
                    onUpdateLayer state (layer_id layer)
                      (changes_box newWidth newHeight
                         (cx - newWidth / 2) (cy - newHeight / 2))
                  else []
              | _, _ => []
              end
        end
      else Some [] in
    match moved with
    | None => (g, σ, [])
    | Some moved =>
        let painted := brushMove stroke (isDrawing g) σ state in
        (set_lastMousePos coords g, painted.1, moved ++ painted.2)
    end.

(** [handleMouseUp]. *)
Definition handleMouseUp (g : Gesture) (state : EditorState) : Gesture * list EditorAction :=
  let active := bool_decide (is_Some (activeLayerId state ≫= or_null)) in
  let handle := bool_decide (is_Some (activeHandle g)) in
  let moved :=
    if isDragging g && bool_decide (tool state = T_move) && active && handle
    then [PUSH_HISTORY] else [] in
  let warped :=
    if isDragging g && bool_decide (tool state = T_warp) && active && handle
    then [PUSH_HISTORY] else [] in
  let selected :=
    if isDrawing g && bool_decide (tool state = T_lasso_select)
    then [SET_SELECTION_PATH (Some (currentSelectionPath g))] else [] in
  ({| isDragging := false; isDrawing := false; activeHandle := None;
      startPos := startPos g; lastMousePos := lastMousePos g;
      initialLayerState := None; cropRect := cropRect g;
      currentSelectionPath :=
        if isDrawing g && bool_decide (tool state = T_lasso_select)
        then [] else currentSelectionPath g |},
   moved ++ warped ++ brushUp (isDrawing g) state ++ selected).

(** One pointer move of a gesture: the handler runs on the state that the
    event before it left, and the actions it dispatches are reduced, at the
    clock value [te.1], before the next event. *)
Definition onMouseMove (stroke : bitmap → bitmap) (rect : DOMRect)
    (w : Gesture * (Heap bitmap * EditorState)) (te : Z * MouseEvent)
  : Gesture * (Heap bitmap * EditorState) :=
  let '(g, σ, acts) := handleMouseMove stroke rect w.1 w.2.1 w.2.2 te.2 in
  (g, run blank drawImage (σ, w.2.2) ((λ a, (te.1, a)) <$> acts)).

End Pointer.


(** The key handler of the crop tool. *)
Definition cropKeyDown (g : Gesture) (state : EditorState) (key : string)
  : Gesture * list EditorAction :=
  match cropRect g with
  | Some cropRect =>
      if bool_decide (tool state = T_crop) && bool_decide (key = "Enter") then
        let normalizedRect :=
          {| rect_x := if decide (rect_width cropRect < 0)%R
                       then (rect_x cropRect + rect_width cropRect)%R else rect_x cropRect;
             rect_y := if decide (rect_height cropRect < 0)%R
                       then (rect_y cropRect + rect_height cropRect)%R else rect_y cropRect;
             rect_width := Rabs (rect_width cropRect);
             rect_height := Rabs (rect_height cropRect) |} in
        if decide (rect_width normalizedRect > 0 ∧ rect_height normalizedRect > 0)%R
        then (set_cropRect None g, [CROP_CANVAS normalizedRect])
        else (g, [])
      else (g, [])
  | None => (g, [])
  end.

(** ** App.tsx: the zoom buttons and the handlers that add a layer *)



Section Adding.

Context {bitmap : Type}.
Variable blank : number → number → bitmap.
Variable drawImage : bitmap → bitmap → bitmap.

(** [handleAddLayer]. *)
Definition handleAddLayer (now : Z) (σ : Heap bitmap) (state : EditorState)
  : Heap bitmap * list EditorAction :=
  let '(canvas, σ) :=
    createOffscreenLayer blank (width (canvasSize state)) (height (canvasSize state)) σ in
  (σ,
   [ADD_LAYER
      {| layer_id := Date_now_toString now;
         layer_name := "Layer " +:+ pretty (length (layers state) + 1);
         layer_type := L_drawing; visible := true; locked := false;
         opacity := 1; blendMode := BM_source_over;
         layer_x := 0; layer_y := 0;
         layer_width := width (canvasSize state);
         layer_height := height (canvasSize state);
         rotation := 0; warpPoints := None;
         imageElement := Some (HTMLCanvasElement canvas);
         text := None; color := None; fontSize := None;
         fontFamily := None; fontWeight := None; fontStyle := None;
         textAlign := None; textStrokeColor := None; textStrokeWidth := None;
         filters := DEFAULT_FILTERS; effects := DEFAULT_EFFECTS |}]).

(** The [onload] callback of [handleFileUpload], for an image of [img_w] by
    [img_h] pixels that holds [img], named [name], in a window of
    [innerWidth] by [innerHeight]. *)
Definition handleFileUpload (now : Z) (innerWidth innerHeight : number)
    (img_w img_h : number) (img : bitmap) (name : string)
    (σ : Heap bitmap) (state : EditorState) : Heap bitmap * list EditorAction :=
  let '(canvas, σ) := createOffscreenLayer blank img_w img_h σ in
  let σ := paint (λ d, drawImage d img) canvas σ in
  let resize :=
    if decide (length (layers state) = 0) then
      let availableW := (innerWidth - 350)%R in
      let availableH := (innerHeight - 80)%R in
      let zoomW := (availableW / img_w)%R in
      let zoomH := (availableH / img_h)%R in
      let newZoom := (Rmin zoomW zoomH * 0.9)%R in
      [SET_CANVAS_SIZE {| width := img_w; height := img_h |};
       SET_ZOOM (Rmax 0.1 newZoom)]
    else [] in
  (σ,
   resize ++
   [ADD_LAYER
      {| layer_id := Date_now_toString now;
         layer_name := name;
         layer_type := L_image; visible := true; locked := false;
         opacity := 1; blendMode := BM_source_over;
         layer_x := 0; layer_y := 0;
         layer_width := img_w; layer_height := img_h;
         rotation := 0; warpPoints := None;
         imageElement := Some (HTMLCanvasElement canvas);
         text := None; color := None; fontSize := None;
         fontFamily := None; fontWeight := None; fontStyle := None;
         textAlign := None; textStrokeColor := None; textStrokeWidth := None;
         filters := DEFAULT_FILTERS; effects := DEFAULT_EFFECTS |}]).

End Adding.

(** ** More concrete inputs *)

(** A text metric for which every character is half as wide as the font
    is high. *)
Definition toy_measureText (style : FontStyle) (weight : FontWeight) (fontSize : number)
    (fontFamily line : string) : number :=
  (fontSize * INR (String.length line) / 2)%R.

(** A text layer as the text tool adds it, and the state in which it is the
    only layer. *)
Definition sample_text_layer (id : string) : Layer :=
  {| layer_id := id; layer_name := "Text 1"; layer_type := L_text;
     visible := true; locked := false; opacity := 1;
     blendMode := BM_source_over;
     layer_x := 40; layer_y := 30; layer_width := 148; layer_height := 49;
     rotation := 0; warpPoints := None; imageElement := None;
     text := Some "New Text"; color := Some "#ef4444"; fontSize := Some 32%R;
     fontFamily := Some "sans-serif"; fontWeight := Some FW_normal;
     fontStyle := Some FS_normal; textAlign := Some TA_left;
     textStrokeColor := Some "#000000"; textStrokeWidth := Some 0%R;
     filters := DEFAULT_FILTERS; effects := DEFAULT_EFFECTS |}.

Definition text_state : EditorState :=
  {| layers := [sample_text_layer "3"]; activeLayerId := Some "3"; tool := T_move;
     canvasSize := {| width := 800; height := 600 |};
     zoom := 1; pan := {| px := 0; py := 0 |};
     brushSize := 10; brushColor := "#ef4444"; brushHardness := 100;
     selectionPath := None; history := [[]; [sample_text_layer "3"]]; historyIndex := 1 |}.

(** [{ text: t }]. *)
Definition changes_text (t : string) : LayerChanges :=
  {| c_id := None; c_name := None; c_type := None; c_visible := None;
     c_locked := None; c_opacity := None; c_blendMode := None; c_x := None;
     c_y := None; c_width := None; c_height := None; c_rotation := None;
     c_warpPoints := None; c_imageElement := None; c_text := Some (Some t);
     c_color := None; c_fontSize := None; c_fontFamily := None;
     c_fontWeight := None; c_fontStyle := None; c_textAlign := None;
     c_textStrokeColor := None; c_textStrokeWidth := None; c_filters := None;
     c_effects := None |}.

(** The arc tangent of [y / x] in the quadrant of [(x, y)]. *)
Definition atan2 (y x : number) : number :=
  if decide (0 < x)%R then atan (y / x)
  else if decide (x < 0)%R
       then (if decide (0 <= y)%R then atan (y / x) + PI else atan (y / x) - PI)%R
       else if decide (0 < y)%R then (PI / 2)%R
            else if decide (y < 0)%R then (- PI / 2)%R else 0%R.

(** The box of the canvas element in the window, and a pointer event of
    the primary button at a position of the window. *)
Definition sample_rect : DOMRect :=
  {| dom_left := 50; dom_top := 40; dom_width := 1000; dom_height := 700 |}.

Definition pointer_at (x y : number) : MouseEvent :=
  {| clientX := x; clientY := y; movementX := 0; movementY := 0;
     button := 0; shiftKey := false |}.

(** The store in which [turned_layer] has its canvas. *)
Definition sample_heap : Heap (list Z) :=
  [{| canvas_width := 100; canvas_height := 50; canvas_bitmap := [] |}].

(** The layer [turned_layer 0] with the warp quad of its box, and the
    state in which it is the active layer of the warp tool. *)
Definition box_quad : WarpPoints :=
  {| tl := {| px := 10; py := 20 |}; tr := {| px := 110; py := 20 |};
     bl := {| px := 10; py := 70 |}; br := {| px := 110; py := 70 |} |}.

Definition warped_layer : Layer :=
  merge_layer (turned_layer 0) (changes_warpPoints box_quad).

Definition warp_state : EditorState :=
  set_tool T_warp (set_layers [warped_layer] (turned_state 0)).

(** A drag under way: the handle that was pressed, the position of the
    press and the layer as it was then. *)
Definition dragging (h : Handle) (start : Point) (l : Layer) : Gesture :=
  {| isDragging := true; isDrawing := false; activeHandle := Some h;
     startPos := start; lastMousePos := start; initialLayerState := Some l;
     cropRect := None; currentSelectionPath := [] |}.

(** ** The history stack: proofs *)

Section History.

Context {bitmap : Type}.
Variable blank : number → number → bitmap.
Variable drawImage : bitmap → bitmap → bitmap.

Local Abbreviation Heap := (list (@Canvas bitmap)).
Local Abbreviation reducer := (reducer blank drawImage).
Local Abbreviation nextState := (nextState blank drawImage).
Local Abbreviation dispatch := (dispatch blank drawImage).
Local Abbreviation run := (run blank drawImage).
Local Abbreviation all_commit := (all_commit blank drawImage).

Lemma run_cons c a acts : run c (a :: acts) = run (dispatch c a) acts.
Proof. reflexivity. Qed.

Lemma all_commit_cons c a acts :
  all_commit c (a :: acts) = commits c.2 a.2 && all_commit (dispatch c a) acts.
Proof. reflexivity. Qed.

(** A committing action is [pushHistory] applied to its next state. *)
Lemma commits_pushHistory now σ s a :
  commits s a = true →
  ∃ σ' ns, nextState now σ s a = Some (σ', ns) ∧
           reducer now σ s a = (σ', pushHistory s ns).
Proof.
  intros Hc. destruct a; simpl in Hc; try discriminate;
    try (unfold reducer;
         destruct (nextState _ _ _ _) as [[σ' ns]|] eqn:E;
         [ by eauto | simpl in E; repeat case_match; discriminate ]).
Qed.

(** The shape of the stack after [pushHistory]. *)
Lemma pushHistory_history s ns :
  history (pushHistory s ns) =
    let pruned := take (historyIndex s + 1) (history s) ++ [layers ns] in
    if decide (20 < length pruned) then drop 1 pruned else pruned.
Proof. reflexivity. Qed.

Lemma pushHistory_index s ns :
  historyIndex (pushHistory s ns) = length (history (pushHistory s ns)) - 1.
Proof. reflexivity. Qed.

Lemma pushHistory_layers s ns : layers (pushHistory s ns) = layers ns.
Proof. reflexivity. Qed.

Lemma pushHistory_length s ns :
  historyIndex s < length (history s) → length (history s) ≤ 20 →
  length (history (pushHistory s ns)) = Nat.min (historyIndex s + 2) 20.
Proof.
  intros Hi Hl. rewrite pushHistory_history. cbv zeta.
  case_decide as Hd; rewrite ?length_drop, length_app, length_take in *; simpl in *; lia.
Qed.

Lemma pushHistory_last s ns :
  historyIndex s < length (history s) → length (history s) ≤ 20 →
  history (pushHistory s ns) !! historyIndex (pushHistory s ns) = Some (layers ns).
Proof.
  intros Hi Hl. rewrite pushHistory_index, pushHistory_history. cbv zeta.
  assert (length (take (historyIndex s + 1) (history s)) = historyIndex s + 1) as Ht
    by (rewrite length_take; lia).
  case_decide as Hd; rewrite ?length_drop, ?lookup_drop, length_app, Ht in *; simpl in *.
  - rewrite lookup_app_r by lia. rewrite Ht.
    by match goal with |- _ !! ?i = _ => replace i with 0 by lia end.
  - rewrite lookup_app_r by lia. rewrite Ht.
    by match goal with |- _ !! ?i = _ => replace i with 0 by lia end.
Qed.

Lemma pushHistory_wf s ns : history_wf s → history_wf (pushHistory s ns).
Proof.
  intros (Hi & Hl & _). unfold history_wf.
  rewrite pushHistory_last, pushHistory_index, pushHistory_layers by done.
  rewrite pushHistory_length by done. repeat split; lia.
Qed.

(** An entry [m] steps below the cursor is still [m + 1] steps below it after a
    commit, as long as [m + 1 ≤ 19]. *)
Lemma pushHistory_keeps s ns m base :
  history_wf s → m ≤ historyIndex s →
  history s !! (historyIndex s - m) = Some base →
  m + 1 ≤ 19 →
  m + 1 ≤ historyIndex (pushHistory s ns) ∧
  history (pushHistory s ns) !! (historyIndex (pushHistory s ns) - (m + 1)) = Some base.
Proof.
  intros (Hi & Hl & _) Hm Hb Hn.
  rewrite pushHistory_index, pushHistory_length by done.
  rewrite pushHistory_history. cbv zeta.
  assert (length (take (historyIndex s + 1) (history s)) = historyIndex s + 1) as Ht
    by (rewrite length_take; lia).
  case_decide as Hd; rewrite length_app, Ht in Hd; simpl in Hd.
  - split; [lia|]. rewrite lookup_drop, lookup_app_l by (rewrite Ht; lia).
    rewrite lookup_take_lt by lia. rewrite <- Hb. f_equal. lia.
  - split; [lia|]. rewrite lookup_app_l by (rewrite Ht; lia).
    rewrite lookup_take_lt by lia. rewrite <- Hb. f_equal. lia.
Qed.

Lemma reducer_wf now σ s a : history_wf s → history_wf (reducer now σ s a).2.
Proof.
  intros Hwf. destruct (commits s a) eqn:Hc.
  - destruct (commits_pushHistory now σ s a Hc) as (σ' & ns & _ & ->).
    by apply pushHistory_wf.
  - destruct Hwf as (Hi & Hl & Hcur).
    destruct a; simpl in Hc; try discriminate; try done.
    + (* REORDER_LAYER on an unknown id *)
      apply bool_decide_eq_false in Hc. unfold reducer. simpl.
      destruct (findIndex_layer _ _) eqn:E; [exfalso; eauto|]. done.
    + (* UNDO *)
      unfold reducer. case_decide; [|done]. unfold history_wf. simpl.
      destruct (history s !! (historyIndex s - 1)) eqn:E; simpl.
      * split_and!; [lia|done|done].
      * apply lookup_ge_None in E. lia.
    + (* REDO *)
      unfold reducer. case_decide; [|done]. unfold history_wf. simpl.
      destruct (history s !! (historyIndex s + 1)) eqn:E; simpl.
      * split_and!; [lia|done|done].
      * apply lookup_ge_None in E. lia.
Qed.

Lemma run_wf c acts : history_wf c.2 → history_wf (run c acts).2.
Proof.
  revert c. induction acts as [|a acts IH]; intros c Hwf; [done|].
  rewrite run_cons. apply IH. by apply reducer_wf.
Qed.

Lemma initialState_wf : history_wf initialState.
Proof. unfold history_wf. simpl. repeat split; lia. Qed.

(** Every state reached from the initial one satisfies the invariant. *)
Lemma reachable_wf σ acts : history_wf (run (σ, initialState) acts).2.
Proof. apply run_wf, initialState_wf. Qed.

(** [N] commits leave the entry that was current before them [N] steps
    below the cursor. *)
Lemma commits_keep acts : ∀ c m base,
  history_wf c.2 → m ≤ historyIndex c.2 →
  history c.2 !! (historyIndex c.2 - m) = Some base →
  all_commit c acts = true →
  m + length acts ≤ 19 →
  m + length acts ≤ historyIndex (run c acts).2 ∧
  history (run c acts).2 !! (historyIndex (run c acts).2 - (m + length acts)) = Some base.
Proof.
  induction acts as [|a acts IH]; intros c m base Hwf Hm Hb Hall Hn.
  - simpl. rewrite Nat.add_0_r. done.
  - rewrite all_commit_cons in Hall.
    apply andb_true_iff in Hall as [Hc Hall].
    destruct (commits_pushHistory a.1 c.1 c.2 a.2 Hc) as (σ' & ns & _ & Hred).
    destruct (pushHistory_keeps c.2 ns m base Hwf Hm Hb ltac:(simpl in Hn; lia))
      as [Hm' Hb'].
    rewrite run_cons.
    assert (dispatch c a = (σ', pushHistory c.2 ns)) as Hd by exact Hred.
    rewrite Hd in *.
    replace (m + length (a :: acts)) with (m + 1 + length acts) by (simpl; lia).
    apply IH; [by apply pushHistory_wf|done|done|done|simpl in Hn; lia].
Qed.

Lemma undo_step now σ s :
  history_wf s → 0 < historyIndex s →
  (reducer now σ s UNDO).1 = σ ∧
  history (reducer now σ s UNDO).2 = history s ∧
  historyIndex (reducer now σ s UNDO).2 = historyIndex s - 1.
Proof. intros _ Hi. unfold reducer. by case_decide; [|lia]. Qed.

Lemma redo_step now σ s :
  history_wf s → historyIndex s + 1 < length (history s) →
  (reducer now σ s REDO).1 = σ ∧
  history (reducer now σ s REDO).2 = history s ∧
  historyIndex (reducer now σ s REDO).2 = historyIndex s + 1.
Proof. intros _ Hi. unfold reducer. by case_decide; [|lia]. Qed.

(** [n] undos move the cursor down by [n] and install the entry there. *)
Lemma undos_spec clocks : ∀ c,
  history_wf c.2 → length clocks ≤ historyIndex c.2 →
  (run c (undos clocks)).1 = c.1 ∧
  history (run c (undos clocks)).2 = history c.2 ∧
  historyIndex (run c (undos clocks)).2 = historyIndex c.2 - length clocks ∧
  history c.2 !! (historyIndex c.2 - length clocks) =
    Some (layers (run c (undos clocks)).2).
Proof.
  induction clocks as [|t clocks IH]; intros c Hwf Hn.
  - simpl in *. rewrite Nat.sub_0_r. by destruct Hwf as (_ & _ & ->).
  - change (undos (t :: clocks)) with ((t, UNDO) :: undos clocks).
    rewrite run_cons. simpl in Hn.
    destruct (undo_step t c.1 c.2 Hwf ltac:(lia)) as (E1 & E2 & E3).
    pose proof (reducer_wf t c.1 c.2 UNDO Hwf) as Hwf'.
    change (reducer t c.1 c.2 UNDO) with (dispatch c (t, UNDO)) in *.
    destruct (IH (dispatch c (t, UNDO)) Hwf' ltac:(lia)) as (H1 & H2 & H3 & H4).
    rewrite H1, H2, H3, <- H4, E1, E2, E3. simpl.
    split_and!; [done|done|lia|f_equal; lia].
Qed.

(** [n] redos move the cursor up by [n] and install the entry there. *)
Lemma redos_spec clocks : ∀ c,
  history_wf c.2 → historyIndex c.2 + length clocks < length (history c.2) →
  (run c (redos clocks)).1 = c.1 ∧
  history (run c (redos clocks)).2 = history c.2 ∧
  historyIndex (run c (redos clocks)).2 = historyIndex c.2 + length clocks ∧
  history c.2 !! (historyIndex c.2 + length clocks) =
    Some (layers (run c (redos clocks)).2).
Proof.
  induction clocks as [|t clocks IH]; intros c Hwf Hn.
  - simpl in *. rewrite Nat.add_0_r. by destruct Hwf as (_ & _ & ->).
  - change (redos (t :: clocks)) with ((t, REDO) :: redos clocks).
    rewrite run_cons. simpl in Hn.
    destruct (redo_step t c.1 c.2 Hwf ltac:(lia)) as (E1 & E2 & E3).
    pose proof (reducer_wf t c.1 c.2 REDO Hwf) as Hwf'.
    change (reducer t c.1 c.2 REDO) with (dispatch c (t, REDO)) in *.
    destruct (IH (dispatch c (t, REDO)) Hwf' ltac:(rewrite E2, E3; lia))
      as (H1 & H2 & H3 & H4).
    rewrite H1, H2, H3, <- H4, E1, E2, E3. simpl.
    split_and!; [done|done|lia|f_equal; lia].
Qed.

(** C1. From a state that satisfies the history invariant (every state the
    reducer reaches does), after [N ≤ 19] committing actions, [N] undos
    install exactly the layer sequence from before the first commit, and [N]
    redos after them install exactly the layer sequence that was current
    after the [N]-th commit. *)
Theorem C1_undo_redo_roundtrip (σ0 : Heap) (s0 : EditorState)
  (acts : list (Z * EditorAction)) (uclocks rclocks : list Z) :
  history_wf s0 →
  all_commit (σ0, s0) acts = true →
  length acts ≤ 19 →
  length uclocks = length acts →
  length rclocks = length acts →
  let c1 := run (σ0, s0) acts in
  let c2 := run c1 (undos uclocks) in
  let c3 := run c2 (redos rclocks) in
  layers c2.2 = layers s0 ∧ layers c3.2 = layers c1.2.
Proof.
  intros Hwf Hall HN Hu Hr c1 c2 c3.
  assert (history_wf c1.2) as Hwf1 by (by apply run_wf).
  destruct (commits_keep acts (σ0, s0) 0 (layers s0) Hwf ltac:(lia)) as [Hle Hbase];
    [simpl; rewrite Nat.sub_0_r; by destruct Hwf as (_ & _ & ?)|done|simpl; lia|].
  fold c1 in Hle, Hbase. simpl in Hle, Hbase.
  destruct (undos_spec uclocks c1 Hwf1 ltac:(lia)) as (U1 & U2 & U3 & U4).
  fold c2 in U1, U2, U3, U4. rewrite Hu in U3, U4.
  assert (history_wf c2.2) as Hwf2 by (by apply run_wf).
  destruct Hwf1 as (Hi1 & Hl1 & Hcur1).
  destruct (redos_spec rclocks c2 Hwf2 ltac:(rewrite U2, U3; lia)) as (R1 & R2 & R3 & R4).
  fold c3 in R1, R2, R3, R4. rewrite U2, U3, Hr in R4.
  split.
  - rewrite Hbase in U4. by injection U4.
  - replace (historyIndex c1.2 - length acts + length acts) with (historyIndex c1.2) in R4 by lia.
    rewrite Hcur1 in R4. by injection R4.
Qed.

(** After a run of commits from a state whose cursor is on top, the cursor
    is on top again, and the stack has grown by one entry per commit up to
    the cap. *)
Lemma commits_cursor acts : ∀ c,
  history_wf c.2 → length (history c.2) = historyIndex c.2 + 1 →
  all_commit c acts = true →
  historyIndex (run c acts).2 = Nat.min (historyIndex c.2 + length acts) 19 ∧
  length (history (run c acts).2) = historyIndex (run c acts).2 + 1.
Proof.
  induction acts as [|a acts IH]; intros c Hwf Htop Hall.
  - simpl. destruct Hwf as (? & ? & _). split; [lia|done].
  - rewrite all_commit_cons in Hall.
    apply andb_true_iff in Hall as [Hc Hall].
    destruct (commits_pushHistory a.1 c.1 c.2 a.2 Hc) as (σ' & ns & _ & Hred).
    rewrite run_cons.
    assert (dispatch c a = (σ', pushHistory c.2 ns)) as Hd by exact Hred.
    rewrite Hd in *.
    pose proof (pushHistory_wf c.2 ns Hwf) as Hwf'.
    destruct Hwf as (Hi & Hl & _).
    pose proof (pushHistory_length c.2 ns Hi Hl) as Hlen.
    pose proof (pushHistory_index c.2 ns) as Hidx.
    destruct (IH (σ', pushHistory c.2 ns) Hwf') as [I1 I2];
      [cbn [snd]; rewrite Hidx, Hlen; lia|done|].
    cbn [snd] in I1. rewrite I2, I1, Hidx, Hlen. cbn [length]. split; lia.
Qed.

(** What one commit does to the stack. *)
Lemma commit_step (now : Z) (σ : Heap) (s : EditorState) (a : EditorAction) :
  history_wf s → commits s a = true →
  let s' := (reducer now σ s a).2 in
  let pruned := take (historyIndex s + 1) (history s) in
  historyIndex s' = length (history s') - 1 ∧
  history s' !! historyIndex s' = Some (layers s') ∧
  length (history s') ≤ 20 ∧
  history s' =
    (if decide (length pruned = 20) then drop 1 pruned else pruned) ++ [layers s'].
Proof.
  intros Hwf Hc s' pruned.
  destruct (commits_pushHistory now σ s a Hc) as (σ' & ns & _ & Hred).
  subst s'. rewrite Hred. simpl.
  destruct (pushHistory_wf s ns Hwf) as (_ & Hl' & Hcur').
  split_and!; [done|done|done|].
  destruct Hwf as (Hi & Hl & _).
  fold pruned.
  assert (length pruned = historyIndex s + 1) as Hp
    by (subst pruned; rewrite length_take; lia).
  rewrite length_app, Hp. simpl.
  destruct pruned as [|e pruned']; [simpl in Hp; lia|].
  repeat case_decide; try lia; done.
Qed.

(** C4. In every state reached from the initial one the stack holds at most
    20 entries and the cursor is a valid index; a commit leaves the cursor on
    the newest entry, which is the committed layer sequence, and it evicts
    the oldest entry exactly when the pruned stack is already 20 deep; in
    particular, after 20 commits from the initial state the 21st commit
    drops the oldest entry, keeps 20 entries and leaves the cursor on the
    last index. *)
Theorem C4_history_bounded :
  (∀ (σ : Heap) (acts : list (Z * EditorAction)),
     let s := (run (σ, initialState) acts).2 in
     length (history s) ≤ 20 ∧ historyIndex s < length (history s)) ∧
  (∀ (now : Z) (σ : Heap) (s : EditorState) (a : EditorAction),
     history_wf s → commits s a = true →
     let s' := (reducer now σ s a).2 in
     let pruned := take (historyIndex s + 1) (history s) in
     historyIndex s' = length (history s') - 1 ∧
     history s' !! historyIndex s' = Some (layers s') ∧
     length (history s') ≤ 20 ∧
     history s' =
       (if decide (length pruned = 20) then drop 1 pruned else pruned) ++ [layers s']) ∧
  (∀ (σ : Heap) (acts : list (Z * EditorAction)) (a : Z * EditorAction),
     all_commit (σ, initialState) (acts ++ [a]) = true →
     length acts = 20 →
     let c := run (σ, initialState) acts in
     let c' := dispatch c a in
     history c'.2 = drop 1 (history c.2) ++ [layers c'.2] ∧
     length (history c'.2) = 20 ∧
     historyIndex c'.2 = 19).
Proof.
  pose proof commit_step as Hstep.
  split_and!.
  - intros σ acts s. destruct (reachable_wf σ acts) as (? & ? & _). done.
  - exact Hstep.
  - intros σ acts a Hall Hlen c c'.
    assert (all_commit (σ, initialState) acts = true ∧ commits c.2 a.2 = true) as [Ha Hc].
    { clear -Hall. subst c. generalize dependent (σ, initialState).
      induction acts as [|b acts IH]; intros c0 Hall.
      - simpl in *. apply andb_true_iff in Hall as [-> _]. done.
      - rewrite <- app_comm_cons, all_commit_cons in Hall. rewrite all_commit_cons.
        apply andb_true_iff in Hall as [-> Hall]. rewrite run_cons.
        destruct (IH _ Hall) as [-> ->]. done. }
    destruct (commits_cursor acts (σ, initialState) initialState_wf eq_refl Ha) as [C1 C2].
    fold c in C1, C2. simpl in C1. rewrite Hlen in C1. simpl in C1.
    assert (history_wf c.2) as Hwf by apply reachable_wf.
    destruct (Hstep a.1 c.1 c.2 a.2 Hwf Hc) as (S1 & S2 & S3 & S4).
    change (reducer a.1 c.1 c.2 a.2) with c' in *.
    rewrite take_ge in S4 by lia.
    rewrite decide_True in S4 by lia.
    rewrite S4 at 1 2. rewrite S1, S4, length_app, length_drop. simpl.
    split_and!; [done|lia|lia].
Qed.

(** C5. A commit discards every entry beyond the cursor before it pushes,
    and redo right after a commit changes nothing.  From the initial state,
    commit, commit, undo, commit leaves the stack [base; first; third]: two
    committed entries above the base snapshot (cursor 2), the second commit
    being pruned rather than kept as a third. *)
Theorem C5_commit_after_undo_prunes :
  (∀ (now now' : Z) (σ : Heap) (s : EditorState) (a : EditorAction),
     history_wf s → commits s a = true →
     let c' := reducer now σ s a in
     let pruned := take (historyIndex s + 1) (history s) in
     history c'.2 =
       (if decide (length pruned = 20) then drop 1 pruned else pruned) ++ [layers c'.2] ∧
     reducer now' c'.1 c'.2 REDO = c') ∧
  (∀ (σ : Heap) (a1 a2 a3 : Z * EditorAction) (t t' : Z),
     let c1 := dispatch (σ, initialState) a1 in
     let c2 := dispatch c1 a2 in
     let c3 := dispatch c2 (t, UNDO) in
     let c4 := dispatch c3 a3 in
     commits initialState a1.2 = true →
     commits c1.2 a2.2 = true →
     commits c3.2 a3.2 = true →
     history c4.2 = [[]; layers c1.2; layers c4.2] ∧
     historyIndex c4.2 = 2 ∧
     layers c3.2 = layers c1.2 ∧
     dispatch c4 (t', REDO) = c4).
Proof.
  pose proof commit_step as Hstep.
  assert (∀ now' σ s, historyIndex s = length (history s) - 1 →
            reducer now' σ s REDO = (σ, s)) as Hredo.
  { intros now' σ s Hs. unfold reducer. case_decide; [lia|done]. }
  split.
  - intros now now' σ s a Hwf Hc c' pruned.
    destruct (Hstep now σ s a Hwf Hc) as (S1 & _ & _ & S4).
    split; [done|]. rewrite Hredo by done. by destruct c'.
  - intros σ a1 a2 a3 t t' c1 c2 c3 c4 H1 H2 H3.
    destruct (commits_pushHistory a1.1 σ initialState a1.2 H1) as (σ1 & n1 & _ & E1).
    change (reducer a1.1 σ initialState a1.2) with c1 in E1.
    destruct (commits_pushHistory a2.1 c1.1 c1.2 a2.2 H2) as (σ2 & n2 & _ & E2).
    change (reducer a2.1 c1.1 c1.2 a2.2) with c2 in E2.
    assert (c3 = (σ2, set_history (history c2.2) 1 (set_layers (layers n1) c2.2))) as E3.
    { subst c3. rewrite E2, E1. reflexivity. }
    destruct (commits_pushHistory a3.1 c3.1 c3.2 a3.2 H3) as (σ4 & n4 & _ & E4).
    change (reducer a3.1 c3.1 c3.2 a3.2) with c4 in E4.
    clearbody c1 c2 c3 c4. subst c4 c3 c2 c1. cbn.
    split_and!; done.
Qed.

End History.

(** A run of C1 on the initial state: add a layer, commit once more, undo
    twice, redo twice. *)
Lemma C1_undo_redo_roundtrip_witness :
  let acts := [(1%Z, ADD_LAYER (sample_layer "1" None)); (2%Z, PUSH_HISTORY)] in
  let c1 := run toy_blank toy_drawImage ([], initialState) acts in
  let c2 := run toy_blank toy_drawImage c1 (undos [3; 4]%Z) in
  let c3 := run toy_blank toy_drawImage c2 (redos [5; 6]%Z) in
  layers c2.2 = layers initialState ∧ layers c3.2 = layers c1.2.
Proof.
  apply (C1_undo_redo_roundtrip toy_blank toy_drawImage [] initialState
           [(1%Z, ADD_LAYER (sample_layer "1" None)); (2%Z, PUSH_HISTORY)]
           [3; 4]%Z [5; 6]%Z).
  - apply initialState_wf.
  - reflexivity.
  - simpl. lia.
  - reflexivity.
  - reflexivity.
Defined.

(** A run of C4: 21 commits from the initial state. *)
Lemma C4_history_bounded_witness :
  let acts := replicate 20 (0%Z, PUSH_HISTORY) in
  let c := run toy_blank toy_drawImage ([], initialState) acts in
  let c' := dispatch toy_blank toy_drawImage c (0%Z, PUSH_HISTORY) in
  history c'.2 = drop 1 (history c.2) ++ [layers c'.2] ∧
  length (history c'.2) = 20 ∧
  historyIndex c'.2 = 19.
Proof.
  apply (proj2 (proj2 (C4_history_bounded toy_blank toy_drawImage))
           [] (replicate 20 (0%Z, PUSH_HISTORY)) (0%Z, PUSH_HISTORY)).
  - reflexivity.
  - reflexivity.
Defined.

(** A run of C5: add a layer, commit, undo, add another layer. *)
Lemma C5_commit_after_undo_prunes_witness :
  let a1 := (1%Z, ADD_LAYER (sample_layer "1" None)) in
  let a2 := (2%Z, PUSH_HISTORY) in
  let a3 := (4%Z, ADD_LAYER (sample_layer "4" None)) in
  let c1 := dispatch toy_blank toy_drawImage ([], initialState) a1 in
  let c2 := dispatch toy_blank toy_drawImage c1 a2 in
  let c3 := dispatch toy_blank toy_drawImage c2 (3%Z, UNDO) in
  let c4 := dispatch toy_blank toy_drawImage c3 a3 in
  history c4.2 = [[]; layers c1.2; layers c4.2] ∧
  historyIndex c4.2 = 2 ∧
  layers c3.2 = layers c1.2 ∧
  dispatch toy_blank toy_drawImage c4 (5%Z, REDO) = c4.
Proof.
  apply (proj2 (C5_commit_after_undo_prunes toy_blank toy_drawImage) []
           (1%Z, ADD_LAYER (sample_layer "1" None)) (2%Z, PUSH_HISTORY)
           (4%Z, ADD_LAYER (sample_layer "4" None)) 3%Z 5%Z); reflexivity.
Defined.


(** ** The document: removing a layer and the active-layer invariant *)





Lemma find_layer_Some (id : string) (ls : list Layer) (l : Layer) :
  find_layer id ls = Some l → l ∈ ls ∧ layer_id l = id.
Proof.
  unfold find_layer. destruct (list_find _ ls) as [[i x]|] eqn:E; [|done].
  intros [= <-]. apply list_find_Some in E as (Hi & Hid & _).
  split; [by eapply list_elem_of_lookup_2|done].
Qed.

Section Document.

Context {bitmap : Type}.
Variable blank : number → number → bitmap.
Variable drawImage : bitmap → bitmap → bitmap.

Local Abbreviation Heap := (list (@Canvas bitmap)).
Local Abbreviation reducer := (reducer blank drawImage).
Local Abbreviation nextState := (nextState blank drawImage).
Local Abbreviation duplicate_layer := (duplicate_layer blank drawImage).


(** Removing a layer, where the fallback of the active id is right: the
    removed layer is not the active one, or it is the topmost layer. *)
Lemma remove_other_layer now σ s p :
  activeLayerId s ≠ Some p →
  let s' := (reducer now σ s (REMOVE_LAYER p)).2 in
  layers s' = filter (λ l, layer_id l ≠ p) (layers s) ∧
  activeLayerId s' = activeLayerId s.
Proof. intros Hne. unfold reducer. cbn. by rewrite decide_False. Qed.

Lemma remove_top_active_layer now σ s p top rest :
  layers s = top :: rest → layer_id top = p → activeLayerId s = Some p →
  (∀ l, l ∈ rest → layer_id l ≠ p) →
  let s' := (reducer now σ s (REMOVE_LAYER p)).2 in
  layers s' = rest ∧
  activeLayerId s' = (l ← head rest; or_null (layer_id l)).
Proof.
  intros Hl Hid Ha Hrest. unfold reducer. cbn. rewrite Hl, Ha, decide_True by done.
  split; [|by destruct rest].
  rewrite filter_cons_False by (intros Hn; by apply Hn).
  clear Hl. induction rest as [|l rest IH]; [done|].
  rewrite filter_cons_True by (apply Hrest, list_elem_of_here).
  f_equal. apply IH. intros l' Hl'. apply Hrest. by apply list_elem_of_further.
Qed.


End Document.

(** C2 (the code at the failing input). With two layers and the lower one
    active, removing the active layer leaves the upper layer alone in the
    sequence, yet the active id is still the id of the removed layer: the
    fallback reads index 1 of the sequence before the removal, which is the
    removed layer itself. *)
Theorem C2_remove_active_lower_layer :
  let c := two_layers_lower_active in
  let c' := reducer toy_blank toy_drawImage 4 c.1 c.2 (REMOVE_LAYER "2") in
  layer_id <$> layers c.2 = ["1"; "2"] ∧
  activeLayerId c.2 = Some "2" ∧
  layer_id <$> layers c'.2 = ["1"] ∧
  activeLayerId c'.2 = Some "2" ∧
  layer_id <$> head (layers c'.2) = Some "1" ∧
  ¬ active_valid c'.2.
Proof.
  cbv zeta. split_and!; try reflexivity.
  unfold active_valid. cbn. intros H. apply list_elem_of_singleton in H. discriminate.
Qed.



(** ** Canvases: duplication and history *)

Section Buffers.

Context {bitmap : Type}.
Variable blank : number → number → bitmap.
Variable drawImage : bitmap → bitmap → bitmap.

Local Abbreviation Heap := (list (@Canvas bitmap)).
Local Abbreviation reducer := (reducer blank drawImage).
Local Abbreviation nextState := (nextState blank drawImage).
Local Abbreviation duplicate_layer := (duplicate_layer blank drawImage).
Local Abbreviation ctx_drawImage := (ctx_drawImage drawImage).
Local Abbreviation run := (run blank drawImage).
Local Abbreviation dispatch := (dispatch blank drawImage).
Local Abbreviation all_commit := (all_commit blank drawImage).

(** Painting on one canvas leaves every other canvas as it is. *)
Lemma paint_lookup_ne (f : bitmap → bitmap) (r k : nat) (σ : Heap) :
  r ≠ k → paint f r σ !! k = σ !! k.
Proof.
  intros Hne. unfold paint. destruct (σ !! r); [|done].
  by rewrite list_lookup_insert_ne.
Qed.

Lemma paint_lookup_eq (f : bitmap → bitmap) (r : nat) (σ : Heap) (cv : Canvas) :
  σ !! r = Some cv →
  paint f r σ !! r =
    Some {| canvas_width := canvas_width cv; canvas_height := canvas_height cv;
            canvas_bitmap := f (canvas_bitmap cv) |}.
Proof.
  intros Hr. unfold paint. rewrite Hr. apply list_lookup_insert_eq.
  by eapply lookup_lt_Some.
Qed.

Lemma ctx_drawImage_lookup_ne (dst src k : nat) (σ : Heap) :
  dst ≠ k → ctx_drawImage dst src σ !! k = σ !! k.
Proof.
  intros Hne. unfold ctx_drawImage. destruct (σ !! src); [|done].
  by apply paint_lookup_ne.
Qed.



Lemma duplicate_layer_frame now σ l k cv :
  σ !! k = Some cv → (duplicate_layer now σ l).1 !! k = Some cv.
Proof.
  intros Hk. unfold duplicate_layer.
  destruct (imageElement l) as [[r|r]|] eqn:E; try done. cbn.
  assert (k < length σ) as Hlt by (by eapply lookup_lt_Some).
  rewrite ctx_drawImage_lookup_ne by lia. by rewrite lookup_app_l.
Qed.

(** No reducer step changes a canvas that exists: a commit, an undo or a
    redo in particular. *)
Lemma reducer_heap_frame now σ s a k cv :
  σ !! k = Some cv → (reducer now σ s a).1 !! k = Some cv.
Proof.
  intros Hk.
  destruct a; try done;
    try (unfold reducer; by case_decide);
    try (unfold reducer; cbn; by repeat case_match).
  - (* DUPLICATE_LAYER *)
    unfold reducer. cbn. destruct (find_layer _ _) as [l|]; [|done].
    pose proof (duplicate_layer_frame now σ l k cv Hk) as Hf.
    by destruct (duplicate_layer now σ l).
  - (* REORDER_LAYER *)
    unfold reducer. cbn. destruct (findIndex_layer _ _); [|done]. by case_decide.
Qed.

Lemma run_heap_frame acts : ∀ c k cv,
  c.1 !! k = Some cv → (run c acts).1 !! k = Some cv.
Proof.
  induction acts as [|a acts IH]; intros c k cv Hk; [done|].
  change (run c (a :: acts)) with (run (dispatch c a) acts).
  apply IH. by apply reducer_heap_frame.
Qed.

(** The active layer of a brush stroke and its canvas. *)
Lemma brushMove_paints (stroke : bitmap → bitmap) (σ : Heap) s activeId l r :
  tool s = T_brush ∨ tool s = T_eraser →
  activeLayerId s ≫= or_null = Some activeId →
  find_layer activeId (layers s) = Some l →
  layer_type l ≠ L_text →
  imageElement l = Some (HTMLCanvasElement r) →
  brushMove stroke true σ s = (paint stroke r σ, [UPDATE_LAYER (layer_id l) no_changes]).
Proof.
  intros Ht Ha Hf Hty Him. unfold brushMove.
  rewrite bool_decide_eq_true_2 by done. cbn. rewrite Ha, Hf, Him.
  by destruct (layer_type l).
Qed.


(** C10. History entries share the canvases of the layers they hold.
    A commit stores the committed layer sequence itself as the newest entry
    and changes no existing canvas; undo and redo install the stored entry
    and leave the store of canvases as it is; a stroke painted on a canvas
    is what every layer that refers to that canvas shows, in whatever entry
    it sits.  So after a brush stroke (the in-place paint, its UPDATE_LAYER
    and the PUSH_HISTORY of the pointer release), two undos restore the
    layer sequence from before the stroke, and the layer still shows the
    painted bitmap. *)
Theorem C10_history_shares_canvases :
  (∀ (now : Z) (σ : Heap) (s : EditorState) (a : EditorAction),
     history_wf s → commits s a = true →
     let c' := reducer now σ s a in
     history c'.2 !! historyIndex c'.2 = Some (layers c'.2) ∧
     (∀ k cv, σ !! k = Some cv → c'.1 !! k = Some cv)) ∧
  (∀ (now : Z) (σ : Heap) (s : EditorState),
     history_wf s → 0 < historyIndex s →
     let c' := reducer now σ s UNDO in
     c'.1 = σ ∧ history s !! (historyIndex s - 1) = Some (layers c'.2)) ∧
  (∀ (now : Z) (σ : Heap) (s : EditorState),
     history_wf s → historyIndex s + 1 < length (history s) →
     let c' := reducer now σ s REDO in
     c'.1 = σ ∧ history s !! (historyIndex s + 1) = Some (layers c'.2)) ∧
  (∀ (stroke : bitmap → bitmap) (σ : Heap) (r : nat) (cv : Canvas) (l : Layer),
     σ !! r = Some cv → imageElement l = Some (HTMLCanvasElement r) →
     layer_bitmap σ l = Some (canvas_bitmap cv) ∧
     layer_bitmap (paint stroke r σ) l = Some (stroke (canvas_bitmap cv))) ∧
  (∀ (stroke : bitmap → bitmap) (σ : Heap) (s : EditorState) (activeId : string)
     (l : Layer) (r : nat) (cv : Canvas) (t0 t1 t2 t3 : Z),
     history_wf s →
     tool s = T_brush ∨ tool s = T_eraser →
     activeLayerId s ≫= or_null = Some activeId →
     find_layer activeId (layers s) = Some l →
     layer_type l ≠ L_text →
     imageElement l = Some (HTMLCanvasElement r) →
     σ !! r = Some cv →
     let moved := brushMove stroke true σ s in
     let c1 := run (moved.1, s)
                 (((λ a, (t0, a)) <$> moved.2) ++ ((λ a, (t1, a)) <$> brushUp true s)) in
     let c2 := run c1 (undos [t2; t3]) in
     layers c2.2 = layers s ∧
     l ∈ layers c2.2 ∧
     layer_bitmap σ l = Some (canvas_bitmap cv) ∧
     layer_bitmap c2.1 l = Some (stroke (canvas_bitmap cv))).
Proof.
  assert (∀ (stroke : bitmap → bitmap) (σ : Heap) (r : nat) (cv : Canvas) (l : Layer),
     σ !! r = Some cv → imageElement l = Some (HTMLCanvasElement r) →
     layer_bitmap σ l = Some (canvas_bitmap cv) ∧
     layer_bitmap (paint stroke r σ) l = Some (stroke (canvas_bitmap cv))) as Hshow.
  { intros stroke σ r cv l Hr Him. unfold layer_bitmap. rewrite Him.
    rewrite (paint_lookup_eq stroke r σ cv Hr), Hr. done. }
  split_and!.
  - intros now σ s a Hwf Hc c'. split.
    + by destruct (reducer_wf blank drawImage now σ s a Hwf) as (_ & _ & ?).
    + intros k cv Hk. by apply reducer_heap_frame.
  - intros now σ s Hwf Hi c'. subst c'. unfold reducer.
    rewrite decide_True by done. cbn. split; [done|].
    destruct Hwf as (Hlt & _ & _).
    destruct (lookup_lt_is_Some_2 (history s) (historyIndex s - 1) ltac:(lia)) as [e ->].
    done.
  - intros now σ s Hwf Hi c'. subst c'. unfold reducer.
    rewrite decide_True by lia. cbn. split; [done|].
    destruct (lookup_lt_is_Some_2 (history s) (historyIndex s + 1) ltac:(lia)) as [e ->].
    done.
  - exact Hshow.
  - intros stroke σ s activeId l r cv t0 t1 t2 t3 Hwf Ht Ha Hf Hty Him Hr. cbv zeta.
    rewrite (brushMove_paints stroke σ s activeId l r Ht Ha Hf Hty Him).
    assert (brushUp true s = [PUSH_HISTORY]) as ->.
    { unfold brushUp. by rewrite bool_decide_eq_true_2. }
    cbn [fst snd fmap list_fmap app].
    set (acts := [(t0, UPDATE_LAYER (layer_id l) no_changes); (t1, PUSH_HISTORY)]).
    set (c1 := run (paint stroke r σ, s) acts).
    set (c2 := run c1 (undos [t2; t3])).
    assert (history_wf c1.2) as Hwf1 by (by apply run_wf).
    destruct (commits_keep blank drawImage acts (paint stroke r σ, s) 0 (layers s) Hwf
                ltac:(lia)) as [Hle Hbase];
      [cbn [snd]; rewrite Nat.sub_0_r; by destruct Hwf as (_ & _ & ?)|done|cbn; lia|].
    change (run (paint stroke r σ, s) acts) with c1 in Hle, Hbase.
    change (0 + length acts) with 2 in Hle, Hbase.
    destruct (undos_spec blank drawImage [t2; t3] c1 Hwf1 Hle) as (U1 & _ & _ & U4).
    change (run c1 (undos [t2; t3])) with c2 in U1, U4.
    change (length [t2; t3]) with 2 in U4. rewrite Hbase in U4.
    assert (layers c2.2 = layers s) as Hl by (by injection U4).
    destruct (find_layer_Some _ _ _ Hf) as [Hin _].
    destruct (Hshow stroke σ r cv l Hr Him) as [Hold Hnew].
    split_and!; [done|by rewrite Hl|done|].
    rewrite U1. unfold layer_bitmap. rewrite Him.
    assert (c1.1 !! r =
              Some {| canvas_width := canvas_width cv; canvas_height := canvas_height cv;
                      canvas_bitmap := stroke (canvas_bitmap cv) |}) as ->; [|done].
    apply run_heap_frame. cbn [fst]. by apply paint_lookup_eq.
Qed.

End Buffers.



(** An instance of C10: a stroke on the layer created at clock value 5,
    released and undone twice. *)
Lemma C10_history_shares_canvases_witness :
  let σ := brush_on_layer_5.1 in
  let s := brush_on_layer_5.2 in
  let l := sample_layer "5" (Some (HTMLCanvasElement 0)) in
  let moved := brushMove clear_bitmap true σ s in
  let c1 := run toy_blank toy_drawImage (moved.1, s)
              (((λ a, (7%Z, a)) <$> moved.2) ++ ((λ a, (8%Z, a)) <$> brushUp true s)) in
  let c2 := run toy_blank toy_drawImage c1 (undos [9; 10]%Z) in
  layers c2.2 = layers s ∧
  l ∈ layers c2.2 ∧
  layer_bitmap σ l = Some [255; 0; 0; 255]%Z ∧
  layer_bitmap c2.1 l = Some [0; 0; 0; 0]%Z.
Proof.
  cbv zeta.
  apply (proj2 (proj2 (proj2 (proj2 (C10_history_shares_canvases toy_blank toy_drawImage))))
           clear_bitmap brush_on_layer_5.1 brush_on_layer_5.2 "5"
           (sample_layer "5" (Some (HTMLCanvasElement 0))) 0
           {| canvas_width := 800; canvas_height := 600;
              canvas_bitmap := [255; 0; 0; 255]%Z |} 7%Z 8%Z 9%Z 10%Z).
  - unfold brush_on_layer_5, layer_at_5. apply run_wf, run_wf, initialState_wf.
  - left. reflexivity.
  - reflexivity.
  - reflexivity.
  - discriminate.
  - reflexivity.
  - reflexivity.
Defined.

(** ** The warp quad and the warp renderer *)

Lemma or_zero_id (n : number) : or_zero n = n.
Proof. unfold or_zero. by destruct (Req_dec_T n 0) as [->|]. Qed.

(** A rotation keeps the length of a vector. *)
Lemma rotation_keeps_norm (dx dy c s : R) :
  (s * s + c * c = 1)%R →
  ((dx * c - dy * s) * (dx * c - dy * s) + (dx * s + dy * c) * (dx * s + dy * c)
   = dx * dx + dy * dy)%R.
Proof.
  intros H.
  replace ((dx * c - dy * s) * (dx * c - dy * s) + (dx * s + dy * c) * (dx * s + dy * c))%R
    with ((dx * dx + dy * dy) * (s * s + c * c))%R by ring.
  rewrite H. ring.
Qed.

Lemma sin_cos_unit (θ : R) : (sin θ * sin θ + cos θ * cos θ = 1)%R.
Proof. pose proof (sin2_cos2 θ) as H. unfold Rsqr in H. exact H. Qed.

(** [rotatePoint] is the rotation about the centre it closes over. *)
Lemma rotatePoint_rotate_about (cx cy θ p_x p_y : R) :
  rotatePoint cx cy (cos θ) (sin θ) p_x p_y =
    rotate_about {| px := cx; py := cy |} θ {| px := p_x; py := p_y |}.
Proof. unfold rotatePoint, rotate_about, rotation_matrix. cbn. f_equal; ring. Qed.

Lemma rotatePoint_distance (cx cy θ p_x p_y : R) :
  distance (rotatePoint cx cy (cos θ) (sin θ) p_x p_y) {| px := cx; py := cy |} =
    hypot (p_x - cx) (p_y - cy).
Proof.
  unfold distance, hypot, rotatePoint. cbn. f_equal.
  rewrite <- (rotation_keeps_norm (p_x - cx) (p_y - cy) (cos θ) (sin θ) (sin_cos_unit θ)).
  ring.
Qed.

Lemma hypot_neg_l (a b : R) : hypot (- a) b = hypot a b.
Proof. unfold hypot. f_equal. ring. Qed.

Lemma hypot_neg_r (a b : R) : hypot a (- b) = hypot a b.
Proof. unfold hypot. f_equal. ring. Qed.

Lemma find_layer_map (id : string) (f : Layer → Layer) (ls : list Layer) (l : Layer) :
  (∀ l, layer_id (f l) = layer_id l) →
  find_layer id ls = Some l → find_layer id (map f ls) = Some (f l).
Proof.
  intros Hf. unfold find_layer. induction ls as [|x ls IH]; [done|].
  cbn. rewrite Hf. case_decide; cbn; [by intros [= ->]|].
  destruct (list_find _ ls) as [[i y]|] eqn:E; [|done].
  cbn in *. intros [= ->]. specialize (IH eq_refl).
  destruct (list_find _ (map f ls)) as [[j z]|]; [|done].
  cbn in *. congruence.
Qed.

Section Warp.

Context {bitmap : Type}.
Variable blank : number → number → bitmap.
Variable drawImage : bitmap → bitmap → bitmap.

(** C8 (amended). When the active layer is an image or a drawing without a
    warp quad, the warp tool dispatches an update that stores the initial
    quad and then selects the tool; after the two actions the layer carries
    that quad.  Each corner of the quad is the corresponding corner of the
    bounding box rotated about the centre of the box by the rotation of the
    layer, with the standard rotation matrix.  In real arithmetic, for a
    rotation of 0 the quad is the bounding box itself, and for every
    rotation every corner lies at distance [hypot (w / 2) (h / 2)] from the
    centre. *)
Theorem C8_initial_warp_quad (s : EditorState) (activeId : string) (l : Layer) :
  activeLayerId s ≫= or_null = Some activeId →
  find_layer activeId (layers s) = Some l →
  layer_type l ≠ L_text →
  warpPoints l = None →
  let q := initialWarp l in
  let c := box_center l in
  let θ := radians (rotation l) in
  handleWarpTool s = [UPDATE_LAYER (layer_id l) (changes_warpPoints q); SET_TOOL T_warp] ∧
  (∀ (σ : Heap bitmap) (t0 t1 : Z),
     let c' := run blank drawImage (σ, s)
                 [(t0, UPDATE_LAYER (layer_id l) (changes_warpPoints q));
                  (t1, SET_TOOL T_warp)] in
     tool c'.2 = T_warp ∧
     ∃ l', find_layer activeId (layers c'.2) = Some l' ∧
           warpPoints l' = Some q ∧
           layer_x l' = layer_x l ∧ layer_y l' = layer_y l ∧
           layer_width l' = layer_width l ∧ layer_height l' = layer_height l ∧
           rotation l' = rotation l) ∧
  tl q = rotate_about c θ (tl (box_corners l)) ∧
  tr q = rotate_about c θ (tr (box_corners l)) ∧
  bl q = rotate_about c θ (bl (box_corners l)) ∧
  br q = rotate_about c θ (br (box_corners l)) ∧
  (rotation l = 0%R → q = box_corners l) ∧
  distance (tl q) c = hypot (layer_width l / 2) (layer_height l / 2) ∧
  distance (tr q) c = hypot (layer_width l / 2) (layer_height l / 2) ∧
  distance (bl q) c = hypot (layer_width l / 2) (layer_height l / 2) ∧
  distance (br q) c = hypot (layer_width l / 2) (layer_height l / 2).
Proof.
  intros Ha Hf Hty Hwp q c θ.
  assert (∀ p_x p_y,
            rotatePoint (px c) (py c) (cos θ) (sin θ) p_x p_y =
              rotatePoint (layer_x l + layer_width l / 2) (layer_y l + layer_height l / 2)
                (cos (or_zero (rotation l) * PI / 180))
                (sin (or_zero (rotation l) * PI / 180)) p_x p_y) as Hrp.
  { intros. subst c θ. unfold radians. by rewrite or_zero_id. }
  split_and!.
  - unfold handleWarpTool. rewrite Ha, Hf, Hwp. by destruct (layer_type l).
  - intros σ t0 t1 c'. split; [done|].
    exists (merge_layer l (changes_warpPoints q)).
    split; [|done].
    pose proof (find_layer_Some _ _ _ Hf) as [_ Hid].
    assert (layers c'.2 =
              map (λ l0, if decide (layer_id l0 = layer_id l)
                         then merge_layer l0 (changes_warpPoints q) else l0)
                  (layers s)) as -> by reflexivity.
    rewrite (find_layer_map activeId _ (layers s) l); [|by intros; case_decide|done].
    by rewrite decide_True.
  - subst q. unfold initialWarp. cbn. rewrite <- Hrp. apply rotatePoint_rotate_about.
  - subst q. unfold initialWarp. cbn. rewrite <- Hrp. apply rotatePoint_rotate_about.
  - subst q. unfold initialWarp. cbn. rewrite <- Hrp. apply rotatePoint_rotate_about.
  - subst q. unfold initialWarp. cbn. rewrite <- Hrp. apply rotatePoint_rotate_about.
  - intros H0. subst q. unfold initialWarp, box_corners, rotatePoint.
    rewrite or_zero_id, H0.
    replace (0 * PI / 180)%R with 0%R by lra. rewrite cos_0, sin_0.
    f_equal; f_equal; lra.
  - subst q. unfold initialWarp. cbn [tl]. rewrite <- Hrp.
    rewrite (rotatePoint_distance (px c) (py c) θ). subst c. cbn.
    rewrite <- (hypot_neg_l (layer_width l / 2)), <- (hypot_neg_r _ (layer_height l / 2)).
    f_equal; lra.
  - subst q. unfold initialWarp. cbn [tr]. rewrite <- Hrp.
    rewrite (rotatePoint_distance (px c) (py c) θ). subst c. cbn.
    rewrite <- (hypot_neg_r _ (layer_height l / 2)). f_equal; lra.
  - subst q. unfold initialWarp. cbn [bl]. rewrite <- Hrp.
    rewrite (rotatePoint_distance (px c) (py c) θ). subst c. cbn.
    rewrite <- (hypot_neg_l (layer_width l / 2)). f_equal; lra.
  - subst q. unfold initialWarp. cbn [br]. rewrite <- Hrp.
    rewrite (rotatePoint_distance (px c) (py c) θ). subst c. cbn.
    f_equal; lra.
Qed.

End Warp.

(** An instance of C8: the scenario of a layer of 100 by 50 turned by 45
    degrees. *)
Lemma C8_initial_warp_quad_witness :
  handleWarpTool (turned_state 45) =
    [UPDATE_LAYER "7" (changes_warpPoints (initialWarp (turned_layer 45))); SET_TOOL T_warp] ∧
  distance (tl (initialWarp (turned_layer 45))) (box_center (turned_layer 45)) =
    hypot (100 / 2) (50 / 2).
Proof.
  destruct (C8_initial_warp_quad toy_blank toy_drawImage (turned_state 45) "7"
              (turned_layer 45) eq_refl eq_refl ltac:(discriminate) eq_refl)
    as (H1 & _ & _ & _ & _ & _ & _ & H2 & _).
  split; [exact H1|exact H2].
Defined.

(** C8 fails as stated on doubles: for a layer at x = 12.3 of width 100 and
    rotation 0, the centre is 12.3 + 50 = 62.3 after rounding, the offset
    12.3 - 62.3 rounds to -50, and the top-left corner comes out at
    62.3 + (-50) = 12.299999999999997, which is not the double 12.3.  This
    holds whatever [Math.cos] and [Math.sin] are, given their values at 0. *)
Lemma C8_counterexample :
  ¬ (∀ Math_cos Math_sin : float → float,
       Math_cos 0%float = 1%float → Math_sin 0%float = 0%float →
       initialWarp_f64 Math_cos Math_sin
         0x1.899999999999ap+3 20 100 50 0 =
       box_corners_f64 0x1.899999999999ap+3 20 100 50).
Proof.
  intros H.
  specialize (H (λ _, 1%float) (λ _, 0%float) eq_refl eq_refl).
  apply (f_equal (λ q, PrimFloat.eqb (px_f64 (tl_f64 q)) 0x1.899999999999ap+3)) in H.
  vm_compute in H. discriminate.
Qed.

(** *** Degenerate geometry *)

Lemma div_is_Some (a b : number) : b ≠ 0%R → div a b = Some (a / b)%R.
Proof. intros Hb. unfold div. by destruct (Req_dec_T b 0). Qed.

Lemma INR_GRID_SIZE : INR GRID_SIZE = 20%R.
Proof. unfold GRID_SIZE. simpl. lra. Qed.

(** [bloat] never divides by zero: below the threshold it returns its
    argument, and from the threshold on the length is positive. *)
Lemma bloat_is_Some (cx cy : number) (p : Point) : is_Some (bloat cx cy p).
Proof.
  unfold bloat. cbv zeta. destruct (Rlt_dec _ _) as [Hlt|Hge]; [by eexists|].
  rewrite div_is_Some by lra. by eexists.
Qed.

Lemma renderTriangleFixed_is_Some im sx sy sw sh p0 p1 p2 isUpper :
  sw ≠ 0%R → sh ≠ 0%R →
  is_Some (renderTriangleFixed im sx sy sw sh p0 p1 p2 isUpper).
Proof.
  intros Hw Hh. unfold renderTriangleFixed. cbv zeta.
  destruct (bloat_is_Some ((px p0 + px p1 + px p2) / 3) ((py p0 + py p1 + py p2) / 3) p0)
    as [cp0 ->].
  destruct (bloat_is_Some ((px p0 + px p1 + px p2) / 3) ((py p0 + py p1 + py p2) / 3) p1)
    as [cp1 ->].
  destruct (bloat_is_Some ((px p0 + px p1 + px p2) / 3) ((py p0 + py p1 + py p2) / 3) p2)
    as [cp2 ->].
  cbn. destruct isUpper; rewrite !div_is_Some by done; cbn;
    repeat case_match; by eexists.
Qed.

Lemma bind_is_Some {A B : Type} (m : option A) (f : A → option B) :
  is_Some m → (∀ x, is_Some (f x)) → is_Some (m ≫= f).
Proof. intros [x ->] Hf. apply Hf. Qed.

Lemma renderCell_is_Some image wp ow oh y x :
  (ow / INR GRID_SIZE ≠ 0)%R → (oh / INR GRID_SIZE ≠ 0)%R →
  is_Some (renderCell image wp ow oh y x).
Proof.
  intros Hw Hh. unfold renderCell. cbv zeta.
  apply bind_is_Some; [by apply renderTriangleFixed_is_Some|]. intros upper.
  apply bind_is_Some; [by apply renderTriangleFixed_is_Some|]. intros lower.
  by eexists.
Qed.

(** C9. The warp renderer and the bloat of its clip triangles never divide
    by zero.  When either grid step of the source ([width / 20] or
    [height / 20]) is at most 0.001 the renderer returns without a single
    call on the context; when a vertex is closer than 0.1 to the centroid,
    [bloat] returns the vertex as it is; and for all inputs both run to the
    end without reaching a division by zero. *)
Theorem C9_degenerate_geometry :
  (∀ (image : ImageElement) (wp : WarpPoints) (originalWidth originalHeight : number),
     (originalWidth / 20 <= 0.001 ∨ originalHeight / 20 <= 0.001)%R →
     renderWarpedLayer image wp originalWidth originalHeight = Some []) ∧
  (∀ (cx cy : number) (p : Point),
     (sqrt ((px p - cx) * (px p - cx) + (py p - cy) * (py p - cy)) < 0.1)%R →
     bloat cx cy p = Some p) ∧
  (∀ (cx cy : number) (p : Point), is_Some (bloat cx cy p)) ∧
  (∀ (image : ImageElement) (wp : WarpPoints) (originalWidth originalHeight : number),
     is_Some (renderWarpedLayer image wp originalWidth originalHeight)).
Proof.
  split_and!.
  - intros image wp ow oh Hdeg. unfold renderWarpedLayer. cbv zeta.
    rewrite INR_GRID_SIZE.
    destruct (Rle_dec (ow / 20) 0.001); [done|].
    destruct (Rle_dec (oh / 20) 0.001); [done|]. lra.
  - intros cx cy p Hlen. unfold bloat. cbv zeta. by destruct (Rlt_dec _ _).
  - apply bloat_is_Some.
  - intros image wp ow oh. unfold renderWarpedLayer. cbv zeta.
    destruct (Rle_dec _ _) as [|Hw]; [by eexists|].
    destruct (Rle_dec _ _) as [|Hh]; [by eexists|].
    apply bind_is_Some; [|by eexists].
    apply mapM_is_Some, Forall_forall. intros y _.
    apply bind_is_Some; [|by eexists].
    apply mapM_is_Some, Forall_forall. intros x _.
    apply renderCell_is_Some; rewrite INR_GRID_SIZE in *; lra.
Qed.

(** An instance of C9: a source of width 0, and a vertex on the centroid. *)
Lemma C9_degenerate_geometry_witness :
  renderWarpedLayer (HTMLCanvasElement 0) (box_corners (turned_layer 0)) 0 50 = Some [] ∧
  bloat 1 2 {| px := 1; py := 2 |} = Some {| px := 1; py := 2 |}.
Proof.
  destruct C9_degenerate_geometry as (H1 & H2 & _).
  split.
  - apply H1. left. lra.
  - apply H2. cbn.
    replace ((1 - 1) * (1 - 1) + (2 - 2) * (2 - 2))%R with 0%R by ring.
    rewrite sqrt_0. lra.
Defined.

(** ** The glitch operator *)

Lemma pixel_channel_lookup (data : list Z) (n p c : nat) :
  length data = 4 * n → p < n → c < 4 →
  data !! (4 * p + c) = Some (pixel_channel data p c).
Proof.
  intros Hlen Hp Hc. unfold pixel_channel.
  destruct (data !! (4 * p + c)) eqn:E; [done|].
  apply lookup_ge_None in E. lia.
Qed.

Lemma read_pixel_channel (data : list Z) (i : Z) (p c : nat) :
  i = Z.of_nat (4 * p + c) → read data i = pixel_channel data p c.
Proof.
  intros ->. unfold read, pixel_channel.
  destruct (Z.ltb_spec (Z.of_nat (4 * p + c)) 0); [lia|].
  by rewrite Nat2Z.id.
Qed.

Lemma glitch_inv_init (data : list Z) (n k : nat) :
  length data = 4 * n → glitch_inv data n k 0 data.
Proof.
  intros Hlen. split; [done|]. intros p c Hp Hc.
  rewrite decide_False by lia. by apply pixel_channel_lookup with n.
Qed.

(** Case analysis on a decidable proposition under [bool_decide]. *)
Ltac by_bool_decide P H :=
  destruct (decide P) as [H|H];
  [rewrite (bool_decide_eq_true_2 P) by exact H
  |rewrite (bool_decide_eq_false_2 P) by exact H].

(** One iteration of the loop. *)
Lemma glitch_step_inv (data : list Z) (n k j : nat) (d : list Z) :
  length data = 4 * n → j < n →
  glitch_inv data n k j d →
  glitch_inv data n k (S j) (glitch_step data (Z.of_nat k * 4) d (4 * j)).
Proof.
  intros Hlen Hj [Hd Hinv]. unfold glitch_step. cbv zeta. rewrite Hd.
  set (left_ok := ((0 <=? Z.of_nat (4 * j) - Z.of_nat k * 4)%Z
                   && (Z.of_nat (4 * j) - Z.of_nat k * 4 <? Z.of_nat (4 * n))%Z)).
  assert (left_ok = bool_decide (k ≤ j)) as Hleft.
  { subst left_ok. by_bool_decide (k ≤ j) Hkj.
    - apply andb_true_iff. split; [apply Z.leb_le|apply Z.ltb_lt]; lia.
    - apply andb_false_iff. left. apply Z.leb_gt. lia. }
  set (d1 := if left_ok
             then <[4 * j := read data (Z.of_nat (4 * j) - Z.of_nat k * 4)]> d else d).
  assert (length d1 = 4 * n) as Hd1.
  { subst d1. destruct left_ok; by rewrite ?length_insert. }
  set (right_ok := ((0 <=? Z.of_nat (4 * j) + Z.of_nat k * 4)%Z
                    && (Z.of_nat (4 * j) + Z.of_nat k * 4 <? Z.of_nat (4 * n))%Z)).
  assert (right_ok = bool_decide (j + k < n)) as Hright.
  { subst right_ok. by_bool_decide (j + k < n) Hjk.
    - apply andb_true_iff. split; [apply Z.leb_le|apply Z.ltb_lt]; lia.
    - apply andb_false_iff. right. apply Z.ltb_ge. lia. }
  split.
  { destruct right_ok; by rewrite ?length_insert. }
  intros p c Hp Hc.
  assert (d1 !! (4 * p + c) =
            Some (if decide (p < j) then glitch_expected data n k p c
                  else if decide (p = j ∧ c = 0) then glitch_expected data n k p c
                  else pixel_channel data p c)) as H1.
  { subst d1. rewrite Hleft. clear Hleft Hright. by_bool_decide (k ≤ j) Hkj.
    - rewrite list_lookup_insert, Hd.
      destruct (decide (4 * j = 4 * p + c ∧ 4 * j < 4 * n)) as [[Heq _]|Hne].
      + assert (p = j ∧ c = 0) as [-> ->] by lia.
        rewrite decide_False by lia. rewrite decide_True by done.
        unfold glitch_expected. rewrite decide_True by done.
        f_equal. apply read_pixel_channel. lia.
      + rewrite Hinv by done. destruct (decide (p < j)); [done|].
        rewrite decide_False; [done|]. intros [-> ->]. apply Hne. lia.
    - rewrite Hinv by done. destruct (decide (p < j)); [done|].
      destruct (decide (p = j ∧ c = 0)) as [[-> ->]|]; [|done].
      unfold glitch_expected. by rewrite decide_False. }
  assert ((if right_ok
           then <[4 * j + 2 := read data (Z.of_nat (4 * j) + Z.of_nat k * 4 + 2)]> d1
           else d1) !! (4 * p + c) =
            Some (if decide (p < S j) then glitch_expected data n k p c
                  else pixel_channel data p c)) as H2.
  { rewrite Hright. clear Hleft Hright. by_bool_decide (j + k < n) Hjk.
    - rewrite list_lookup_insert, Hd1.
      destruct (decide (4 * j + 2 = 4 * p + c ∧ 4 * j + 2 < 4 * n)) as [[Heq _]|Hne].
      + assert (p = j ∧ c = 2) as [-> ->] by lia.
        rewrite decide_True by lia.
        unfold glitch_expected. rewrite decide_True by done.
        f_equal. apply read_pixel_channel. lia.
      + rewrite H1. destruct (decide (p < j)); [by rewrite decide_True by lia|].
        destruct (decide (p = j ∧ c = 0)) as [[-> ->]|Hn0];
          [by rewrite decide_True by lia|].
        destruct (decide (p < S j)); [|done].
        assert (p = j) as -> by lia.
        destruct c as [|[|[|[|c]]]]; [by destruct Hn0|done|exfalso; apply Hne; lia|done|lia].
    - rewrite H1. destruct (decide (p < j)); [by rewrite decide_True by lia|].
      destruct (decide (p = j ∧ c = 0)) as [[-> ->]|Hn0];
        [by rewrite decide_True by lia|].
      destruct (decide (p < S j)); [|done].
      assert (p = j) as -> by lia.
      destruct c as [|[|[|[|c]]]]; [by destruct Hn0|done| |done|lia].
      unfold glitch_expected. by rewrite decide_False. }
  exact H2.
Qed.

Lemma glitch_loop_inv (data : list Z) (n k : nat) (m : nat) : ∀ (j : nat) (d : list Z),
  length data = 4 * n → j + m = n →
  glitch_inv data n k j d →
  glitch_inv data n k n
    (foldl (glitch_step data (Z.of_nat k * 4)) d ((λ i, 4 * i) <$> seq j m)).
Proof.
  induction m as [|m IH]; intros j d Hlen Hjm Hinv.
  - assert (j = n) as -> by lia. exact Hinv.
  - change (glitch_inv data n k n
              (foldl (glitch_step data (Z.of_nat k * 4))
                 (glitch_step data (Z.of_nat k * 4) d (4 * j))
                 ((λ i, 4 * i) <$> seq (S j) m))).
    apply IH; [done|lia|].
    apply glitch_step_inv; [done|lia|done].
Qed.

(** C7 (amended). On the [n] pixels of a buffer taken in row-major order
    and for an integer offset [k > 0], the glitch operator sets the red
    channel of pixel [p] to the red value of pixel [p - k] and its blue
    channel to the blue value of pixel [p + k], keeps green and alpha, and
    leaves a channel as it is when its sample lies outside the whole
    buffer.  Within a row of a buffer of width [w] this is the sample [k]
    columns to the left or to the right; a sample that leaves its row while
    staying inside the buffer is taken from the adjacent row. *)
Theorem C7_glitch_row_major (data : list Z) (n k : nat) :
  length data = 4 * n →
  0 < k →
  let out := applyGlitch data (inject_Z (Z.of_nat k)) in
  length out = length data ∧
  (∀ p c, p < n → c < 4 → pixel_channel out p c = glitch_expected data n k p c) ∧
  (∀ w h x y, n = w * h → x < w → y < h →
     (k ≤ x → channel w out x y 0 = channel w data (x - k) y 0) ∧
     (x + k < w → channel w out x y 2 = channel w data (x + k) y 2) ∧
     (x < k → k ≤ y * w + x →
      channel w out x y 0 = pixel_channel data (y * w + x - k) 0) ∧
     (w ≤ x + k → y * w + x + k < n →
      channel w out x y 2 = pixel_channel data (y * w + x + k) 2) ∧
     channel w out x y 1 = channel w data x y 1 ∧
     channel w out x y 3 = channel w data x y 3).
Proof.
  intros Hlen Hk out.
  assert (out = foldl (glitch_step data (Z.of_nat k * 4)) data ((λ i, 4 * i) <$> seq 0 n))
    as Hout.
  { subst out. unfold applyGlitch.
    assert (Qle_bool (inject_Z (Z.of_nat k)) 0 = false) as ->.
    { apply not_true_is_false. intros H%Qle_bool_iff.
      unfold Qle, inject_Z in H. simpl in H. lia. }
    rewrite Qfloor_Z. unfold pixel_starts. rewrite Hlen.
    replace ((4 * n + 3) `div` 4) with n; [done|].
    apply Nat.div_unique with 3; lia. }
  destruct (glitch_loop_inv data n k n 0 data Hlen ltac:(lia) (glitch_inv_init data n k Hlen))
    as [Hl Hinv].
  rewrite <- Hout in Hl, Hinv.
  assert (∀ p c, p < n → c < 4 → pixel_channel out p c = glitch_expected data n k p c)
    as Hpix.
  { intros p c Hp Hc. unfold pixel_channel at 1. rewrite Hinv by done.
    by rewrite decide_True. }
  split_and!; [lia|done|].
  intros w h x y Hn Hx Hy.
  assert (y * w + x < n) as Hp by nia.
  unfold channel. split_and!.
  - intros Hkx. rewrite Hpix by lia. unfold glitch_expected.
    rewrite decide_True by lia. f_equal. lia.
  - intros Hxk. rewrite Hpix by lia. unfold glitch_expected.
    rewrite decide_True by nia. f_equal. lia.
  - intros Hxk Hkp. rewrite Hpix by lia. unfold glitch_expected.
    by rewrite decide_True.
  - intros Hxk Hkp. rewrite Hpix by lia. unfold glitch_expected.
    by rewrite decide_True.
  - by rewrite Hpix by lia.
  - by rewrite Hpix by lia.
Qed.

(** An instance of C7: the sample buffer with offset 1. *)
Lemma C7_glitch_row_major_witness :
  let out := applyGlitch glitch_sample (inject_Z (Z.of_nat 1)) in
  length out = length glitch_sample ∧
  (∀ p c, p < 4 → c < 4 → pixel_channel out p c = glitch_expected glitch_sample 4 1 p c).
Proof.
  destruct (C7_glitch_row_major glitch_sample 4 1 eq_refl ltac:(lia)) as (H1 & H2 & _).
  split; [exact H1|exact H2].
Defined.

(** C7 fails as stated: in a buffer of 2 by 2 pixels and with offset 1, the
    first pixel of the second row has no pixel to its left, yet its red
    channel becomes 20, the red value of the last pixel of the first row,
    where the claim has it keep 30. *)
Lemma C7_counterexample :
  channel 2 glitch_sample 0 1 0 = 30%Z ∧
  channel 2 (applyGlitch glitch_sample (inject_Z 1)) 0 1 0 = 20%Z ∧
  ¬ glitch_rows_claim 2 2 1 glitch_sample (applyGlitch glitch_sample (inject_Z 1)).
Proof.
  split_and!; [reflexivity|reflexivity|].
  intros H. destruct (H 0 1 ltac:(lia) ltac:(lia)) as [Hred _].
  vm_compute in Hred. discriminate.
Qed.

(** ** More on the reducer *)




Lemma last20_short {A} (l : list A) : length l ≤ 20 → last20 l = l.
Proof. intros H. unfold last20. by replace (length l - 20) with 0 by lia. Qed.

Lemma last20_length {A} (l : list A) : length (last20 l) = Nat.min (length l) 20.
Proof. unfold last20. rewrite length_drop. lia. Qed.

Lemma last20_snoc {A} (l : list A) (x : A) : last20 (last20 l ++ [x]) = last20 (l ++ [x]).
Proof.
  unfold last20 at 1 3. rewrite !length_app, last20_length. cbn [length].
  unfold last20. destruct (decide (length l ≤ 20)) as [H|H].
  - replace (length l - 20) with 0 by lia. rewrite drop_0.
    by replace (Nat.min (length l) 20) with (length l) by lia.
  - replace (Nat.min (length l) 20 + 1 - 20) with 1 by lia.
    replace (length l + 1 - 20) with ((length l - 20) + 1) by lia.
    rewrite <- drop_drop. rewrite (drop_app_le _ _ (length l - 20)) by lia.
    done.
Qed.

Lemma pushHistory_last20 (s ns : EditorState) :
  history_wf s →
  history (pushHistory s ns) = last20 (take (historyIndex s + 1) (history s) ++ [layers ns]).
Proof.
  intros (Hi & Hl & _). rewrite pushHistory_history. cbv zeta.
  set (pruned := take (historyIndex s + 1) (history s) ++ [layers ns]).
  assert (length pruned = historyIndex s + 2) as Hp.
  { subst pruned. rewrite length_app, length_take. cbn. lia. }
  unfold last20. rewrite Hp. case_decide.
  - by replace (historyIndex s + 2 - 20) with 1 by lia.
  - by replace (historyIndex s + 2 - 20) with 0 by lia.
Qed.

Section ReducerExtras.

Context {bitmap : Type}.
Variable blank : number → number → bitmap.
Variable drawImage : bitmap → bitmap → bitmap.

Local Abbreviation Heap := (list (@Canvas bitmap)).
Local Abbreviation reducer := (reducer blank drawImage).
Local Abbreviation nextState := (nextState blank drawImage).
Local Abbreviation dispatch := (dispatch blank drawImage).
Local Abbreviation run := (run blank drawImage).
Local Abbreviation all_commit := (all_commit blank drawImage).

(** After a commit, one undo shows the layers of before the commit. *)
Lemma undo_after_push now σ s ns :
  history_wf s →
  layers (reducer now σ (pushHistory s ns) UNDO).2 = layers s.
Proof.
  intros Hwf.
  destruct (pushHistory_keeps s ns 0 (layers s) Hwf ltac:(lia)) as [Hle Hbase].
  { rewrite Nat.sub_0_r. by destruct Hwf as (_ & _ & ?). }
  { lia. }
  unfold reducer. rewrite decide_True by lia. cbn [snd].
  change (0 + 1) with 1 in Hbase.
  unfold set_history, set_layers. cbn [layers]. by rewrite Hbase.
Qed.




Lemma swap_layers_cons (i j : nat) (x : Layer) (ls : list Layer) :
  swap_layers (S i) (S j) (x :: ls) = x :: swap_layers i j ls.
Proof. unfold swap_layers. cbn. by destruct (ls !! i), (ls !! j). Qed.

Lemma swap_layers_adjacent (pre post : list Layer) (a b : Layer) :
  swap_layers (length pre) (length pre + 1) (pre ++ a :: b :: post) = pre ++ b :: a :: post ∧
  swap_layers (length pre + 1) (length pre) (pre ++ a :: b :: post) = pre ++ b :: a :: post.
Proof.
  induction pre as [|x pre [IH1 IH2]]; [done|].
  cbn [length app Nat.add]. rewrite !swap_layers_cons. by rewrite IH1, IH2.
Qed.

Lemma findIndex_layer_app (id : string) (pre rest : list Layer) (a : Layer) :
  id ∉ layer_id <$> pre → layer_id a = id →
  findIndex_layer id (pre ++ a :: rest) = Some (length pre).
Proof.
  intros Hn Ha. unfold findIndex_layer.
  induction pre as [|x pre IH]; cbn.
  - by rewrite decide_True.
  - rewrite fmap_cons, not_elem_of_cons in Hn. destruct Hn as [Hne Hn].
    rewrite decide_False by done.
    specialize (IH Hn). destruct (list_find _ (pre ++ a :: rest)) as [[k y]|]; [|done].
    cbn in *. by injection IH as ->.
Qed.

Lemma findIndex_layer_Some (id : string) (ls : list Layer) (i : nat) :
  findIndex_layer id ls = Some i →
  ∃ pre a post, ls = pre ++ a :: post ∧ length pre = i ∧ layer_id a = id ∧
                id ∉ layer_id <$> pre.
Proof.
  unfold findIndex_layer. intros H.
  destruct (list_find _ ls) as [[k a]|] eqn:E; [|done]. injection H as ->.
  apply list_find_Some in E as (Hk & Ha & Hbefore).
  exists (take i ls), a, (drop (S i) ls). split_and!.
  - by rewrite take_drop_middle.
  - rewrite length_take. apply lookup_lt_Some in Hk. lia.
  - done.
  - intros Hin. apply list_elem_of_fmap in Hin as (y & Hy & Hin).
    apply list_elem_of_lookup in Hin as (j & Hj).
    assert (j < i) by (apply lookup_lt_Some in Hj; rewrite length_take in Hj; lia).
    rewrite lookup_take_lt in Hj by done. by apply (Hbefore j y).
Qed.

Lemma reorder_up now σ s id i :
  findIndex_layer id (layers s) = Some i → 0 < i →
  reducer now σ s (REORDER_LAYER id up) =
    (σ, pushHistory s (set_layers (swap_layers i (i - 1) (layers s)) s)).
Proof.
  intros Hf Hi. unfold reducer. cbn. rewrite Hf.
  assert (i < length (layers s)).
  { apply findIndex_layer_Some in Hf as (pre & a & post & -> & <- & _).
    rewrite length_app. cbn. lia. }
  rewrite decide_True by lia.
  by replace (Z.to_nat (Z.of_nat i - 1)) with (i - 1) by lia.
Qed.

Lemma reorder_down now σ s id i :
  findIndex_layer id (layers s) = Some i → i + 1 < length (layers s) →
  reducer now σ s (REORDER_LAYER id down) =
    (σ, pushHistory s (set_layers (swap_layers i (i + 1) (layers s)) s)).
Proof.
  intros Hf Hi. unfold reducer. cbn. rewrite Hf.
  rewrite decide_True by lia.
  by replace (Z.to_nat (Z.of_nat i + 1)) with (i + 1) by lia.
Qed.

Lemma reorder_edge now σ s id d i :
  findIndex_layer id (layers s) = Some i →
  (d = up ∧ i = 0) ∨ (d = down ∧ i + 1 = length (layers s)) →
  reducer now σ s (REORDER_LAYER id d) = (σ, pushHistory s s).
Proof.
  intros Hf Hd. unfold reducer. cbn. rewrite Hf.
  destruct Hd as [[-> ->]|[-> Hi]]; by rewrite decide_False by lia.
Qed.

(** X2: moving a layer one step up or down exchanges it with its
    neighbour and so keeps the layers of the document, the active layer and
    the store; at the end of the list it keeps the order (and is committed
    all the same).  A step up followed by a step down restores the order,
    and so does a step down followed by a step up when the layer below has
    another id. *)
Theorem X2_reorder_layer (now : Z) (σ : Heap) (s : EditorState)
    (id : string) (d : Direction) (i : nat) :
  findIndex_layer id (layers s) = Some i →
  let c' := reducer now σ s (REORDER_LAYER id d) in
  c'.1 = σ ∧
  layers c'.2 ≡ₚ layers s ∧
  activeLayerId c'.2 = activeLayerId s ∧
  ((d = up ∧ i = 0) ∨ (d = down ∧ i + 1 = length (layers s)) →
   layers c'.2 = layers s ∧ c'.2 = pushHistory s s) ∧
  (d = up → 0 < i →
   findIndex_layer id (layers c'.2) = Some (i - 1) ∧
   layers c'.2 !! (i - 1) = layers s !! i ∧
   layers c'.2 !! i = layers s !! (i - 1) ∧
   ∀ t, layers (reducer t c'.1 c'.2 (REORDER_LAYER id down)).2 = layers s) ∧
  (d = down → i + 1 < length (layers s) →
   (∀ l, layers s !! (i + 1) = Some l → layer_id l ≠ id) →
   findIndex_layer id (layers c'.2) = Some (i + 1) ∧
   layers c'.2 !! (i + 1) = layers s !! i ∧
   layers c'.2 !! i = layers s !! (i + 1) ∧
   ∀ t, layers (reducer t c'.1 c'.2 (REORDER_LAYER id up)).2 = layers s).
Proof.
  intros Hf c'.
  destruct (findIndex_layer_Some _ _ _ Hf) as (pre & a & post & Hls & Hlen & Ha & Hpre).
  assert (c'.1 = σ ∧ layers c'.2 ≡ₚ layers s ∧ activeLayerId c'.2 = activeLayerId s)
    as (H1 & H2 & H3).
  { subst c'. destruct d.
    - destruct (decide (0 < i)) as [Hi|Hi].
      + rewrite (reorder_up now σ s id i Hf Hi). cbn [fst snd].
        rewrite pushHistory_layers. cbn [layers set_layers].
        split_and!; [done| |done].
        destruct (nil_or_length_pos pre) as [->|Hp]; [cbn in Hlen; lia|].
        destruct (exists_last (l := pre)) as (pre' & b & ->).
        { intros ->. cbn in Hp. lia. }
        rewrite Hls, <- Hlen, length_app. cbn [length].
        replace (length pre' + 1 - 1) with (length pre') by lia.
        rewrite <- !app_assoc. cbn [app].
        rewrite (proj2 (swap_layers_adjacent pre' post b a)).
        apply Permutation_app_head, perm_swap.
      + rewrite (reorder_edge now σ s id up i Hf) by (left; split; [done|lia]). done.
    - destruct (decide (i + 1 < length (layers s))) as [Hi|Hi].
      + rewrite (reorder_down now σ s id i Hf Hi). cbn [fst snd].
        rewrite pushHistory_layers. cbn [layers set_layers].
        split_and!; [done| |done].
        destruct post as [|b post].
        { rewrite Hls, length_app in Hi. cbn in Hi. lia. }
        rewrite Hls, <- Hlen.
        rewrite (proj1 (swap_layers_adjacent pre post a b)).
        apply Permutation_app_head, perm_swap.
      + assert (i < length (layers s)).
        { rewrite Hls, length_app. cbn. lia. }
        rewrite (reorder_edge now σ s id down i Hf) by (right; split; [done|lia]). done. }
  split_and!; [done|done|done| | |].
  - intros Hd. subst c'. rewrite (reorder_edge now σ s id d i Hf Hd). done.
  - intros -> Hi. subst c'. rewrite (reorder_up now σ s id i Hf Hi). cbn [fst snd].
    rewrite pushHistory_layers. cbn [layers set_layers].
    destruct (exists_last (l := pre)) as (pre' & b & ->).
    { intros ->. cbn in Hlen. lia. }
    rewrite length_app in Hlen. cbn [length] in Hlen.
    assert (id ∉ layer_id <$> pre') as Hpre'.
    { intros Hin. apply Hpre. rewrite fmap_app. apply elem_of_app. by left. }
    assert (swap_layers i (i - 1) (layers s) = pre' ++ a :: b :: post) as Hsw.
    { rewrite Hls, <- Hlen. replace (length pre' + 1 - 1) with (length pre') by lia.
      rewrite <- !app_assoc. cbn [app].
      apply (proj2 (swap_layers_adjacent pre' post b a)). }
    assert (findIndex_layer id (pre' ++ a :: b :: post) = Some (i - 1)) as Hf'.
    { rewrite (findIndex_layer_app id pre' (b :: post) a Hpre' Ha). f_equal. lia. }
    rewrite Hsw. split_and!.
    + done.
    + rewrite Hls, <- !app_assoc. cbn [app].
      replace (i - 1) with (length pre') by lia. rewrite list_lookup_middle by done.
      replace i with (S (length pre')) by lia.
      rewrite lookup_app_r by lia.
      by replace (S (length pre') - length pre') with 1 by lia.
    + rewrite Hls, <- !app_assoc. cbn [app].
      replace (i - 1) with (length pre') by lia.
      rewrite (list_lookup_middle pre' _ b) by done.
      replace i with (S (length pre')) by lia.
      rewrite lookup_app_r by lia.
      by replace (S (length pre') - length pre') with 1 by lia.
    + intros t.
      set (s1 := pushHistory s (set_layers (pre' ++ a :: b :: post) s)).
      assert (layers s1 = pre' ++ a :: b :: post) as Hl1 by apply pushHistory_layers.
      rewrite (reorder_down t σ s1 id (i - 1)).
      * cbn [snd]. rewrite pushHistory_layers. cbn [layers set_layers]. rewrite Hl1.
        replace (i - 1) with (length pre') by lia.
        rewrite (proj1 (swap_layers_adjacent pre' post a b)).
        rewrite Hls, <- !app_assoc. done.
      * by rewrite Hl1.
      * rewrite Hl1, length_app. cbn. lia.
  - intros -> Hi Hnext. subst c'. rewrite (reorder_down now σ s id i Hf Hi). cbn [fst snd].
    rewrite pushHistory_layers. cbn [layers set_layers].
    destruct post as [|b post].
    { rewrite Hls, length_app in Hi. cbn in Hi. lia. }
    assert (layer_id b ≠ id) as Hb.
    { apply Hnext. rewrite Hls, <- Hlen.
      replace (length pre + 1) with (length (pre ++ [a])) by (rewrite length_app; done).
      replace (pre ++ a :: b :: post) with ((pre ++ [a]) ++ b :: post)
        by (by rewrite <- app_assoc).
      by rewrite list_lookup_middle. }
    assert (swap_layers i (i + 1) (layers s) = pre ++ b :: a :: post) as Hsw.
    { rewrite Hls, <- Hlen. apply (proj1 (swap_layers_adjacent pre post a b)). }
    assert (id ∉ layer_id <$> pre ++ [b]) as Hpre'.
    { rewrite fmap_app. intros [Hin|Hin]%elem_of_app; [done|].
      cbn in Hin. apply list_elem_of_singleton in Hin. done. }
    assert (findIndex_layer id (pre ++ b :: a :: post) = Some (i + 1)) as Hf'.
    { replace (pre ++ b :: a :: post) with ((pre ++ [b]) ++ a :: post)
        by (by rewrite <- app_assoc).
      rewrite (findIndex_layer_app id (pre ++ [b]) post a Hpre' Ha).
      rewrite length_app. cbn. f_equal. lia. }
    rewrite Hsw. split_and!.
    + done.
    + rewrite Hls. rewrite <- Hlen at 2. rewrite (list_lookup_middle pre _ a) by done.
      replace (i + 1) with (S (length pre)) by lia.
      rewrite lookup_app_r by lia.
      by replace (S (length pre) - length pre) with 1 by lia.
    + rewrite Hls. rewrite <- Hlen at 1. rewrite (list_lookup_middle pre _ b) by done.
      replace (i + 1) with (S (length pre)) by lia.
      rewrite lookup_app_r by lia.
      by replace (S (length pre) - length pre) with 1 by lia.
    + intros t.
      set (s1 := pushHistory s (set_layers (pre ++ b :: a :: post) s)).
      assert (layers s1 = pre ++ b :: a :: post) as Hl1 by apply pushHistory_layers.
      rewrite (reorder_up t σ s1 id (i + 1)).
      * cbn [snd]. rewrite pushHistory_layers. cbn [layers set_layers]. rewrite Hl1.
        replace (i + 1) with (length pre + 1) by lia.
        replace (length pre + 1 - 1) with (length pre) by lia.
        rewrite (proj2 (swap_layers_adjacent pre post b a)).
        by rewrite Hls.
      * by rewrite Hl1.
      * lia.
Qed.




Lemma set_filter_twice (k : FilterKey) (v v' : number) (f : FilterState) :
  set_filter k v' (set_filter k v f) = set_filter k v' f.
Proof. by destruct k. Qed.

Lemma set_filter_comm (k k' : FilterKey) (v v' : number) (f : FilterState) :
  k ≠ k' → set_filter k' v' (set_filter k v f) = set_filter k v (set_filter k' v' f).
Proof. by destruct k, k'. Qed.

Lemma SET_LAYER_FILTER_layers now σ s id k v :
  layers (reducer now σ s (SET_LAYER_FILTER id k v)).2 =
    map (λ l, if decide (layer_id l = id)
              then with_filters_effects (set_filter k v (filters l)) (effects l) l
              else l) (layers s).
Proof. unfold reducer. cbn [nextState snd]. by rewrite pushHistory_layers. Qed.

(** X4: the filter sliders of a layer are independent of one another: the
    values set for two different filters do not depend on the order in
    which they were set, a filter that is set twice holds the last value,
    and setting a filter changes neither the effects of the layer nor any
    layer with another id. *)
Theorem X4_layer_filters (σ : Heap) (s : EditorState) (id : string)
    (t1 t2 : Z) (k1 k2 : FilterKey) (v1 v2 : number) :
  let after acts := layers (run (σ, s) acts).2 in
  (k1 ≠ k2 →
   after [(t1, SET_LAYER_FILTER id k1 v1); (t2, SET_LAYER_FILTER id k2 v2)] =
   after [(t1, SET_LAYER_FILTER id k2 v2); (t2, SET_LAYER_FILTER id k1 v1)]) ∧
  after [(t1, SET_LAYER_FILTER id k1 v1); (t2, SET_LAYER_FILTER id k1 v2)] =
    after [(t2, SET_LAYER_FILTER id k1 v2)] ∧
  (∀ i l, layers s !! i = Some l →
     ∃ l', after [(t1, SET_LAYER_FILTER id k1 v1)] !! i = Some l' ∧
           layer_id l' = layer_id l ∧
           effects l' = effects l ∧
           imageElement l' = imageElement l ∧
           (layer_id l ≠ id → l' = l) ∧
           (layer_id l = id → filters l' = set_filter k1 v1 (filters l))).
Proof.
  intros after. subst after. unfold run. cbn [foldl]. unfold dispatch. cbn [fst snd].
  split_and!.
  - intros Hk.
    rewrite !SET_LAYER_FILTER_layers, !map_map. apply map_ext. intros l.
    destruct (decide (layer_id l = id)) as [Hl|Hl].
    + cbn [layer_id with_filters_effects]. rewrite !decide_True by done.
      cbn [filters effects with_filters_effects]. unfold with_filters_effects. cbn.
      f_equal. by apply set_filter_comm.
    + by rewrite !decide_False by done.
  - rewrite !SET_LAYER_FILTER_layers, !map_map. apply map_ext. intros l.
    destruct (decide (layer_id l = id)) as [Hl|Hl].
    + cbn [layer_id with_filters_effects]. rewrite !decide_True by done.
      unfold with_filters_effects. cbn. f_equal. apply set_filter_twice.
    + by rewrite !decide_False by done.
  - intros i l Hl. rewrite SET_LAYER_FILTER_layers.
    rewrite list_lookup_fmap, Hl. cbn. eexists. split; [done|].
    destruct (decide (layer_id l = id)); by split_and!.
Qed.

(** X5: undo and redo restore layers and nothing else.  The canvas size,
    the tool, the active layer, the zoom, the pan and the selection stay as
    they are, although setting the canvas size and cropping are committed
    to the history: the undo of a crop puts the layers back where they were
    and keeps the canvas at the size of the crop rectangle and the tool on
    "move". *)
Theorem X5_undo_keeps_canvas :
  (∀ (now : Z) (σ : Heap) (s : EditorState) (a : EditorAction),
     a = UNDO ∨ a = REDO →
     let c' := reducer now σ s a in
     c'.1 = σ ∧ canvasSize c'.2 = canvasSize s ∧ tool c'.2 = tool s ∧
     activeLayerId c'.2 = activeLayerId s ∧ zoom c'.2 = zoom s ∧ pan c'.2 = pan s ∧
     selectionPath c'.2 = selectionPath s ∧ history c'.2 = history s) ∧
  (∀ (now t : Z) (σ : Heap) (s : EditorState) (r : Rect),
     history_wf s →
     let c1 := reducer now σ s (CROP_CANVAS r) in
     let c2 := reducer t c1.1 c1.2 UNDO in
     layers c2.2 = layers s ∧
     canvasSize c2.2 = {| width := rect_width r; height := rect_height r |} ∧
     tool c2.2 = T_move) ∧
  (∀ (now t : Z) (σ : Heap) (s : EditorState) (size : Size),
     history_wf s →
     let c1 := reducer now σ s (SET_CANVAS_SIZE size) in
     let c2 := reducer t c1.1 c1.2 UNDO in
     layers c1.2 = layers s ∧ historyIndex c1.2 = Nat.min (historyIndex s + 1) 19 ∧
     layers c2.2 = layers s ∧ canvasSize c2.2 = size).
Proof.
  assert (∀ (now : Z) (σ : Heap) (s : EditorState) (a : EditorAction),
     a = UNDO ∨ a = REDO →
     let c' := reducer now σ s a in
     c'.1 = σ ∧ canvasSize c'.2 = canvasSize s ∧ tool c'.2 = tool s ∧
     activeLayerId c'.2 = activeLayerId s ∧ zoom c'.2 = zoom s ∧ pan c'.2 = pan s ∧
     selectionPath c'.2 = selectionPath s ∧ history c'.2 = history s) as Hframe.
  { intros now σ s a [-> | ->] c'; subst c'; unfold reducer; by case_decide. }
  split_and!; [exact Hframe| |].
  - intros now t σ s r Hwf c1 c2.
    assert (c1 = (σ, pushHistory s (set_tool T_move
                   (set_layers (map (translate_layer (rect_x r) (rect_y r)) (layers s))
                      (set_canvasSize {| width := rect_width r; height := rect_height r |} s)))))
      as Hc1 by done.
    destruct (Hframe t c1.1 c1.2 UNDO ltac:(by left)) as (_ & Hcs & Htool & _).
    fold c2 in Hcs, Htool. rewrite Hcs, Htool. subst c2. rewrite Hc1. cbn [fst snd].
    split_and!; [|done|done]. by apply undo_after_push.
  - intros now t σ s size Hwf c1 c2.
    assert (c1 = (σ, pushHistory s (set_canvasSize size s))) as Hc1 by done.
    destruct (Hframe t c1.1 c1.2 UNDO ltac:(by left)) as (_ & Hcs & _).
    fold c2 in Hcs. rewrite Hcs. subst c2. rewrite Hc1. cbn [fst snd].
    split_and!; [done| |by apply undo_after_push|done].
    rewrite pushHistory_index.
    destruct Hwf as (Hi & Hl & _). rewrite pushHistory_length by done. lia.
Qed.


Lemma merge_layer_no_changes (l : Layer) : merge_layer l no_changes = l.
Proof. by destruct l. Qed.

Lemma set_layers_same (s : EditorState) : set_layers (layers s) s = s.
Proof. by destruct s. Qed.

Lemma update_no_changes now σ s id :
  reducer now σ s (UPDATE_LAYER id no_changes) = (σ, pushHistory s s).
Proof.
  unfold reducer. cbn [nextState].
  replace (map _ (layers s)) with (layers s); [by rewrite set_layers_same|].
  rewrite <- (map_id (layers s)) at 1. apply map_ext. intros l.
  case_decide; [by rewrite merge_layer_no_changes|done].
Qed.

(** Committing the layers that are current already. *)
Lemma push_same_chain (base : list (list Layer)) (k : nat) (s : EditorState) :
  history_wf s →
  take (historyIndex s + 1) (history s) = last20 (base ++ replicate k (layers s)) →
  let s' := pushHistory s s in
  history_wf s' ∧ layers s' = layers s ∧ tool s' = tool s ∧
  activeLayerId s' = activeLayerId s ∧
  history s' = last20 (base ++ replicate (S k) (layers s)) ∧
  take (historyIndex s' + 1) (history s') = history s'.
Proof.
  intros Hwf Hbase s'. subst s'.
  pose proof (pushHistory_wf s s Hwf) as Hwf'.
  split_and!; [done|apply pushHistory_layers|done|done| |].
  - rewrite pushHistory_last20, Hbase, last20_snoc by done.
    by rewrite replicate_S_end, app_assoc.
  - destruct Hwf' as (Hi & _). rewrite pushHistory_index in *.
    apply take_ge. lia.
Qed.

Lemma undos_constant_history (L : list Layer) (n : nat) (clocks : list Z) : ∀ c,
  history c.2 = replicate n L → historyIndex c.2 < n → layers c.2 = L →
  layers (run c (undos clocks)).2 = L ∧ (run c (undos clocks)).1 = c.1.
Proof.
  induction clocks as [|t clocks IH]; intros [σ s] Hh Hi Hl; [done|].
  unfold undos. rewrite fmap_cons. fold (undos clocks). rewrite run_cons.
  cbn [fst snd] in *.
  assert ((dispatch (σ, s) (t, UNDO)).1 = σ) as Hσ.
  { unfold dispatch, reducer. cbn [fst snd]. by case_decide. }
  rewrite <- Hσ at 3. apply IH.
  - unfold dispatch, reducer. cbn [fst snd]. by case_decide.
  - unfold dispatch, reducer. cbn [fst snd]. case_decide; cbn; lia.
  - unfold dispatch, reducer. cbn [fst snd]. case_decide; [|done].
    cbn [snd layers set_history set_layers]. rewrite Hh.
    by rewrite lookup_replicate_2 by lia.
Qed.

Lemma brush_moves_inv (base : list (list Layer)) (s : EditorState)
    (activeId : string) (l : Layer) (r : nat)
    (moves : list (Z * (bitmap → bitmap))) :
  tool s = T_brush ∨ tool s = T_eraser →
  activeLayerId s ≫= or_null = Some activeId →
  find_layer activeId (layers s) = Some l →
  layer_type l ≠ L_text →
  imageElement l = Some (HTMLCanvasElement r) →
  ∀ (c : Heap * EditorState) (k : nat) (cv : Canvas),
  history_wf c.2 → layers c.2 = layers s → tool c.2 = tool s →
  activeLayerId c.2 = activeLayerId s →
  take (historyIndex c.2 + 1) (history c.2) = last20 (base ++ replicate k (layers s)) →
  c.1 !! r = Some cv →
  let c' :=
    foldl (λ c m,
             let moved := brushMove m.2 true c.1 c.2 in
             run (moved.1, c.2) ((λ a, (m.1, a)) <$> moved.2))
          c moves in
  history_wf c'.2 ∧ layers c'.2 = layers s ∧ tool c'.2 = tool s ∧
  activeLayerId c'.2 = activeLayerId s ∧
  take (historyIndex c'.2 + 1) (history c'.2) =
    last20 (base ++ replicate (k + length moves) (layers s)) ∧
  c'.1 !! r =
    Some {| canvas_width := canvas_width cv; canvas_height := canvas_height cv;
            canvas_bitmap := foldl (λ b m, m.2 b) (canvas_bitmap cv) moves |}.
Proof.
  intros Ht Ha Hf Hty Him.
  induction moves as [|m moves IH]; intros [σ1 s1] k cv Hwf Hl Htool Hact Hbase Hr.
  - cbn [foldl length]. rewrite Nat.add_0_r. cbn [fst snd] in *.
    split_and!; try done. by destruct cv.
  - cbn [foldl length fst snd] in *.
    rewrite (brushMove_paints m.2 σ1 s1 activeId l r)
      by (by rewrite ?Htool, ?Hact, ?Hl).
    cbn [fst snd fmap list_fmap].
    assert (run (paint m.2 r σ1, s1) [(m.1, UPDATE_LAYER (layer_id l) no_changes)] =
              (paint m.2 r σ1, pushHistory s1 s1)) as ->.
    { unfold run. cbn [foldl]. unfold dispatch. cbn [fst snd]. apply update_no_changes. }
    rewrite <- Hl in Hbase.
    destruct (push_same_chain base k s1 Hwf Hbase) as (W1 & W2 & W3 & W4 & W5 & W6).
    replace (k + S (length moves)) with (S k + length moves) by lia.
    destruct (IH (paint m.2 r σ1, pushHistory s1 s1) (S k)
                {| canvas_width := canvas_width cv; canvas_height := canvas_height cv;
                   canvas_bitmap := m.2 (canvas_bitmap cv) |})
      as (I1 & I2 & I3 & I4 & I5 & I6); cbn [fst snd].
    + done.
    + by rewrite W2.
    + by rewrite W3.
    + by rewrite W4.
    + by rewrite W6, W5, Hl.
    + by apply paint_lookup_eq.
    + split_and!; done.
Qed.

(** X6: every pointer move of a brush or eraser stroke commits, and the
    release commits once more.  A stroke of [m] moves leaves the layers as
    they were and pushes [m + 1] copies of them on the history (from which
    the entries beyond the cursor are dropped, and of which the last 20 are
    kept), while the canvas of the layer takes the paint of every move.
    After a stroke of 19 moves or more, all 20 entries are the current
    layers: no number of undos changes the layers or the canvas. *)
Theorem X6_brush_stroke_floods_history (moves : list (Z * (bitmap → bitmap)))
    (release : Z) (σ : Heap) (s : EditorState) (activeId : string) (l : Layer)
    (r : nat) (cv : Canvas) :
  history_wf s →
  tool s = T_brush ∨ tool s = T_eraser →
  activeLayerId s ≫= or_null = Some activeId →
  find_layer activeId (layers s) = Some l →
  layer_type l ≠ L_text →
  imageElement l = Some (HTMLCanvasElement r) →
  σ !! r = Some cv →
  let c' := brushGesture blank drawImage moves release (σ, s) in
  let painted := foldl (λ b m, m.2 b) (canvas_bitmap cv) moves in
  layers c'.2 = layers s ∧
  history c'.2 =
    last20 (take (historyIndex s + 1) (history s)
            ++ replicate (length moves + 1) (layers s)) ∧
  historyIndex c'.2 = length (history c'.2) - 1 ∧
  layer_bitmap c'.1 l = Some painted ∧
  (19 ≤ length moves →
   history c'.2 = replicate 20 (layers s) ∧
   ∀ clocks, let c'' := run c' (undos clocks) in
             layers c''.2 = layers s ∧ layer_bitmap c''.1 l = Some painted).
Proof.
  intros Hwf Ht Ha Hf Hty Him Hr c' painted.
  set (base := take (historyIndex s + 1) (history s)).
  assert (length base = historyIndex s + 1) as Hlen.
  { subst base. destruct Hwf as (Hi & _). rewrite length_take. lia. }
  destruct (brush_moves_inv base s activeId l r moves Ht Ha Hf Hty Him (σ, s) 0 cv)
    as (W1 & W2 & W3 & W4 & W5 & W6); cbn [fst snd]; try done.
  { cbn [replicate]. rewrite app_nil_r, last20_short; [done|].
    destruct Hwf as (_ & ? & _). subst base. rewrite length_take. lia. }
  set (c1 := foldl _ (σ, s) moves) in *.
  assert (c' = (c1.1, pushHistory c1.2 c1.2)) as Hc'.
  { subst c'. unfold brushGesture. cbv zeta. fold c1.
    unfold brushUp. rewrite W3, bool_decide_eq_true_2 by done.
    cbn [andb fmap list_fmap]. unfold run. cbn [foldl]. unfold dispatch. cbn [fst snd].
    unfold reducer. cbn [nextState]. done. }
  rewrite <- W2 in W5.
  destruct (push_same_chain base (0 + length moves) c1.2 W1 W5) as (V1 & V2 & V3 & V4 & V5 & V6).
  rewrite W2 in V5, V2.
  replace (S (0 + length moves)) with (length moves + 1) in V5 by lia.
  assert (layer_bitmap c'.1 l = Some painted) as Hpaint.
  { rewrite Hc'. cbn [fst]. unfold layer_bitmap. rewrite Him, W6. done. }
  rewrite Hc' in *. cbn [fst snd] in *.
  split_and!; [done|done|apply pushHistory_index|done|].
  intros Hm.
  assert (history (pushHistory c1.2 c1.2) = replicate 20 (layers s)) as Hall.
  { rewrite V5. unfold last20. rewrite length_app, length_replicate, Hlen.
    rewrite drop_app_ge by lia. rewrite drop_replicate. f_equal. lia. }
  split; [done|]. intros clocks. cbv zeta.
  destruct (undos_constant_history (layers s) 20 clocks (c1.1, pushHistory c1.2 c1.2))
    as [U1 U2]; cbn [fst snd]; [done| |done|].
  { destruct V1 as (Hi & _). rewrite Hall, length_replicate in Hi. done. }
  split; [done|]. by rewrite U2.
Qed.


(** *** Ownership of canvases *)

Lemma canvas_refs_cons (l : Layer) (ls : list Layer) :
  canvas_refs (l :: ls) =
    match canvas_of l with Some r => r :: canvas_refs ls | None => canvas_refs ls end.
Proof. done. Qed.

Lemma canvas_refs_map (f : Layer → Layer) (ls : list Layer) :
  (∀ l, canvas_of (f l) = canvas_of l) → canvas_refs (map f ls) = canvas_refs ls.
Proof.
  intros Hf. induction ls as [|l ls IH]; [done|].
  cbn [map]. by rewrite !canvas_refs_cons, Hf, IH.
Qed.

Lemma owns_nil (σ : Heap) : owns σ [].
Proof. split; [apply NoDup_nil_2|apply Forall_nil_2]. Qed.

Lemma owns_mono (σ σ' : Heap) (ls : list Layer) :
  length σ ≤ length σ' → owns σ ls → owns σ' ls.
Proof.
  intros Hle [Hnd Hall]. split; [done|].
  eapply Forall_impl; [exact Hall|]. cbn. lia.
Qed.

Lemma owns_refs (σ : Heap) (ls ls' : list Layer) :
  canvas_refs ls' = canvas_refs ls → owns σ ls → owns σ ls'.
Proof. unfold owns. by intros ->. Qed.

Lemma owns_perm (σ : Heap) (ls ls' : list Layer) :
  ls' ≡ₚ ls → owns σ ls → owns σ ls'.
Proof.
  intros Hp [Hnd Hall].
  assert (canvas_refs ls' ≡ₚ canvas_refs ls) as Hr by (by apply omap_Permutation).
  split; by rewrite Hr.
Qed.

Lemma owns_filter (σ : Heap) (P : Layer → Prop) `{!∀ l, Decision (P l)} (ls : list Layer) :
  owns σ ls → owns σ (filter P ls).
Proof.
  induction ls as [|l ls IH]; [done|]. intros [Hnd Hall].
  rewrite canvas_refs_cons in Hnd, Hall.
  assert (owns σ ls) as Hls.
  { destruct (canvas_of l); [|done].
    apply NoDup_cons in Hnd as [_ ?]. apply Forall_cons in Hall as [_ ?]. done. }
  specialize (IH Hls).
  rewrite filter_cons. case_decide; [|done].
  unfold owns. rewrite canvas_refs_cons.
  destruct (canvas_of l) as [r|]; [|done].
  apply NoDup_cons in Hnd as [Hr _]. apply Forall_cons in Hall as [Hlt _].
  destruct IH as [IH1 IH2]. split.
  - apply NoDup_cons. split; [|done]. intros Hin. apply Hr.
    apply list_elem_of_omap in Hin as (x & Hx & Hc).
    apply list_elem_of_omap. exists x. split; [|done].
    by apply list_elem_of_filter in Hx as [_ ?].
  - by apply Forall_cons.
Qed.

Lemma owns_cons (σ : Heap) (l : Layer) (ls : list Layer) :
  owns σ ls →
  (∀ r, canvas_of l = Some r → r < length σ ∧ r ∉ canvas_refs ls) →
  owns σ (l :: ls).
Proof.
  intros [Hnd Hall] Hl. unfold owns. rewrite canvas_refs_cons.
  destruct (canvas_of l) as [r|]; [|done].
  destruct (Hl r eq_refl) as [Hlt Hin]. split.
  - by apply NoDup_cons.
  - by apply Forall_cons.
Qed.

Lemma paint_length (f : bitmap → bitmap) (r : nat) (σ : Heap) :
  length (paint f r σ) = length σ.
Proof. unfold paint. destruct (σ !! r); [apply length_insert|done]. Qed.

Lemma duplicate_layer_owns now (σ : Heap) (l : Layer) (ls : list Layer) :
  owns σ ls →
  let d := duplicate_layer blank drawImage now σ l in
  length σ ≤ length d.1 ∧ owns d.1 (d.2 :: ls).
Proof.
  intros Hls d. subst d. unfold duplicate_layer, createOffscreenLayer.
  destruct (imageElement l) as [[r|r]|] eqn:Him; cbv beta iota zeta; cbn [fst snd].
  - split; [done|]. apply owns_cons; [done|]. unfold canvas_of. cbn. done.
  - assert (length (ctx_drawImage drawImage (length σ) r
                      (σ ++ [{| canvas_width := layer_width l;
                                canvas_height := layer_height l;
                                canvas_bitmap := blank (layer_width l) (layer_height l) |}])) =
              length σ + 1) as Hlen.
    { unfold ctx_drawImage. destruct (_ !! r); rewrite ?paint_length, length_app; done. }
    split; [lia|]. apply owns_cons.
    + apply (owns_mono σ); [lia|done].
    + unfold canvas_of. cbn. intros ? [= <-]. split; [lia|].
      destruct Hls as [_ Hall]. intros Hin.
      rewrite Forall_forall in Hall. specialize (Hall _ Hin). cbn in Hall. lia.
  - split; [done|]. apply owns_cons; [done|]. unfold canvas_of. cbn. done.
Qed.

Lemma nextState_reorder now σ s id d σ' ns :
  nextState now σ s (REORDER_LAYER id d) = Some (σ', ns) →
  σ' = σ ∧ layers ns ≡ₚ layers s.
Proof.
  cbn. destruct (findIndex_layer id (layers s)) as [i|] eqn:Hf; [|done].
  destruct (findIndex_layer_Some _ _ _ Hf) as (pre & a & post & Hls & Hlen & _).
  case_decide as Hd; intros [= <- <-]; [|done]. split; [done|].
  cbn [layers set_layers]. destruct d.
  - destruct (exists_last (l := pre)) as (pre' & b & ->).
    { intros ->. cbn in Hlen. lia. }
    rewrite length_app in Hlen. cbn [length] in Hlen.
    replace (Z.to_nat (Z.of_nat i - 1)) with (length pre') by lia.
    rewrite Hls, <- Hlen, <- !app_assoc. cbn [app].
    rewrite (proj2 (swap_layers_adjacent pre' post b a)).
    apply Permutation_app_head, perm_swap.
  - destruct post as [|b post].
    { rewrite Hls, length_app in Hd. cbn in Hd. lia. }
    replace (Z.to_nat (Z.of_nat i + 1)) with (length pre + 1) by lia.
    rewrite Hls, <- Hlen.
    rewrite (proj1 (swap_layers_adjacent pre post a b)).
    apply Permutation_app_head, perm_swap.
Qed.

Lemma nextState_owns now σ s a σ' ns :
  owns σ (layers s) → brings_own_canvas σ s a →
  nextState now σ s a = Some (σ', ns) →
  length σ ≤ length σ' ∧ owns σ' (layers ns) ∧ history ns = history s.
Proof.
  intros Hown Hb.
  destruct a; try (intros [= <- <-]; by split_and!).
  - (* ADD_LAYER *)
    intros [= <- <-]. split_and!; [done| |done]. by apply owns_cons.
  - (* REMOVE_LAYER *)
    intros [= <- <-]. split_and!; [done| |done]. by apply owns_filter.
  - (* DUPLICATE_LAYER *)
    cbn. destruct (find_layer payload (layers s)) as [l|]; [|intros [= <- <-]; by split_and!].
    pose proof (duplicate_layer_owns now σ l (layers s) Hown) as [Hlen Hnew].
    destruct (duplicate_layer blank drawImage now σ l) as [σ1 new].
    intros [= <- <-]. by split_and!.
  - (* UPDATE_LAYER *)
    intros [= <- <-]. split_and!; [done| |done]. cbn [layers set_layers].
    apply (owns_refs σ (layers s)); [|done]. apply canvas_refs_map.
    intros l. case_decide; [|done]. unfold canvas_of, merge_layer. cbn in *.
    by rewrite Hb.
  - (* REORDER_LAYER *)
    intros Hns. pose proof Hns as Hns'. apply nextState_reorder in Hns as [-> Hp].
    split_and!; [done|by apply (owns_perm σ (layers s))|].
    cbn in Hns'. destruct (findIndex_layer id (layers s)); [|done].
    case_decide; by simplify_eq.
  - (* CROP_CANVAS *)
    intros [= <- <-]. split_and!; [done| |done]. cbn [layers set_layers set_tool].
    apply (owns_refs σ (layers s)); [|done]. by apply canvas_refs_map.
  - (* SET_LAYER_FILTER *)
    intros [= <- <-]. split_and!; [done| |done]. cbn [layers set_layers].
    apply (owns_refs σ (layers s)); [|done]. apply canvas_refs_map.
    intros l. by case_decide.
  - (* UPDATE_LAYER_EFFECT *)
    intros [= <- <-]. split_and!; [done| |done]. cbn [layers set_layers].
    apply (owns_refs σ (layers s)); [|done]. apply canvas_refs_map.
    intros l. by case_decide.
Qed.

Lemma pushHistory_store_wf (σ σ' : Heap) (s ns : EditorState) :
  length σ ≤ length σ' →
  Forall (owns σ) (history s) → owns σ' (layers ns) →
  store_wf σ' (pushHistory s ns).
Proof.
  intros Hlen Hh Hns. split; [by rewrite pushHistory_layers|].
  assert (Forall (owns σ') (history s)) as Hh'.
  { eapply Forall_impl; [exact Hh|]. intros ls. by apply owns_mono. }
  rewrite pushHistory_history. cbv zeta.
  assert (Forall (owns σ') (take (historyIndex s + 1) (history s) ++ [layers ns])) as Hall.
  { apply Forall_app. split; [by apply Forall_take|]. by apply Forall_singleton. }
  case_decide; [by apply Forall_drop|done].
Qed.

Lemma canvas_refs_lookup (ls : list Layer) : ∀ (i j : nat) (a b : Layer) (r : nat),
  NoDup (canvas_refs ls) →
  ls !! i = Some a → ls !! j = Some b →
  canvas_of a = Some r → canvas_of b = Some r → i = j.
Proof.
  induction ls as [|l ls IH]; intros i j a b r Hnd Hi Hj Ha Hb; [done|].
  rewrite canvas_refs_cons in Hnd.
  assert (∀ k x, ls !! k = Some x → canvas_of x = Some r → r ∈ canvas_refs ls) as Hin.
  { intros k x Hk Hx. apply list_elem_of_omap. exists x. split; [|done].
    by apply list_elem_of_lookup_2 in Hk. }
  destruct i as [|i], j as [|j]; cbn in Hi, Hj.
  - done.
  - injection Hi as ->. rewrite Ha in Hnd. apply NoDup_cons in Hnd as [Hr _].
    destruct Hr. by apply (Hin j b).
  - injection Hj as ->. rewrite Hb in Hnd. apply NoDup_cons in Hnd as [Hr _].
    destruct Hr. by apply (Hin i a).
  - f_equal. apply (IH i j a b r); try done.
    destruct (canvas_of l); [by apply NoDup_cons in Hnd as [_ ?]|done].
Qed.

Lemma initialState_store_wf (σ : Heap) : store_wf σ initialState.
Proof. split; [apply owns_nil|]. apply Forall_singleton, owns_nil. Qed.

Lemma reducer_store_wf (now : Z) (σ : Heap) (s : EditorState) (a : EditorAction) :
  store_wf σ s → brings_own_canvas σ s a →
  length σ ≤ length (reducer now σ s a).1 ∧
  store_wf (reducer now σ s a).1 (reducer now σ s a).2.
Proof.
  intros [Hl Hh] Hb.
  assert (∀ i, owns σ (default [] (history s !! i))) as Hentry.
  { intros i. destruct (history s !! i) as [e|] eqn:E; [|apply owns_nil].
    cbn. by apply (Forall_lookup_1 _ _ _ _ Hh E). }
  destruct (commits s a) eqn:Hc.
  - destruct (commits_pushHistory blank drawImage now σ s a Hc) as (σ' & ns & Hns & ->).
    destruct (nextState_owns now σ s a σ' ns Hl Hb Hns) as (Hlen & Hown & _).
    cbn [fst snd]. split; [done|]. by apply (pushHistory_store_wf σ).
  - destruct a; try discriminate; unfold reducer; cbn [fst snd]; try by split.
    + cbn in Hc. apply bool_decide_eq_false in Hc. cbn.
      destruct (findIndex_layer id (layers s)) eqn:E; [exfalso; eauto|]. by split.
    + destruct (decide (0 < historyIndex s)); cbn [fst snd]; [|by split].
      split; [done|]. split; [apply Hentry|done].
    + destruct (decide (historyIndex s < length (history s) - 1)); cbn [fst snd];
        [|by split].
      split; [done|]. split; [apply Hentry|done].
Qed.

Lemma store_wf_mono (σ σ' : Heap) (s : EditorState) :
  length σ ≤ length σ' → store_wf σ s → store_wf σ' s.
Proof.
  intros Hlen [Hl Hh]. split; [by apply (owns_mono σ)|].
  eapply Forall_impl; [exact Hh|]. intros ls. by apply owns_mono.
Qed.

(** X7: no two layers of a document share a canvas.  The documents that
    the reducer builds keep every layer on a canvas of its own, and every
    history entry does, as long as a layer that is added comes with a
    canvas that no layer uses and no change set assigns a canvas; the
    duplicate of a layer gets a new canvas.  So the paint put on the canvas
    of one layer shows in no other layer of the document. *)
Theorem X7_canvas_ownership :
  (∀ σ : Heap, store_wf σ initialState) ∧
  (∀ (now : Z) (σ : Heap) (s : EditorState) (a : EditorAction),
     store_wf σ s → brings_own_canvas σ s a →
     let c' := reducer now σ s a in
     length σ ≤ length c'.1 ∧ store_wf c'.1 c'.2) ∧
  (∀ (σ : Heap) (s : EditorState) (i j : nat) (l1 l2 : Layer) (r : nat)
     (f : bitmap → bitmap),
     store_wf σ s →
     layers s !! i = Some l1 → layers s !! j = Some l2 → i ≠ j →
     canvas_of l1 = Some r →
     layer_bitmap (paint f r σ) l2 = layer_bitmap σ l2).
Proof.
  split_and!.
  - apply initialState_store_wf.
  - intros now σ s a Hwf Hb c'. by apply reducer_store_wf.
  - intros σ s i j l1 l2 r f [[Hnd _] _] Hi Hj Hij Hr.
    unfold layer_bitmap. destruct (imageElement l2) as [[r2|r2]|] eqn:Him; try done.
    rewrite paint_lookup_ne; [done|]. intros ->. apply Hij.
    apply (canvas_refs_lookup (layers s) i j l1 l2 r2); try done.
    unfold canvas_of. by rewrite Him.
Qed.

End ReducerExtras.


Lemma X2_reorder_layer_witness :
  let c := two_layers_lower_active in
  let c' := reducer toy_blank toy_drawImage 4 c.1 c.2 (REORDER_LAYER "2" up) in
  c'.1 = c.1 ∧ layers c'.2 ≡ₚ layers c.2 ∧ activeLayerId c'.2 = activeLayerId c.2.
Proof.
  destruct (X2_reorder_layer toy_blank toy_drawImage 4 two_layers_lower_active.1
              two_layers_lower_active.2 "2" up 1) as (H1 & H2 & H3 & _).
  - reflexivity.
  - split_and!; [exact H1|exact H2|exact H3].
Defined.

Lemma X6_brush_stroke_floods_history_witness :
  let l := sample_layer "5" (Some (HTMLCanvasElement 0)) in
  let c' := brushGesture toy_blank toy_drawImage
              [(7%Z, clear_bitmap); (8%Z, clear_bitmap)] 9%Z brush_on_layer_5 in
  layers c'.2 = layers brush_on_layer_5.2 ∧
  historyIndex c'.2 = length (history c'.2) - 1 ∧
  layer_bitmap c'.1 l = Some [0; 0; 0; 0]%Z.
Proof.
  destruct (X6_brush_stroke_floods_history toy_blank toy_drawImage
              [(7%Z, clear_bitmap); (8%Z, clear_bitmap)] 9%Z
              brush_on_layer_5.1 brush_on_layer_5.2 "5"
              (sample_layer "5" (Some (HTMLCanvasElement 0))) 0
              {| canvas_width := 800; canvas_height := 600;
                 canvas_bitmap := [255; 0; 0; 255]%Z |})
    as (H1 & _ & H3 & H4 & _).
  - unfold brush_on_layer_5, layer_at_5. apply run_wf, run_wf, initialState_wf.
  - left. reflexivity.
  - reflexivity.
  - reflexivity.
  - discriminate.
  - reflexivity.
  - reflexivity.
  - split_and!; [exact H1|exact H3|exact H4].
Defined.

(** ** More on the warp renderer *)

Lemma hypot_nonneg (a b : R) : (0 <= hypot a b)%R.
Proof. apply sqrt_pos. Qed.

Lemma hypot_scale (a b s : R) : (0 <= s)%R → hypot (a * s) (b * s) = (s * hypot a b)%R.
Proof.
  intros Hs. unfold hypot.
  replace (a * s * (a * s) + b * s * (b * s))%R with (s * s * (a * a + b * b))%R by ring.
  rewrite sqrt_mult; [|nra|nra]. by rewrite sqrt_square.
Qed.

(** X8: a vertex at distance 0.1 or more of the centroid is pushed away
    from it along the ray through the vertex, by 0.6 exactly. *)
Theorem X8_bloat_outward (cx cy : number) (p : Point) :
  let len := hypot (px p - cx) (py p - cy) in
  (0.1 <= len)%R →
  ∃ cp, bloat cx cy p = Some cp ∧
        distance cp {| px := cx; py := cy |} = (len + 0.6)%R ∧
        (px cp - cx = (1 + 0.6 / len) * (px p - cx))%R ∧
        (py cp - cy = (1 + 0.6 / len) * (py p - cy))%R.
Proof.
  intros len Hlen. unfold bloat. cbv zeta. fold (hypot (px p - cx) (py p - cy)). fold len.
  destruct (Rlt_dec len 0.1) as [Hlt|_]; [lra|].
  rewrite div_is_Some by lra. cbn.
  eexists. split; [done|]. unfold distance. cbn. split_and!; [|ring|ring].
  replace (cx + (px p - cx) * (1 + 0.6 / len) - cx)%R
    with ((px p - cx) * (1 + 0.6 / len))%R by ring.
  replace (cy + (py p - cy) * (1 + 0.6 / len) - cy)%R
    with ((py p - cy) * (1 + 0.6 / len))%R by ring.
  assert (0 < 0.6 / len)%R by (apply Rdiv_lt_0_compat; lra).
  rewrite hypot_scale by lra. fold len. field. lra.
Qed.

Lemma X8_bloat_outward_witness :
  ∃ cp, bloat 0 0 {| px := 3; py := 4 |} = Some cp ∧
        distance cp {| px := 0; py := 0 |} = (hypot (3 - 0) (4 - 0) + 0.6)%R.
Proof.
  destruct (X8_bloat_outward 0 0 {| px := 3; py := 4 |}) as (cp & H1 & H2 & _).
  - cbn. unfold hypot.
    replace ((3 - 0) * (3 - 0) + (4 - 0) * (4 - 0))%R with (5 * 5)%R by ring.
    rewrite sqrt_square; lra.
  - exists cp. split; [exact H1|exact H2].
Defined.

(** X9: the matrix that a triangle is drawn under sends the three corners
    of its half of the source cell to the three vertices it is given: for
    the upper triangle the top left, top right and bottom left corners of
    the cell go to [p0], [p1] and [p2], for the lower triangle the bottom
    right, top right and bottom left corners do. *)
Theorem X9_triangle_transform (im : ImageElement) (sx sy sw sh : number)
    (p0 p1 p2 : Point) :
  sw ≠ 0%R → sh ≠ 0%R →
  (∃ ops m,
     renderTriangleFixed im sx sy sw sh p0 p1 p2 true = Some ops ∧
     transform_of ops = Some m ∧
     apply_matrix m {| px := sx; py := sy |} = p0 ∧
     apply_matrix m {| px := (sx + sw)%R; py := sy |} = p1 ∧
     apply_matrix m {| px := sx; py := (sy + sh)%R |} = p2) ∧
  (∃ ops m,
     renderTriangleFixed im sx sy sw sh p0 p1 p2 false = Some ops ∧
     transform_of ops = Some m ∧
     apply_matrix m {| px := (sx + sw)%R; py := (sy + sh)%R |} = p0 ∧
     apply_matrix m {| px := (sx + sw)%R; py := sy |} = p1 ∧
     apply_matrix m {| px := sx; py := (sy + sh)%R |} = p2).
Proof.
  intros Hw Hh. unfold renderTriangleFixed. cbv zeta.
  destruct (bloat_is_Some ((px p0 + px p1 + px p2) / 3) ((py p0 + py p1 + py p2) / 3) p0)
    as [cp0 ->].
  destruct (bloat_is_Some ((px p0 + px p1 + px p2) / 3) ((py p0 + py p1 + py p2) / 3) p1)
    as [cp1 ->].
  destruct (bloat_is_Some ((px p0 + px p1 + px p2) / 3) ((py p0 + py p1 + py p2) / 3) p2)
    as [cp2 ->].
  rewrite !div_is_Some by done. cbn.
  destruct p0 as [x0 y0], p1 as [x1 y1], p2 as [x2 y2]. cbn.
  split.
  - repeat case_match; cbn;
      (eexists _, _; split; [done|]; split; [done|]);
      unfold apply_matrix; cbn; split_and!; f_equal; field; done.
  - repeat case_match; cbn;
      (eexists _, _; split; [done|]; split; [done|]);
      unfold apply_matrix; cbn; split_and!; f_equal; field; done.
Qed.

Lemma X9_triangle_transform_witness :
  ∃ ops m,
    renderTriangleFixed (HTMLCanvasElement 0) 0 0 10 10
      {| px := 1; py := 2 |} {| px := 31; py := 2 |} {| px := 1; py := 22 |} true = Some ops ∧
    transform_of ops = Some m ∧
    apply_matrix m {| px := (0 + 10)%R; py := 0 |} = {| px := 31; py := 2 |}.
Proof.
  destruct (X9_triangle_transform (HTMLCanvasElement 0) 0 0 10 10
              {| px := 1; py := 2 |} {| px := 31; py := 2 |} {| px := 1; py := 22 |})
    as [(ops & m & H1 & H2 & _ & H3 & _) _].
  - lra.
  - lra.
  - exists ops, m. split_and!; [exact H1|exact H2|exact H3].
Defined.

Lemma renderTriangleFixed_block im sx sy sw sh p0 p1 p2 isUpper :
  (0 <= sx)%R → (0 <= sy)%R → (0 < sw)%R → (0 < sh)%R →
  ∃ ops, renderTriangleFixed im sx sy sw sh p0 p1 p2 isUpper = Some ops ∧
         triangle_block ops.
Proof.
  intros Hx Hy Hw Hh. unfold renderTriangleFixed. cbv zeta.
  destruct (bloat_is_Some ((px p0 + px p1 + px p2) / 3) ((py p0 + py p1 + py p2) / 3) p0)
    as [cp0 ->].
  destruct (bloat_is_Some ((px p0 + px p1 + px p2) / 3) ((py p0 + py p1 + py p2) / 3) p1)
    as [cp1 ->].
  destruct (bloat_is_Some ((px p0 + px p1 + px p2) / 3) ((py p0 + py p1 + py p2) / 3) p2)
    as [cp2 ->].
  cbn. destruct isUpper; rewrite !div_is_Some by lra; cbn;
    repeat case_match; simplify_eq; try lra;
    (eexists; split; [done|]; unfold triangle_block; do 14 eexists;
     split; [reflexivity|split_and!; lra]).
Qed.

Lemma concat_blocks {A} (f : A → option (list CanvasOp)) (n : nat) (l : list A) :
  (∀ x, x ∈ l →
     ∃ bs, f x = Some (concat bs) ∧ length bs = n ∧ Forall triangle_block bs) →
  ∃ bs, (cells ← mapM f l; Some (concat cells)) = Some (concat bs) ∧
        length bs = n * length l ∧ Forall triangle_block bs.
Proof.
  induction l as [|x l IH]; intros Hf.
  - exists []. cbn. split_and!; [done|lia|done].
  - destruct (Hf x) as (b1 & Hx & Hn & Hb1); [left|].
    destruct IH as (bs & Hl & Hlen & Hbs).
    { intros y Hy. apply Hf. by right. }
    exists (b1 ++ bs). cbn. rewrite Hx. cbn.
    destruct (mapM f l) as [cells|]; [|done]. cbn in *.
    injection Hl as Hl. split_and!.
    + by rewrite concat_app, Hl.
    + rewrite length_app. lia.
    + by apply Forall_app.
Qed.

(** X10: for a source whose grid steps exceed 0.001 and for every quad,
    the warp renderer runs to the end and draws 800 triangles, each between
    a [save] and a [restore], with its clip path, one transform, and one
    [drawImage] whose source rectangle has a non-negative origin and a
    positive size and is also its destination rectangle. *)
Theorem X10_warp_mesh (image : ImageElement) (wp : WarpPoints)
    (originalWidth originalHeight : number) :
  (0.001 < originalWidth / 20)%R → (0.001 < originalHeight / 20)%R →
  ∃ blocks,
    renderWarpedLayer image wp originalWidth originalHeight = Some (concat blocks) ∧
    length blocks = 800 ∧
    Forall triangle_block blocks.
Proof.
  intros Hw Hh. unfold renderWarpedLayer. cbv zeta. rewrite INR_GRID_SIZE.
  destruct (Rle_dec (originalWidth / 20) 0.001) as [?|_]; [lra|].
  destruct (Rle_dec (originalHeight / 20) 0.001) as [?|_]; [lra|].
  destruct (concat_blocks
              (λ y, cells ← mapM (renderCell image wp originalWidth originalHeight y)
                                 (seq 0 GRID_SIZE);
                    Some (concat cells)) 40 (seq 0 GRID_SIZE)) as (blocks & H1 & H2 & H3).
  - intros y _.
    destruct (concat_blocks (renderCell image wp originalWidth originalHeight y) 2
                (seq 0 GRID_SIZE)) as (bs & B1 & B2 & B3).
    + intros x _. unfold renderCell. cbv zeta. rewrite INR_GRID_SIZE.
      assert (0 <= INR x * (1.0 / 20) * originalWidth)%R as Hsx.
      { pose proof (pos_INR x). apply Rmult_le_pos; [|lra]. apply Rmult_le_pos; lra. }
      assert (0 <= INR y * (1.0 / 20) * originalHeight)%R as Hsy.
      { pose proof (pos_INR y). apply Rmult_le_pos; [|lra]. apply Rmult_le_pos; lra. }
      match goal with
      | |- context [renderTriangleFixed ?im ?sx ?sy ?sw ?sh ?p0 ?p1 ?p2 true] =>
          destruct (renderTriangleFixed_block im sx sy sw sh p0 p1 p2 true)
            as (upper & -> & Hupper); [done|done|lra|lra|]
      end.
      match goal with
      | |- context [renderTriangleFixed ?im ?sx ?sy ?sw ?sh ?p0 ?p1 ?p2 false] =>
          destruct (renderTriangleFixed_block im sx sy sw sh p0 p1 p2 false)
            as (lower & -> & Hlower); [done|done|lra|lra|]
      end.
      exists [upper; lower]. cbn. rewrite app_nil_r. split_and!; [done|done|].
      by repeat constructor.
    + exists bs. split_and!; [done|by rewrite B2, length_seq|done].
  - exists blocks. split_and!; [done|by rewrite H2, length_seq|done].
Qed.

Lemma X10_warp_mesh_witness :
  ∃ blocks,
    renderWarpedLayer (HTMLCanvasElement 0) (box_corners (turned_layer 0)) 100 50 =
      Some (concat blocks) ∧
    length blocks = 800.
Proof.
  destruct (X10_warp_mesh (HTMLCanvasElement 0) (box_corners (turned_layer 0)) 100 50)
    as (blocks & H1 & H2 & _).
  - lra.
  - lra.
  - exists blocks. split; [exact H1|exact H2].
Defined.

Lemma one_point_zero : 1.0%R = 1%R.
Proof. lra. Qed.

Lemma getWarpedPoint_initialWarp (l : Layer) (u v : number) :
  getWarpedPoint u v (initialWarp l) =
    rotate_about (box_center l) (radians (rotation l))
      {| px := (layer_x l + u * layer_width l)%R;
         py := (layer_y l + v * layer_height l)%R |}.
Proof.
  unfold getWarpedPoint, initialWarp, rotatePoint, rotate_about, rotation_matrix,
    box_center, radians, lerp.
  rewrite or_zero_id. cbn. f_equal; field.
Qed.

Lemma bind_concat_elem {A} (f : A → option (list CanvasOp)) (l : list A)
    (ops : list CanvasOp) (op : CanvasOp) :
  (cells ← mapM f l; Some (concat cells)) = Some ops → op ∈ ops →
  ∃ x ops', x ∈ l ∧ f x = Some ops' ∧ op ∈ ops'.
Proof.
  revert ops. induction l as [|x l IH]; intros ops; cbn.
  - intros [= <-] Hin. by apply elem_of_nil in Hin.
  - destruct (f x) as [ops1|] eqn:Hx; [|done]. cbn.
    destruct (mapM f l) as [cells|] eqn:Hl; [|done]. cbn.
    intros [= <-] [Hin|Hin]%elem_of_app.
    + exists x, ops1. split_and!; [left|done|done].
    + destruct (IH (concat cells)) as (y & ops' & Hy & Hfy & Hop); [done|done|].
      exists y, ops'. split_and!; [by right|done|done].
Qed.

Lemma renderTriangleFixed_transform im sx sy sw sh p0 p1 p2 isUpper ops a b c d e f :
  renderTriangleFixed im sx sy sw sh p0 p1 p2 isUpper = Some ops →
  Op_transform a b c d e f ∈ ops →
  sw ≠ 0%R ∧ sh ≠ 0%R ∧
  if isUpper
  then a = ((px p1 - px p0) / sw)%R ∧ b = ((py p1 - py p0) / sw)%R ∧
       c = ((px p2 - px p0) / sh)%R ∧ d = ((py p2 - py p0) / sh)%R ∧
       e = (px p0 - a * sx - c * sy)%R ∧ f = (py p0 - b * sx - d * sy)%R
  else a = ((px p0 - px p2) / sw)%R ∧ b = ((py p0 - py p2) / sw)%R ∧
       c = ((px p0 - px p1) / sh)%R ∧ d = ((py p0 - py p1) / sh)%R ∧
       e = (px p0 - a * (sx + sw) - c * (sy + sh))%R ∧
       f = (py p0 - b * (sx + sw) - d * (sy + sh))%R.
Proof.
  unfold renderTriangleFixed, div. cbv zeta.
  destruct (bloat_is_Some ((px p0 + px p1 + px p2) / 3) ((py p0 + py p1 + py p2) / 3) p0)
    as [cp0 ->].
  destruct (bloat_is_Some ((px p0 + px p1 + px p2) / 3) ((py p0 + py p1 + py p2) / 3) p1)
    as [cp1 ->].
  destruct (bloat_is_Some ((px p0 + px p1 + px p2) / 3) ((py p0 + py p1 + py p2) / 3) p2)
    as [cp2 ->].
  cbn.
  destruct isUpper, (Req_dec_T sw 0), (Req_dec_T sh 0); cbn; try discriminate;
    repeat case_match; simplify_eq; cbn; intros [= <-] Hin;
    repeat (apply elem_of_cons in Hin as [Hin|Hin]; [try discriminate Hin|]);
    try (by apply elem_of_nil in Hin);
    injection Hin as -> -> -> -> -> ->; by split_and!.
Qed.

(** X11: the quad that the warp tool gives to a layer makes the warp
    renderer draw the layer where the unwarped renderer draws it.  The
    bilinear map of the quad sends the point [(u, v)] of the unit square to
    the point [(x + u w, y + v h)] of the box of the layer, turned about
    the centre of the box by the rotation of the layer; and each of the
    triangles of the warp renderer is drawn under the matrix under which
    the unwarped renderer draws the image. *)
Theorem X11_initial_warp_is_seamless (l : Layer) :
  (∀ u v : number,
     getWarpedPoint u v (initialWarp l) =
       rotate_about (box_center l) (radians (rotation l))
         {| px := (layer_x l + u * layer_width l)%R;
            py := (layer_y l + v * layer_height l)%R |}) ∧
  (∀ (image : ImageElement) (imageWidth imageHeight : number) (ops : list CanvasOp)
     (a b c d e f : number),
     renderWarpedLayer image (initialWarp l) imageWidth imageHeight = Some ops →
     Op_transform a b c d e f ∈ ops →
     ctx_transform a b c d e f identity_matrix = layerImageMatrix l imageWidth imageHeight).
Proof.
  split; [apply getWarpedPoint_initialWarp|].
  intros image W H ops a b c d e f Hops Hin.
  unfold renderWarpedLayer in Hops. cbv zeta in Hops. rewrite INR_GRID_SIZE in Hops.
  destruct (Rle_dec (W / 20) 0.001) as [?|HW].
  { injection Hops as <-. by apply elem_of_nil in Hin. }
  destruct (Rle_dec (H / 20) 0.001) as [?|HH].
  { injection Hops as <-. by apply elem_of_nil in Hin. }
  destruct (bind_concat_elem _ _ _ _ Hops Hin) as (y & row & _ & Hrow & Hin1).
  destruct (bind_concat_elem _ _ _ _ Hrow Hin1) as (x & cell & _ & Hcell & Hin2).
  clear Hops Hrow Hin Hin1.
  unfold renderCell in Hcell. cbv zeta in Hcell.
  rewrite INR_GRID_SIZE, one_point_zero in Hcell.
  rewrite !getWarpedPoint_initialWarp in Hcell.
  set (θ := radians (rotation l)) in *.
  assert (layerImageMatrix l W H =
            ctx_scale (layer_width l / W) (layer_height l / H)
              (ctx_translate (- layer_width l / 2) (- layer_height l / 2)
                 (ctx_rotate θ
                    (ctx_translate (layer_x l + layer_width l / 2)
                       (layer_y l + layer_height l / 2) identity_matrix)))) as ->.
  { unfold layerImageMatrix. cbv zeta. destruct (decide (rotation l = 0%R)) as [H0|]; [|done].
    subst θ. unfold radians. rewrite H0.
    replace (0 * PI / 180)%R with 0%R by lra.
    unfold ctx_scale, ctx_translate, ctx_rotate, ctx_transform, identity_matrix. cbn.
    rewrite cos_0, sin_0. f_equal; lra. }
  match type of Hcell with
  | context [renderTriangleFixed ?im ?sx ?sy ?sw ?sh ?p0 ?p1 ?p2 true] =>
      destruct (renderTriangleFixed im sx sy sw sh p0 p1 p2 true) as [upper|] eqn:Hup;
        [|done]
  end.
  match type of Hcell with
  | context [renderTriangleFixed ?im ?sx ?sy ?sw ?sh ?p0 ?p1 ?p2 false] =>
      destruct (renderTriangleFixed im sx sy sw sh p0 p1 p2 false) as [lower|] eqn:Hlo;
        [|done]
  end.
  cbn in Hcell. injection Hcell as <-.
  assert (W ≠ 0%R) by lra. assert (H ≠ 0%R) by lra.
  unfold ctx_scale, ctx_translate, ctx_rotate, ctx_transform, identity_matrix. cbn.
  apply elem_of_app in Hin2 as [Hin2|Hin2].
  - destruct (renderTriangleFixed_transform _ _ _ _ _ _ _ _ _ _ _ _ _ _ _ _ Hup Hin2)
      as (_ & _ & -> & -> & -> & -> & -> & ->).
    unfold rotate_about, rotation_matrix, box_center. cbn. f_equal; field; done.
  - destruct (renderTriangleFixed_transform _ _ _ _ _ _ _ _ _ _ _ _ _ _ _ _ Hlo Hin2)
      as (_ & _ & -> & -> & -> & -> & -> & ->).
    unfold rotate_about, rotation_matrix, box_center. cbn. f_equal; field; done.
Qed.

(** ** More on the glitch operator *)

Lemma applyGlitch_floor (data : list Z) (n : nat) (q : Q) :
  length data = 4 * n → (0 < q)%Q →
  applyGlitch data q =
    foldl (glitch_step data (Z.of_nat (Z.to_nat (Qfloor q)) * 4)) data
      ((λ i, 4 * i) <$> seq 0 n).
Proof.
  intros Hlen Hq. unfold applyGlitch.
  assert (Qle_bool q 0 = false) as ->.
  { apply not_true_is_false. intros H%Qle_bool_iff. by apply Qlt_not_le in Hq. }
  assert (0 <= Qfloor q)%Z as Hfl.
  { change 0%Z with (Qfloor 0). apply Qfloor_resp_le. by apply Qlt_le_weak. }
  rewrite Z2Nat.id by done. unfold pixel_starts. rewrite Hlen.
  replace ((4 * n + 3) `div` 4) with n; [done|].
  apply Nat.div_unique with 3; lia.
Qed.

Lemma glitch_unchanged (data out : list Z) (n k : nat) :
  length data = 4 * n →
  glitch_inv data n k n out →
  (∀ p c, p < n → c < 4 → glitch_expected data n k p c = pixel_channel data p c) →
  out = data.
Proof.
  intros Hlen [Hl Hinv] Hsame. apply list_eq. intros i.
  destruct (decide (i < 4 * n)) as [Hi|Hi].
  - replace i with (4 * (i `div` 4) + i `mod` 4) by (symmetry; apply Nat.div_mod_eq).
    assert (i `div` 4 < n) as Hp by (apply Nat.Div0.div_lt_upper_bound; lia).
    assert (i `mod` 4 < 4) as Hc by (apply Nat.mod_upper_bound; lia).
    rewrite Hinv by done. rewrite decide_True by done.
    rewrite Hsame by done. symmetry. by apply pixel_channel_lookup with n.
  - rewrite !lookup_ge_None_2; [done|lia|lia].
Qed.

(** X12: the glitch operator for any offset.  The offset acts through its
    integer part [k]: red comes from [k] pixels earlier and blue from [k]
    pixels later in the row-major sequence.  The buffer keeps its length,
    and every byte of the result is a byte of the input.  An offset below 1
    and an offset of the number of pixels or more leave the buffer as it
    is. *)
Theorem X12_glitch_any_offset (data : list Z) (n : nat) :
  length data = 4 * n →
  (∀ q : Q, (0 < q)%Q →
     let k := Z.to_nat (Qfloor q) in
     let out := applyGlitch data q in
     length out = length data ∧
     (∀ p c, p < n → c < 4 → pixel_channel out p c = glitch_expected data n k p c) ∧
     (∀ b, b ∈ out → b ∈ data) ∧
     out = applyGlitch data (inject_Z (Qfloor q))) ∧
  (∀ q : Q, (q < 1)%Q → applyGlitch data q = data) ∧
  (∀ q : Q, (inject_Z (Z.of_nat n) <= q)%Q → applyGlitch data q = data).
Proof.
  intros Hlen.
  assert (∀ q : Q, (0 < q)%Q →
            glitch_inv data n (Z.to_nat (Qfloor q)) n (applyGlitch data q)) as Hinv.
  { intros q Hq. rewrite (applyGlitch_floor data n q Hlen Hq).
    apply (glitch_loop_inv data n _ n 0 data Hlen); [lia|].
    by apply glitch_inv_init. }
  assert (∀ q : Q, (0 < q)%Q → (0 <= Qfloor q)%Z) as Hfl.
  { intros q Hq. change 0%Z with (Qfloor 0). apply Qfloor_resp_le. by apply Qlt_le_weak. }
  split_and!.
  - intros q Hq k out. destruct (Hinv q Hq) as [Hl Hpix]. fold out in Hl, Hpix. fold k in Hpix.
    split_and!.
    + lia.
    + intros p c Hp Hc. unfold pixel_channel at 1. rewrite Hpix by done.
      by rewrite decide_True.
    + intros b Hb. apply list_elem_of_lookup in Hb as [i Hi].
      assert (i < 4 * n) as Hlt by (apply lookup_lt_Some in Hi; lia).
      replace i with (4 * (i `div` 4) + i `mod` 4) in Hi
        by (symmetry; apply Nat.div_mod_eq).
      assert (i `div` 4 < n) as Hp by (apply Nat.Div0.div_lt_upper_bound; lia).
      assert (i `mod` 4 < 4) as Hc by (apply Nat.mod_upper_bound; lia).
      remember (i `div` 4) as p eqn:Ep. remember (i `mod` 4) as c eqn:Ec. clear Ep Ec.
      rewrite Hpix in Hi by done. rewrite decide_True in Hi by done.
      injection Hi as <-.
      assert (∀ p' c', p' < n → c' < 4 → pixel_channel data p' c' ∈ data) as Hdata.
      { intros p' c' Hp' Hc'. apply (list_elem_of_lookup_2 _ (4 * p' + c')).
        by apply pixel_channel_lookup with n. }
      unfold glitch_expected.
      destruct c as [|[|[|c]]]; try (apply Hdata; lia).
      * case_decide; apply Hdata; lia.
      * case_decide; apply Hdata; lia.
    + subst out. destruct (decide (Qfloor q = 0%Z)) as [H0|H0].
      * rewrite H0. change (applyGlitch data (inject_Z 0)) with data.
        apply (glitch_unchanged data _ n (Z.to_nat (Qfloor q)) Hlen (Hinv q Hq)).
        intros p c Hp Hc. rewrite H0. unfold glitch_expected. cbn.
        destruct c as [|[|[|c]]]; try done.
        -- rewrite decide_True by lia. f_equal. lia.
        -- case_decide; [|done]. f_equal. lia.
      * assert (0 < inject_Z (Qfloor q))%Q as Hpos.
        { specialize (Hfl q Hq). unfold Qlt, inject_Z. cbn. lia. }
        rewrite (applyGlitch_floor data n q Hlen Hq).
        rewrite (applyGlitch_floor data n _ Hlen Hpos). by rewrite Qfloor_Z.
  - intros q Hq1. destruct (Qlt_le_dec 0 q) as [Hq|Hq].
    + apply (glitch_unchanged data _ n (Z.to_nat (Qfloor q)) Hlen (Hinv q Hq)).
      assert (Qfloor q = 0%Z) as H0.
      { specialize (Hfl q Hq).
        assert (inject_Z (Qfloor q) < inject_Z 1)%Q as Hlt.
        { apply Qle_lt_trans with q; [apply Qfloor_le|done]. }
        rewrite <- Zlt_Qlt in Hlt. lia. }
      intros p c Hp Hc. rewrite H0. unfold glitch_expected. cbn.
      destruct c as [|[|[|c]]]; try done.
      * rewrite decide_True by lia. f_equal. lia.
      * case_decide; [|done]. f_equal. lia.
    + unfold applyGlitch. by rewrite (proj2 (Qle_bool_iff q 0) Hq).
  - intros q Hq.
    assert (Z.of_nat n <= Qfloor q)%Z as Hn.
    { rewrite <- (Qfloor_Z (Z.of_nat n)). by apply Qfloor_resp_le. }
    destruct (Qlt_le_dec 0 q) as [Hq0|Hq0].
    + apply (glitch_unchanged data _ n (Z.to_nat (Qfloor q)) Hlen (Hinv q Hq0)).
      intros p c Hp Hc. unfold glitch_expected.
      destruct c as [|[|[|c]]]; try done.
      * by rewrite decide_False by lia.
      * by rewrite decide_False by lia.
    + unfold applyGlitch. by rewrite (proj2 (Qle_bool_iff q 0) Hq0).
Qed.

Lemma X12_glitch_any_offset_witness :
  applyGlitch glitch_sample (1 # 2) = glitch_sample ∧
  applyGlitch glitch_sample (9 # 2) = glitch_sample.
Proof.
  destruct (X12_glitch_any_offset glitch_sample 4 eq_refl) as (_ & H1 & H2).
  split.
  - apply H1. reflexivity.
  - apply H2. unfold Qle. cbn. lia.
Defined.

(** ** Scanlines, the shared buffer and the box of a text layer *)











Section TextBox.

Context {bitmap : Type}.
Variable blank : number → number → bitmap.
Variable drawImage : bitmap → bitmap → bitmap.
Variable measureText : FontStyle → FontWeight → number → string → string → number.

Local Abbreviation measureTextLayer := (measureTextLayer measureText).
Local Abbreviation text_box := (text_box measureText).
Local Abbreviation handleUpdateLayer := (handleUpdateLayer measureText).


Lemma text_box_merge (t : string) (l : Layer) (c : LayerChanges) (size : Size) :
  text_box t (merge_layer l (set_changes_size size c)) = text_box t (merge_layer l c).
Proof. done. Qed.

(** X16: the box of a text layer follows its typography.  When a change
    set touches the text, the font or the stroke of a text layer and leaves
    it a text that is not empty, [handleUpdateLayer] replaces the width and
    the height of the change set by the box of the new typography, so that
    after the update the layer has the box of its own text.  A change set
    that touches none of these, or that is for a layer that is not a text
    layer, is dispatched as it is. *)
Theorem X16_text_layer_resize (now : Z) (σ : Heap bitmap) (s : EditorState)
    (id : string) (changes : LayerChanges) (l : Layer) :
  find_layer id (layers s) = Some l →
  c_id changes = None →
  let c' := run blank drawImage (σ, s) ((λ a, (now, a)) <$> handleUpdateLayer s id changes) in
  (layer_type l = L_text → needsResize changes = true →
   ∀ t, text (merge_layer l changes) ≫= or_null = Some t →
     ∃ l', find_layer id (layers c'.2) = Some l' ∧
           text l' ≫= or_null = Some t ∧
           {| width := layer_width l'; height := layer_height l' |} = text_box t l' ∧
           fontSize l' = fontSize (merge_layer l changes) ∧
           layer_x l' = layer_x (merge_layer l changes)) ∧
  (layer_type l ≠ L_text ∨ needsResize changes = false →
   handleUpdateLayer s id changes = [UPDATE_LAYER id changes]).
Proof.
  intros Hf Hid c'. split.
  - intros Hty Hneeds t Ht. subst c'.
    unfold handleUpdateLayer. cbv zeta.
    rewrite Hf, bool_decide_eq_true_2, Hneeds by done. cbn [andb]. rewrite Ht.
    set (size := text_box t (merge_layer l changes)).
    cbn [fmap list_fmap]. unfold run. cbn [foldl]. unfold dispatch. cbn [fst snd].
    unfold reducer. cbn [nextState snd]. rewrite pushHistory_layers. cbn [layers set_layers].
    exists (merge_layer l (set_changes_size size changes)).
    split_and!.
    + rewrite (find_layer_map id
                 (λ l0, if decide (layer_id l0 = id)
                        then merge_layer l0 (set_changes_size size changes) else l0)
                 (layers s) l); [| |done].
      * destruct (find_layer_Some _ _ _ Hf) as [_ Hl]. by rewrite decide_True.
      * intros l0. case_decide; [|done]. cbn. by rewrite Hid.
    + exact Ht.
    + rewrite text_box_merge. fold size. by destruct size.
    + done.
    + done.
  - intros Hno. unfold handleUpdateLayer. cbv zeta. rewrite Hf.
    destruct Hno as [Hty|Hno].
    + by rewrite bool_decide_eq_false_2.
    + rewrite Hno. by rewrite andb_false_r.
Qed.

End TextBox.


Lemma X16_text_layer_resize_witness :
  let changes := changes_text "Hello" in
  let c' := run toy_blank toy_drawImage ([], text_state)
              ((λ a, (4%Z, a)) <$> handleUpdateLayer toy_measureText text_state "3" changes) in
  ∃ l', find_layer "3" (layers c'.2) = Some l' ∧
        text l' ≫= or_null = Some "Hello" ∧
        {| width := layer_width l'; height := layer_height l' |} =
          text_box toy_measureText "Hello" l'.
Proof.
  destruct (X16_text_layer_resize toy_blank toy_drawImage toy_measureText 4 [] text_state
              "3" (changes_text "Hello") (sample_text_layer "3")) as [H _].
  - reflexivity.
  - reflexivity.
  - destruct (H eq_refl eq_refl "Hello" eq_refl) as (l' & H1 & H2 & H3 & _).
    exists l'. split_and!; [exact H1|exact H2|exact H3].
Defined.

(** ** The view and the hit tests *)

(** X17: [getCanvasCoordinates] undoes the view.  When the pixels of the
    canvas element are the device pixels of its box, a point of the
    document that the render loop draws under the pointer is the point that
    [getCanvasCoordinates] returns for the pointer, and the render loop
    draws the point that it returns where the pointer is.  A pan by the
    movement of the pointer moves every point of the document, as drawn, by
    that movement. *)
Theorem X17_pointer_coordinates (dpr canvas_w canvas_h : number) (rect : DOMRect)
    (state : EditorState) :
  dpr ≠ 0%R → zoom state ≠ 0%R →
  dom_width rect ≠ 0%R → dom_height rect ≠ 0%R →
  canvas_w = (dom_width rect * dpr)%R → canvas_h = (dom_height rect * dpr)%R →
  let shown st p := clientPosition rect canvas_w canvas_h
                      (apply_matrix (viewMatrix dpr canvas_w canvas_h st) p) in
  let pointer e := {| px := clientX e; py := clientY e |} in
  (∀ p e, shown state p = pointer e → getCanvasCoordinates rect state e = p) ∧
  (∀ e, shown state (getCanvasCoordinates rect state e) = pointer e) ∧
  (∀ p e, shown (set_pan {| px := (px (pan state) + movementX e)%R;
                            py := (py (pan state) + movementY e)%R |} state) p =
          {| px := (px (shown state p) + movementX e)%R;
             py := (py (shown state p) + movementY e)%R |}).
Proof.
  intros Hd Hz Hw Hh -> -> shown pointer. subst shown pointer.
  unfold clientPosition, apply_matrix, viewMatrix, getCanvasCoordinates,
    ctx_scale, ctx_translate, ctx_transform, identity_matrix.
  cbn. split_and!.
  - intros [x y] e [= Hx Hy]. cbn in Hx, Hy. rewrite <- Hx, <- Hy.
    f_equal; field; done.
  - intros e. f_equal; field; done.
  - intros [x y] e. cbn. f_equal; field; done.
Qed.

Lemma X17_pointer_coordinates_witness :
  clientPosition sample_rect 2000 1400
    (apply_matrix (viewMatrix 2 2000 1400 initialState)
       (getCanvasCoordinates sample_rect initialState (pointer_at 400 300))) =
  {| px := 400; py := 300 |}.
Proof.
  destruct (X17_pointer_coordinates 2 2000 1400 sample_rect initialState)
    as (_ & H & _); cbn; try lra.
  exact (H (pointer_at 400 300)).
Defined.

Lemma inverse_rotation (θ x y : R) :
  let dx := (x * cos θ - y * sin θ)%R in
  let dy := (x * sin θ + y * cos θ)%R in
  (dx * cos (- θ) - dy * sin (- θ) = x)%R ∧ (dx * sin (- θ) + dy * cos (- θ) = y)%R.
Proof.
  cbv zeta. rewrite cos_neg, sin_neg. pose proof (sin_cos_unit θ) as H. split.
  - replace ((x * cos θ - y * sin θ) * cos θ - (x * sin θ + y * cos θ) * - sin θ)%R
      with (x * (sin θ * sin θ + cos θ * cos θ))%R by ring.
    rewrite H. ring.
  - replace ((x * cos θ - y * sin θ) * - sin θ + (x * sin θ + y * cos θ) * cos θ)%R
      with (y * (sin θ * sin θ + cos θ * cos θ))%R by ring.
    rewrite H. ring.
Qed.

Lemma controlsMatrix_apply (layer : Layer) (lx ly : number) :
  let θ := (or_zero (rotation layer) * PI / 180)%R in
  apply_matrix (controlsMatrix layer identity_matrix) {| px := lx; py := ly |} =
    {| px := (layer_x layer + layer_width layer / 2 + (lx * cos θ - ly * sin θ))%R;
       py := (layer_y layer + layer_height layer / 2 + (lx * sin θ + ly * cos θ))%R |}.
Proof.
  unfold controlsMatrix, apply_matrix, ctx_rotate, ctx_translate, ctx_transform,
    identity_matrix. cbn. f_equal; ring.
Qed.

(** The hit test of the move tool, at the point where the matrix of the
    controls puts the point [(lx, ly)] of their coordinates. *)
Lemma getHandleAtPosition_local (state : EditorState) (layer : Layer) (lx ly : number) :
  let p := apply_matrix (controlsMatrix layer identity_matrix) {| px := lx; py := ly |} in
  let w := layer_width layer in
  let h := layer_height layer in
  let threshold := (10 / zoom state)%R in
  getHandleAtPosition state (px p) (py p) layer =
  if decide (Rabs (lx - (- w / 2)) < threshold ∧ Rabs (ly - (- h / 2)) < threshold)%R
  then Some H_tl
  else if decide (Rabs (lx - w / 2) < threshold ∧ Rabs (ly - (- h / 2)) < threshold)%R
  then Some H_tr
  else if decide (Rabs (lx - w / 2) < threshold ∧ Rabs (ly - h / 2) < threshold)%R
  then Some H_br
  else if decide (Rabs (lx - (- w / 2)) < threshold ∧ Rabs (ly - h / 2) < threshold)%R
  then Some H_bl
  else if decide (Rabs (lx - 0) < threshold ∧
                  Rabs (ly - (- h / 2 - 20 / zoom state)) < threshold)%R
  then Some H_rot
  else if decide (lx >= - w / 2 ∧ lx <= w / 2 ∧ ly >= - h / 2 ∧ ly <= h / 2)%R
  then Some H_body
  else None.
Proof.
  cbv zeta. rewrite controlsMatrix_apply. cbv zeta.
  unfold getHandleAtPosition. cbv zeta. cbn [px py].
  set (θ := (or_zero (rotation layer) * PI / 180)%R).
  replace (- or_zero (rotation layer) * PI / 180)%R with (- θ)%R by (subst θ; field).
  destruct (inverse_rotation θ lx ly) as [Hx Hy]. cbv zeta in Hx, Hy.
  set (cx := (layer_x layer + layer_width layer / 2)%R).
  set (cy := (layer_y layer + layer_height layer / 2)%R).
  replace (cx + (lx * cos θ - ly * sin θ) - cx)%R with (lx * cos θ - ly * sin θ)%R by ring.
  replace (cy + (lx * sin θ + ly * cos θ) - cy)%R with (lx * sin θ + ly * cos θ)%R by ring.
  by rewrite Hx, Hy.
Qed.

Ltac solve_abs :=
  unfold Rabs in *;
  repeat match goal with
         | |- context [Rcase_abs ?x] => destruct (Rcase_abs x)
         | H : context [Rcase_abs ?x] |- _ => destruct (Rcase_abs x)
         end;
  lra.

(** X18: the hit test of the move tool finds the handles where the render
    loop draws them.  For a box that is at least as wide and as high as the
    threshold of 10 pixels of the screen, the centre of each of the four
    corner squares, and of the circle above the box, is a point at which
    [getHandleAtPosition] answers with that handle, whatever the rotation
    of the layer; the centre of a box that is twice as wide is on the body.
    The top left corner is found on a box of any size, and on a box smaller
    than the threshold in both directions it is the answer at every
    corner. *)
Theorem X18_handles_where_drawn (state : EditorState) (layer : Layer) :
  (0 < zoom state)%R →
  let threshold := (10 / zoom state)%R in
  let at_ c := let p := apply_matrix (controlsMatrix layer identity_matrix) c in
               getHandleAtPosition state (px p) (py p) layer in
  (∀ c, (H_tl, c) ∈ drawnHandles state layer → at_ c = Some H_tl) ∧
  ((threshold <= layer_width layer)%R → (threshold <= layer_height layer)%R →
   ∀ h c, (h, c) ∈ drawnHandles state layer → at_ c = Some h) ∧
  ((2 * threshold <= layer_width layer)%R → (0 <= layer_height layer)%R →
   at_ {| px := 0; py := 0 |} = Some H_body) ∧
  ((0 <= layer_width layer < threshold)%R → (0 <= layer_height layer < threshold)%R →
   ∀ h c, (h, c) ∈ drawnHandles state layer → h ≠ H_rot → at_ c = Some H_tl).
Proof.
  intros Hz threshold at_.
  assert (0 < threshold)%R as Ht by (subst threshold; apply Rdiv_lt_0_compat; lra).
  assert (20 / zoom state = 2 * threshold)%R as H20 by (subst threshold; field; lra).
  assert (∀ lx ly, at_ {| px := lx; py := ly |} = _) as Hlocal
    by (intros lx ly; apply (getHandleAtPosition_local state layer lx ly)).
  cbv zeta in Hlocal. fold threshold in Hlocal. rewrite H20 in Hlocal.
  assert (∀ h c, (h, c) ∈ drawnHandles state layer →
            (h, c) = (H_tl, {| px := (- layer_width layer / 2)%R;
                               py := (- layer_height layer / 2)%R |}) ∨
            (h, c) = (H_tr, {| px := (layer_width layer / 2)%R;
                               py := (- layer_height layer / 2)%R |}) ∨
            (h, c) = (H_br, {| px := (layer_width layer / 2)%R;
                               py := (layer_height layer / 2)%R |}) ∨
            (h, c) = (H_bl, {| px := (- layer_width layer / 2)%R;
                               py := (layer_height layer / 2)%R |}) ∨
            (h, c) = (H_rot, {| px := 0%R;
                                py := (- layer_height layer / 2 - 2 * threshold)%R |}))
    as Hdrawn.
  { intros h c Hin. unfold drawnHandles in Hin. cbv zeta in Hin. rewrite H20 in Hin.
    repeat (apply elem_of_cons in Hin as [Hin|Hin]; [by eauto 6|]).
    by apply elem_of_nil in Hin. }
  set (w := layer_width layer) in *. set (h := layer_height layer) in *.
  split_and!.
  - intros c Hin.
    destruct (Hdrawn _ _ Hin) as [E|[E|[E|[E|E]]]]; try discriminate E.
    injection E as ->. rewrite Hlocal. rewrite decide_True; [done|]. split; solve_abs.
  - intros Hw Hh hd c Hin.
    destruct (Hdrawn _ _ Hin) as [E|[E|[E|[E|E]]]]; injection E as -> ->; rewrite Hlocal.
    + rewrite decide_True; [done|]. split; solve_abs.
    + rewrite decide_False by (intros [? ?]; solve_abs).
      rewrite decide_True; [done|]. split; solve_abs.
    + rewrite decide_False by (intros [? ?]; solve_abs).
      rewrite decide_False by (intros [? ?]; solve_abs).
      rewrite decide_True; [done|]. split; solve_abs.
    + rewrite decide_False by (intros [? ?]; solve_abs).
      rewrite decide_False by (intros [? ?]; solve_abs).
      rewrite decide_False by (intros [? ?]; solve_abs).
      rewrite decide_True; [done|]. split; solve_abs.
    + rewrite decide_False by (intros [? ?]; solve_abs).
      rewrite decide_False by (intros [? ?]; solve_abs).
      rewrite decide_False by (intros [? ?]; solve_abs).
      rewrite decide_False by (intros [? ?]; solve_abs).
      rewrite decide_True; [done|]. split; solve_abs.
  - intros Hw Hh. rewrite Hlocal.
    rewrite decide_False by (intros [? ?]; solve_abs).
    rewrite decide_False by (intros [? ?]; solve_abs).
    rewrite decide_False by (intros [? ?]; solve_abs).
    rewrite decide_False by (intros [? ?]; solve_abs).
    rewrite decide_False by (intros [? ?]; solve_abs).
    rewrite decide_True; [done|]. lra.
  - intros Hw Hh hd c Hin Hrot.
    destruct (Hdrawn _ _ Hin) as [E|[E|[E|[E|E]]]]; injection E as -> ->; rewrite Hlocal;
      try done; (rewrite decide_True; [done|]; split; solve_abs).
Qed.

Lemma X18_handles_where_drawn_witness :
  let layer := turned_layer 30 in
  let p := apply_matrix (controlsMatrix layer identity_matrix)
             {| px := (100 / 2)%R; py := (50 / 2)%R |} in
  getHandleAtPosition (turned_state 30) (px p) (py p) layer = Some H_br.
Proof.
  destruct (X18_handles_where_drawn (turned_state 30) (turned_layer 30)) as (_ & H & _).
  - cbn. lra.
  - apply (H ltac:(cbn; lra) ltac:(cbn; lra) H_br {| px := (100 / 2)%R; py := (50 / 2)%R |}).
    unfold drawnHandles. cbn. do 2 apply list_elem_of_further. apply list_elem_of_here.
Defined.

Lemma layerImageMatrix_apply (layer : Layer) (imageWidth imageHeight : number) (u v : number) :
  let θ := (rotation layer * PI / 180)%R in
  let lx := (u * (layer_width layer / imageWidth) - layer_width layer / 2)%R in
  let ly := (v * (layer_height layer / imageHeight) - layer_height layer / 2)%R in
  apply_matrix (layerImageMatrix layer imageWidth imageHeight) {| px := u; py := v |} =
    {| px := (layer_x layer + layer_width layer / 2 + (lx * cos θ - ly * sin θ))%R;
       py := (layer_y layer + layer_height layer / 2 + (lx * sin θ + ly * cos θ))%R |}.
Proof.
  cbv zeta. unfold layerImageMatrix. cbv zeta.
  destruct (decide (rotation layer = 0%R)) as [H0|_].
  - rewrite H0. replace (0 * PI / 180)%R with 0%R by lra. rewrite cos_0, sin_0.
    unfold apply_matrix, ctx_scale, ctx_translate, ctx_transform, identity_matrix. cbn.
    f_equal; unfold Rdiv; ring.
  - unfold apply_matrix, ctx_scale, ctx_rotate, ctx_translate, ctx_transform,
      identity_matrix. cbn. f_equal; unfold Rdiv; ring.
Qed.

Lemma brushPoint_local (layer : Layer) (coords : Point) :
  let θ := (rotation layer * PI / 180)%R in
  let dx := (px coords - (layer_x layer + layer_width layer / 2))%R in
  let dy := (py coords - (layer_y layer + layer_height layer / 2))%R in
  brushPoint layer coords =
    {| px := (dx * cos θ + dy * sin θ + layer_width layer / 2)%R;
       py := (- dx * sin θ + dy * cos θ + layer_height layer / 2)%R |}.
Proof.
  cbv zeta. unfold brushPoint. cbv zeta. rewrite or_zero_id.
  replace (- rotation layer * PI / 180)%R with (- (rotation layer * PI / 180))%R by field.
  rewrite cos_neg, sin_neg. f_equal; ring.
Qed.

(** X24: the brush paints under the pointer on a layer that has the size
    of its canvas.  The point of the canvas that the brush draws on is the
    point that the unwarped renderer shows at the pointer.  On a layer that
    was resized, by any factor other than 1, it is not: a stroke at the
    centre of the box shows away from the centre. *)
Theorem X24_brush_under_pointer (layer : Layer) (imageWidth imageHeight : number) :
  layer_width layer ≠ 0%R → layer_height layer ≠ 0%R →
  (imageWidth = layer_width layer → imageHeight = layer_height layer →
   ∀ coords,
     apply_matrix (layerImageMatrix layer imageWidth imageHeight) (brushPoint layer coords)
     = coords) ∧
  (∀ k : number, k ≠ 1%R → imageWidth ≠ 0%R → imageHeight ≠ 0%R →
     layer_width layer = (k * imageWidth)%R → layer_height layer = (k * imageHeight)%R →
     apply_matrix (layerImageMatrix layer imageWidth imageHeight)
       (brushPoint layer (box_center layer))
     ≠ box_center layer).
Proof.
  intros Hw Hh. split.
  - intros -> -> [x y]. rewrite brushPoint_local. cbv zeta.
    rewrite layerImageMatrix_apply. cbv zeta. cbn [px py].
    set (θ := (rotation layer * PI / 180)%R).
    pose proof (sin_cos_unit θ) as Hu.
    set (dx := (x - (layer_x layer + layer_width layer / 2))%R).
    set (dy := (y - (layer_y layer + layer_height layer / 2))%R).
    replace ((dx * cos θ + dy * sin θ + layer_width layer / 2) *
             (layer_width layer / layer_width layer) - layer_width layer / 2)%R
      with (dx * cos θ + dy * sin θ)%R by (field; done).
    replace ((- dx * sin θ + dy * cos θ + layer_height layer / 2) *
             (layer_height layer / layer_height layer) - layer_height layer / 2)%R
      with (- dx * sin θ + dy * cos θ)%R by (field; done).
    f_equal.
    + replace ((dx * cos θ + dy * sin θ) * cos θ - (- dx * sin θ + dy * cos θ) * sin θ)%R
        with (dx * (sin θ * sin θ + cos θ * cos θ))%R by ring.
      rewrite Hu. subst dx. ring.
    + replace ((dx * cos θ + dy * sin θ) * sin θ + (- dx * sin θ + dy * cos θ) * cos θ)%R
        with (dy * (sin θ * sin θ + cos θ * cos θ))%R by ring.
      rewrite Hu. subst dy. ring.
  - intros k Hk HW HH Ew Eh. rewrite brushPoint_local. cbv zeta.
    rewrite layerImageMatrix_apply. cbv zeta. unfold box_center. cbn [px py].
    set (θ := (rotation layer * PI / 180)%R).
    pose proof (sin_cos_unit θ) as Hu.
    set (cx := (layer_x layer + layer_width layer / 2)%R).
    set (cy := (layer_y layer + layer_height layer / 2)%R).
    intros [= Hx Hy].
    set (a := ((k - 1) * (layer_width layer / 2))%R).
    set (b := ((k - 1) * (layer_height layer / 2))%R).
    assert (a * cos θ - b * sin θ = 0)%R as H1.
    { subst a b. rewrite Ew, Eh in *.
      apply (Rplus_eq_reg_l cx). rewrite Rplus_0_r. rewrite <- Hx at 2.
      f_equal. field. done. }
    assert (a * sin θ + b * cos θ = 0)%R as H2.
    { subst a b. rewrite Ew, Eh in *.
      apply (Rplus_eq_reg_l cy). rewrite Rplus_0_r. rewrite <- Hy at 2.
      f_equal. field. done. }
    assert (a = 0)%R as Ha.
    { replace a with (a * (sin θ * sin θ + cos θ * cos θ))%R by (rewrite Hu; ring).
      replace (a * (sin θ * sin θ + cos θ * cos θ))%R
        with ((a * cos θ - b * sin θ) * cos θ + (a * sin θ + b * cos θ) * sin θ)%R by ring.
      rewrite H1, H2. ring. }
    subst a. apply Rmult_integral in Ha as [Ha|Ha]; lra.
Qed.

Lemma X24_brush_under_pointer_witness :
  apply_matrix (layerImageMatrix (turned_layer 30) 100 50)
    (brushPoint (turned_layer 30) {| px := 40; py := 60 |}) = {| px := 40; py := 60 |}.
Proof.
  destruct (X24_brush_under_pointer (turned_layer 30) 100 50) as [H _].
  - cbn. lra.
  - cbn. lra.
  - apply H; reflexivity.
Defined.

(** ** The zoom *)


(** ** Pointer gestures *)

Lemma hypot_0 : hypot 0 0 = 0%R.
Proof. unfold hypot. replace (0 * 0 + 0 * 0)%R with 0%R by ring. apply sqrt_0. Qed.

Lemma activeLayer_Some (state : EditorState) (l : Layer) :
  activeLayer state = Some l →
  ∃ id, activeLayerId state ≫= or_null = Some id ∧
        find_layer id (layers state) = Some l ∧ layer_id l = id.
Proof.
  unfold activeLayer. destruct (activeLayerId state ≫= or_null) as [id|]; [|done].
  cbn. intros Hf. exists id. split_and!; [done|done|].
  by destruct (find_layer_Some _ _ _ Hf).
Qed.


(** Settles the guards of a handler that the context decides. *)
Ltac decide_guards :=
  repeat match goal with
         | |- context [bool_decide ?P] =>
             first [rewrite (bool_decide_eq_true_2 P) by (done || by eexists)
                   |rewrite (bool_decide_eq_false_2 P)
                      by (done || congruence || by intros [?|?])]
         end.

Section Gestures.

Context {bitmap : Type}.
Variable blank : number → number → bitmap.
Variable drawImage : bitmap → bitmap → bitmap.
Variable measureText : FontStyle → FontWeight → number → string → string → number.
Variable Math_atan2 : number → number → number.

Local Abbreviation Heap := (list (@Canvas bitmap)).
Local Abbreviation reducer := (reducer blank drawImage).
Local Abbreviation run := (run blank drawImage).
Local Abbreviation mouseDown := (handleMouseDown blank measureText).
Local Abbreviation mouseMove := (@handleMouseMove bitmap measureText Math_atan2).
Local Abbreviation pointerMove := (onMouseMove blank drawImage measureText Math_atan2).

Lemma onUpdateLayer_plain (state : EditorState) (id : string) (changes : LayerChanges) :
  needsResize changes = false →
  onUpdateLayer measureText state id changes = [UPDATE_LAYER id changes].
Proof.
  intros Hn. unfold onUpdateLayer, handleUpdateLayer. cbv zeta. rewrite Hn.
  destruct (find_layer id (layers state)); [|done]. by rewrite andb_false_r.
Qed.

(** The update of the active layer by a change set that keeps its id. *)
Lemma update_active_layer (now : Z) (σ : Heap) (state : EditorState) (l : Layer)
    (changes : LayerChanges) :
  activeLayer state = Some l → c_id changes = None →
  let c' := reducer now σ state (UPDATE_LAYER (layer_id l) changes) in
  c'.1 = σ ∧ activeLayer c'.2 = Some (merge_layer l changes) ∧
  tool c'.2 = tool state ∧ zoom c'.2 = zoom state ∧ pan c'.2 = pan state ∧
  canvasSize c'.2 = canvasSize state ∧
  (history_wf state →
   history_wf c'.2 ∧ historyIndex c'.2 = Nat.min (historyIndex state + 1) 19).
Proof.
  intros Ha Hid c'. subst c'.
  destruct (activeLayer_Some state l Ha) as (id & Hact & Hf & Hl).
  unfold reducer. cbn [nextState fst snd]. split_and!; try done.
  - unfold activeLayer. cbn [activeLayerId pushHistory set_history set_layers].
    rewrite Hact. cbn [mbind option_bind]. rewrite Hl, pushHistory_layers.
    cbn [layers set_layers].
    rewrite (find_layer_map id
               (λ l0, if decide (layer_id l0 = id) then merge_layer l0 changes else l0)
               (layers state) l); [| |done].
    + by rewrite decide_True.
    + intros l0. case_decide; [|done]. cbn. by rewrite Hid.
  - intros Hwf. split; [by apply pushHistory_wf|].
    rewrite pushHistory_index. destruct Hwf as (Hi & Hlen & _).
    rewrite pushHistory_length by done. lia.
Qed.

(** X19: the drag of a corner of the warp quad.  A pointer move of the
    drag dispatches one update of the active layer, which puts the corner
    that is dragged at the pointer and leaves the three other corners, the
    box and the canvas of the layer as they are; the update is committed to
    the history.  After it, the hit test of the warp tool finds a handle at
    the pointer. *)
Theorem X19_warp_drag (stroke : bitmap → bitmap) (rect : DOMRect) (g : Gesture)
    (σ : Heap) (state : EditorState) (te : Z * MouseEvent)
    (l : Layer) (wp : WarpPoints) (h : Handle) :
  isDragging g = true → activeHandle g = Some h → h ≠ H_pan →
  tool state = T_warp → activeLayer state = Some l → warpPoints l = Some wp →
  let coords := getCanvasCoordinates rect state te.2 in
  let w' := pointerMove stroke rect (g, (σ, state)) te in
  let wp' := moveCorner h coords wp in
  w'.1 = g ∧ w'.2.1 = σ ∧
  (∃ l', activeLayer w'.2.2 = Some l' ∧ warpPoints l' = Some wp' ∧
         layer_x l' = layer_x l ∧ layer_y l' = layer_y l ∧
         layer_width l' = layer_width l ∧ layer_height l' = layer_height l ∧
         rotation l' = rotation l ∧ imageElement l' = imageElement l) ∧
  (h = H_tl → wp' = {| tl := coords; tr := tr wp; bl := bl wp; br := br wp |}) ∧
  (h = H_tr → wp' = {| tl := tl wp; tr := coords; bl := bl wp; br := br wp |}) ∧
  (h = H_bl → wp' = {| tl := tl wp; tr := tr wp; bl := coords; br := br wp |}) ∧
  (h = H_br → wp' = {| tl := tl wp; tr := tr wp; bl := bl wp; br := coords |}) ∧
  (history_wf state → historyIndex w'.2.2 = Nat.min (historyIndex state + 1) 19) ∧
  ((0 < zoom state)%R → h = H_tl ∨ h = H_tr ∨ h = H_bl ∨ h = H_br →
   is_Some (getWarpHandleAtPosition w'.2.2 (px coords) (py coords) wp')).
Proof.
  intros Hd Hh Hpan Htool Ha Hwp coords w' wp'.
  destruct (activeLayer_Some state l Ha) as (id & Hact & Hf & Hl).
  assert (mouseMove stroke rect g σ state te.2 =
            (g, σ, [UPDATE_LAYER (layer_id l) (changes_warpPoints wp')])) as Hmove.
  { unfold handleMouseMove. cbv zeta. rewrite Hd, Hh, Htool, Ha, Hwp, Hact.
    decide_guards. cbn [andb]. by rewrite onUpdateLayer_plain. }
  assert (w' = (g, reducer te.1 σ state (UPDATE_LAYER (layer_id l) (changes_warpPoints wp'))))
    as Hw'.
  { subst w'. unfold onMouseMove. cbn [fst snd]. by rewrite Hmove. }
  destruct (update_active_layer te.1 σ state l (changes_warpPoints wp') Ha eq_refl)
    as (U1 & U2 & U3 & U4 & U5 & U6 & U7).
  rewrite Hw'. cbn [fst snd]. split_and!.
  - done.
  - done.
  - eexists. split; [exact U2|]. by split_and!.
  - intros ->. done.
  - intros ->. done.
  - intros ->. done.
  - intros ->. done.
  - intros Hwf. by destruct (U7 Hwf).
  - intros Hz Hcorner.
    assert (0 < 10 / zoom state)%R as Ht by (apply Rdiv_lt_0_compat; lra).
    unfold getWarpHandleAtPosition. cbv zeta. rewrite U4.
    assert (∀ p : Point, p = coords →
              (hypot (px coords - px p) (py coords - py p) < 10 / zoom state)%R) as Hhit.
    { intros p ->. rewrite !Rminus_diag, hypot_0. done. }
    subst wp'. unfold moveCorner. cbn [tl tr bl br].
    repeat case_match; try by eexists.
    all: exfalso.
    all: try match goal with
             | H : ¬ (hypot (px ?c - px ?c) _ < _)%R |- _ =>
                 apply H; by apply Hhit
             end.
    all: destruct Hcorner as [-> | [-> | [-> | ->]]]; congruence.
Qed.


(** X21: the drag of a corner handle of the move tool resizes the layer
    about its centre.  The width and the height of the layer when the drag
    began are multiplied by the ratio of the distances of the pointer and
    of the start of the drag to the centre of the box; the centre, the
    rotation and the proportions are kept.  A pointer on the centre gives
    the layer a width and a height of zero. *)
Theorem X21_resize_drag (stroke : bitmap → bitmap) (rect : DOMRect) (g : Gesture)
    (σ : Heap) (state : EditorState) (te : Z * MouseEvent)
    (l initial : Layer) (h : Handle) :
  isDragging g = true → activeHandle g = Some h →
  h = H_tl ∨ h = H_tr ∨ h = H_br ∨ h = H_bl →
  initialLayerState g = Some initial →
  layer_width initial ≠ 0%R → layer_height initial ≠ 0%R →
  tool state = T_move → activeLayer state = Some l →
  distance (startPos g) (box_center l) ≠ 0%R →
  let coords := getCanvasCoordinates rect state te.2 in
  let scale := (distance coords (box_center l) / distance (startPos g) (box_center l))%R in
  let w' := pointerMove stroke rect (g, (σ, state)) te in
  ∃ l', activeLayer w'.2.2 = Some l' ∧
        layer_width l' = (layer_width initial * scale)%R ∧
        layer_height l' = (layer_height initial * scale)%R ∧
        box_center l' = box_center l ∧
        rotation l' = rotation l ∧
        (layer_width l' * layer_height initial = layer_height l' * layer_width initial)%R ∧
        (0 <= scale)%R ∧
        (coords = box_center l → layer_width l' = 0%R ∧ layer_height l' = 0%R).
Proof.
  intros Hd Hh Hcorner Hinit Hw0 Hh0 Htool Ha Hstart coords scale w'.
  destruct (activeLayer_Some state l Ha) as (id & Hact & Hf & Hl).
  set (newWidth := (layer_width initial * scale)%R).
  set (newHeight := (layer_height initial * scale)%R).
  set (cx := (layer_x l + layer_width l / 2)%R).
  set (cy := (layer_y l + layer_height l / 2)%R).
  set (changes := changes_box newWidth newHeight (cx - newWidth / 2) (cy - newHeight / 2)).
  assert (mouseMove stroke rect g σ state te.2 =
            (set_lastMousePos coords g, σ, [UPDATE_LAYER (layer_id l) changes])) as Hmove.
  { unfold handleMouseMove. cbv zeta. rewrite Hd, Hh, Htool, Ha, Hact, Hinit.
    unfold brushMove. rewrite Htool.
    destruct Hcorner as [-> | [-> | [-> | ->]]]; decide_guards;
      rewrite ?andb_false_r; cbn [andb fst snd];
      rewrite decide_True by done; rewrite onUpdateLayer_plain by done;
      by rewrite app_nil_r. }
  assert (w' = (set_lastMousePos coords g,
                reducer te.1 σ state (UPDATE_LAYER (layer_id l) changes))) as Hw'.
  { subst w'. unfold onMouseMove. cbn [fst snd]. by rewrite Hmove. }
  destruct (update_active_layer te.1 σ state l changes Ha eq_refl) as (_ & U2 & _).
  rewrite Hw'. cbn [fst snd].
  assert (0 <= scale)%R as Hs.
  { subst scale. unfold distance.
    apply Rmult_le_pos; [apply hypot_nonneg|].
    apply Rlt_le, Rinv_0_lt_compat.
    pose proof (hypot_nonneg (px (startPos g) - px (box_center l))
                  (py (startPos g) - py (box_center l))) as Hn.
    unfold distance in Hstart. lra. }
  eexists. split; [exact U2|]. cbn. split_and!.
  - done.
  - done.
  - unfold box_center. cbn. fold cx cy. f_equal; lra.
  - done.
  - subst newWidth newHeight. ring.
  - done.
  - intros Hc. subst newWidth newHeight scale. rewrite Hc. unfold distance.
    rewrite !Rminus_diag, hypot_0. split; field; exact Hstart.
Qed.

(** X22: the crop gesture.  With the crop tool, a press at one point, a
    drag to another and the Enter key crop the canvas to the rectangle that
    the two points span, whichever way the drag went: its origin is the
    lesser of the coordinates and its size their distance, which is
    positive.  When the two points have an equal coordinate, Enter does
    nothing.  The press does not clear the active handle: the gesture
    starts with no pan under way, as a release of the pointer leaves it. *)
Theorem X22_crop_gesture (now : Z) (stroke : bitmap → bitmap) (rect : DOMRect)
    (g : Gesture) (σ : Heap) (state : EditorState) (press drag : MouseEvent) :
  tool state = T_crop → button press = 0 → shiftKey press = false →
  activeHandle g ≠ Some H_pan →
  let a := getCanvasCoordinates rect state press in
  let b := getCanvasCoordinates rect state drag in
  let pressed := mouseDown now rect g σ state press in
  let dragged := mouseMove stroke rect pressed.1.1 pressed.1.2 state drag in
  let entered := cropKeyDown dragged.1.1 state "Enter" in
  pressed.2 = [] ∧ dragged.2 = [] ∧
  (px a ≠ px b → py a ≠ py b →
   entered.2 =
     [CROP_CANVAS {| rect_x := Rmin (px a) (px b); rect_y := Rmin (py a) (py b);
                     rect_width := Rabs (px b - px a);
                     rect_height := Rabs (py b - py a) |}] ∧
   (0 < Rabs (px b - px a))%R ∧ (0 < Rabs (py b - py a))%R ∧
   cropRect entered.1 = None) ∧
  (px a = px b ∨ py a = py b → entered.2 = [] ∧ entered.1 = dragged.1.1).
Proof.
  intros Htool Hb Hs Hpan a b pressed dragged entered.
  assert (pressed =
            (set_cropRect (Some {| rect_x := px a; rect_y := py a;
                                   rect_width := 0; rect_height := 0 |})
               (set_isDragging (set_positions a g)), σ, [])) as Hp.
  { subst pressed. unfold handleMouseDown. cbv zeta. rewrite Hb, Hs, Htool.
    decide_guards. by rewrite andb_false_r. }
  assert (dragged =
            (set_cropRect (Some {| rect_x := px a; rect_y := py a;
                                   rect_width := (px b - px a)%R;
                                   rect_height := (py b - py a)%R |}) pressed.1.1,
             σ, [])) as Hdr.
  { subst dragged. rewrite Hp. cbn [fst snd]. unfold handleMouseMove. cbv zeta.
    cbn [isDragging activeHandle cropRect startPos set_cropRect set_isDragging set_positions].
    rewrite Htool. decide_guards. cbn [andb fmap option_fmap option_map].
    done. }
  split_and!.
  - by rewrite Hp.
  - by rewrite Hdr.
  - intros Hx Hy. subst entered. rewrite Hdr. cbn [fst snd]. unfold cropKeyDown.
    cbn [cropRect set_cropRect rect_x rect_y rect_width rect_height]. rewrite Htool.
    decide_guards. cbn [andb].
    assert (0 < Rabs (px b - px a))%R as Hw by (apply Rabs_pos_lt; lra).
    assert (0 < Rabs (py b - py a))%R as Hh by (apply Rabs_pos_lt; lra).
    rewrite decide_True by (split; lra). cbn [fst snd cropRect set_cropRect].
    split_and!; [|done|done|done].
    f_equal. f_equal. f_equal.
    + unfold Rmin. case_decide; destruct (Rle_dec (px a) (px b)); lra.
    + unfold Rmin. case_decide; destruct (Rle_dec (py a) (py b)); lra.
  - intros Hdeg. subst entered. rewrite Hdr. cbn [fst snd]. unfold cropKeyDown.
    cbn [cropRect set_cropRect rect_x rect_y rect_width rect_height]. rewrite Htool.
    decide_guards. cbn [andb].
    rewrite decide_False; [done|]. intros [Hw Hh].
    destruct Hdeg as [E|E]; rewrite E, Rminus_diag, Rabs_R0 in *; lra.
Qed.

End Gestures.

Lemma X19_warp_drag_witness :
  let e := pointer_at 400 300 in
  let coords := getCanvasCoordinates sample_rect warp_state e in
  let w' := onMouseMove toy_blank toy_drawImage toy_measureText atan2 (λ b, b) sample_rect
              (dragging H_tl (tl box_quad) warped_layer, (sample_heap, warp_state))
              (9%Z, e) in
  ∃ l', activeLayer w'.2.2 = Some l' ∧
        warpPoints l' = Some {| tl := coords; tr := tr box_quad;
                                bl := bl box_quad; br := br box_quad |}.
Proof.
  destruct (X19_warp_drag toy_blank toy_drawImage toy_measureText atan2 (λ b, b) sample_rect
              (dragging H_tl (tl box_quad) warped_layer) sample_heap warp_state
              (9%Z, pointer_at 400 300) warped_layer box_quad H_tl)
    as (_ & _ & (l' & H1 & H2 & _) & _);
    [reflexivity|reflexivity|discriminate|reflexivity|reflexivity|reflexivity|].
  exists l'. split; [exact H1|]. rewrite H2. reflexivity.
Defined.



Lemma X21_resize_drag_witness :
  let start := {| px := 110; py := 70 |} in
  let w' := onMouseMove toy_blank toy_drawImage toy_measureText atan2 (λ b, b) sample_rect
              (dragging H_br start (turned_layer 0), (sample_heap, turned_state 0))
              (9%Z, pointer_at 400 300) in
  ∃ l', activeLayer w'.2.2 = Some l' ∧
        box_center l' = box_center (turned_layer 0) ∧
        (layer_width l' * 50 = layer_height l' * 100)%R.
Proof.
  destruct (X21_resize_drag toy_blank toy_drawImage toy_measureText atan2 (λ b, b) sample_rect
              (dragging H_br {| px := 110; py := 70 |} (turned_layer 0))
              sample_heap (turned_state 0) (9%Z, pointer_at 400 300)
              (turned_layer 0) (turned_layer 0) H_br)
    as (l' & H1 & _ & _ & H4 & _ & H6 & _).
  - reflexivity.
  - reflexivity.
  - right. right. left. reflexivity.
  - reflexivity.
  - cbn. lra.
  - cbn. lra.
  - reflexivity.
  - reflexivity.
  - unfold distance, hypot. cbn. intros H. apply sqrt_eq_0 in H; lra.
  - exists l'. split_and!; [exact H1|exact H4|exact H6].
Defined.

Lemma X22_crop_gesture_witness :
  let state := set_tool T_crop initialState in
  let a := getCanvasCoordinates sample_rect state (pointer_at 600 400) in
  let b := getCanvasCoordinates sample_rect state (pointer_at 500 450) in
  let pressed := handleMouseDown toy_blank toy_measureText 7 sample_rect idle sample_heap
                   state (pointer_at 600 400) in
  let dragged := handleMouseMove toy_measureText atan2 (λ b, b) sample_rect
                   pressed.1.1 pressed.1.2 state (pointer_at 500 450) in
  (cropKeyDown dragged.1.1 state "Enter").2 =
    [CROP_CANVAS {| rect_x := Rmin (px a) (px b); rect_y := Rmin (py a) (py b);
                    rect_width := Rabs (px b - px a);
                    rect_height := Rabs (py b - py a) |}].
Proof.
  destruct (X22_crop_gesture toy_blank toy_measureText atan2 7 (λ b, b)
              sample_rect idle sample_heap (set_tool T_crop initialState)
              (pointer_at 600 400) (pointer_at 500 450))
    as (_ & _ & H & _); [reflexivity|reflexivity|reflexivity|discriminate|].
  destruct H as (H & _); [cbn; lra|cbn; lra|exact H].
Defined.

(** ** The canvases of the layers that the handlers add *)

Section Ownership.

Context {bitmap : Type}.
Variable blank : number → number → bitmap.
Variable drawImage : bitmap → bitmap → bitmap.
Variable measureText : FontStyle → FontWeight → number → string → string → number.
Variable Math_atan2 : number → number → number.

Local Abbreviation Heap := (list (@Canvas bitmap)).
Local Abbreviation reducer := (reducer blank drawImage).
Local Abbreviation run := (run blank drawImage).

Lemma keeps_brings_own_canvas (σ : Heap) (s : EditorState) (a : EditorAction) :
  keeps_canvases a → brings_own_canvas σ s a.
Proof. destruct a; try done. cbn. intros -> r. done. Qed.

Lemma run_keeps_canvases (acts : list (Z * EditorAction)) (σ : Heap) (s : EditorState) :
  store_wf σ s → Forall (λ a, keeps_canvases a.2) acts →
  length σ ≤ length (run (σ, s) acts).1 ∧
  store_wf (run (σ, s) acts).1 (run (σ, s) acts).2.
Proof.
  revert σ s. induction acts as [|a acts IH]; intros σ s Hwf Hall.
  - done.
  - apply Forall_cons in Hall as [Ha Hall].
    destruct (reducer_store_wf blank drawImage a.1 σ s a.2 Hwf
                (keeps_brings_own_canvas σ s a.2 Ha)) as [Hlen Hwf'].
    unfold run. cbn [foldl]. unfold dispatch at 2 4 6. cbn [fst snd].
    destruct (reducer a.1 σ s a.2) as [σ1 s1] eqn:E. cbn [fst snd] in *.
    destruct (IH σ1 s1 Hwf' Hall) as [Hlen' Hwf'']. split; [|done].
    unfold run in Hlen'. lia.
Qed.

(** A layer on a canvas that was created after the layers of the document
    is added. *)
Lemma add_fresh_store_wf (now : Z) (σ σ' : Heap) (s s' : EditorState) (l : Layer) :
  store_wf σ s → store_wf σ' s' → layers s' = layers s → length σ < length σ' →
  canvas_of l = Some (length σ) ∨ canvas_of l = None →
  length σ ≤ length (reducer now σ' s' (ADD_LAYER l)).1 ∧
  store_wf (reducer now σ' s' (ADD_LAYER l)).1 (reducer now σ' s' (ADD_LAYER l)).2.
Proof.
  intros Hwf Hwf' Hlayers Hlen Hl.
  destruct (reducer_store_wf blank drawImage now σ' s' (ADD_LAYER l)) as [H1 H2].
  - done.
  - intros r Hr. destruct Hl as [Hl|Hl]; rewrite Hl in Hr; [|done].
    injection Hr as <-. split; [done|]. rewrite Hlayers.
    intros Hin. destruct Hwf as [[_ Hall] _].
    rewrite Forall_forall in Hall. specialize (Hall _ Hin). cbn in Hall. lia.
  - split; [lia|done].
Qed.

Lemma onUpdateLayer_keeps (state : EditorState) (id : string) (changes : LayerChanges) :
  c_imageElement changes = None →
  Forall keeps_canvases (onUpdateLayer measureText state id changes).
Proof.
  intros Hc. unfold onUpdateLayer, handleUpdateLayer. cbv zeta.
  apply Forall_singleton. cbn.
  repeat case_match; done.
Qed.

Lemma brushMove_keeps (stroke : bitmap → bitmap) (d : bool) (σ : Heap) (s : EditorState) :
  length (brushMove stroke d σ s).1 = length σ ∧
  Forall keeps_canvases (brushMove stroke d σ s).2.
Proof.
  unfold brushMove.
  repeat case_match; cbn [fst snd];
    (split; [done || apply paint_length | by constructor || by apply Forall_singleton]).
Qed.

Lemma handleMouseMove_keeps (stroke : bitmap → bitmap) (rect : DOMRect) (g : Gesture)
    (σ : Heap) (s : EditorState) (e : MouseEvent) :
  let m := handleMouseMove measureText Math_atan2 stroke rect g σ s e in
  length m.1.2 = length σ ∧ Forall keeps_canvases m.2.
Proof.
  cbv zeta. unfold handleMouseMove. cbv zeta.
  pose proof (brushMove_keeps stroke (isDrawing g) σ s) as [Hb1 Hb2].
  repeat case_match; simplify_eq; cbn [fst snd];
    (split; [done|]);
    repeat first [ apply Forall_nil_2
                 | apply Forall_app_2
                 | by apply onUpdateLayer_keeps
                 | exact Hb2
                 | by apply Forall_singleton ].
Qed.

Lemma stamp_keeps (t : Z) (acts : list EditorAction) :
  Forall keeps_canvases acts → Forall (λ a : Z * EditorAction, keeps_canvases a.2) ((λ a, (t, a)) <$> acts).
Proof. intros H. apply Forall_fmap. eapply Forall_impl; [exact H|]. done. Qed.

Lemma handleMouseDown_actions (now : Z) (rect : DOMRect) (g : Gesture) (σ : Heap)
    (s : EditorState) (e : MouseEvent) :
  let d := handleMouseDown blank measureText now rect g σ s e in
  (d.1.2 = σ ∧ Forall keeps_canvases d.2) ∨
  (∃ c l, d.1.2 = σ ++ [c] ∧ d.2 = [ADD_LAYER l] ∧ canvas_of l = Some (length σ)).
Proof.
  cbv zeta. unfold handleMouseDown. cbv zeta.
  destruct (bool_decide (button e = 1) || bool_decide (button e = 0) && shiftKey e);
    [left; by split|].
  destruct (tool s) eqn:Htool.
  all: decide_guards; cbn [andb orb app].
  all: repeat case_match; simplify_eq; cbn [fst snd app].
  all: try (left; split; [done|]; repeat constructor; done).
  all: unfold createOffscreenLayer in *; simplify_eq.
  all: right; eexists _, _; split_and!; [done|by rewrite ?app_nil_r|done].
Qed.

Lemma handleMouseUp_keeps (g : Gesture) (s : EditorState) :
  Forall keeps_canvases (handleMouseUp g s).2.
Proof.
  unfold handleMouseUp, brushUp. cbv zeta. cbn [snd].
  repeat apply Forall_app_2; case_match; by repeat constructor.
Qed.

Lemma handleWarpTool_keeps (s : EditorState) : Forall keeps_canvases (handleWarpTool s).
Proof.
  unfold handleWarpTool. repeat case_match; try apply Forall_app_2; by repeat constructor.
Qed.

(** X25: the handlers keep every layer on a canvas of its own.  From a
    document in which no two layers share a canvas, the actions that the
    "add layer" button, the opening of an image, a press, a move and a
    release of the pointer with any tool, and the warp button dispatch lead
    to a document, and a history, in which no two layers share a canvas:
    each layer that one of them adds comes with a canvas that the handler
    has just created, or with none, and none of them assigns a canvas to a
    layer. *)
Theorem X25_handlers_keep_ownership (σ : Heap) (s : EditorState) (t : Z) :
  store_wf σ s →
  let kept (h : Heap * list EditorAction) :=
    let c' := run (h.1, s) ((λ a, (t, a)) <$> h.2) in
    length σ ≤ length c'.1 ∧ store_wf c'.1 c'.2 in
  (∀ now, kept (handleAddLayer blank now σ s)) ∧
  (∀ now innerWidth innerHeight img_w img_h img name,
     kept (handleFileUpload blank drawImage now innerWidth innerHeight img_w img_h img
             name σ s)) ∧
  (∀ now rect g e,
     let d := handleMouseDown blank measureText now rect g σ s e in kept (d.1.2, d.2)) ∧
  (∀ stroke rect g e,
     let m := handleMouseMove measureText Math_atan2 stroke rect g σ s e in
     kept (m.1.2, m.2)) ∧
  (∀ g, kept (σ, (handleMouseUp g s).2)) ∧
  kept (σ, handleWarpTool s).
Proof.
  intros Hwf kept. subst kept. cbv zeta.
  assert (∀ (σ' : Heap) acts, length σ' = length σ → Forall keeps_canvases acts →
            length σ ≤ length (run (σ', s) ((λ a, (t, a)) <$> acts)).1 ∧
            store_wf (run (σ', s) ((λ a, (t, a)) <$> acts)).1
                     (run (σ', s) ((λ a, (t, a)) <$> acts)).2) as Hkeeps.
  { intros σ' acts Hlen Hall.
    destruct (run_keeps_canvases ((λ a, (t, a)) <$> acts) σ' s) as [H1 H2].
    - apply (store_wf_mono σ); [lia|done].
    - by apply stamp_keeps.
    - split; [lia|done]. }
  assert (∀ c l, canvas_of l = Some (length σ) →
            length σ ≤ length (run (σ ++ [c], s) [(t, ADD_LAYER l)]).1 ∧
            store_wf (run (σ ++ [c], s) [(t, ADD_LAYER l)]).1
                     (run (σ ++ [c], s) [(t, ADD_LAYER l)]).2) as Hadd.
  { intros c l Hl. unfold run. cbn [foldl]. unfold dispatch. cbn [fst snd].
    apply (add_fresh_store_wf t σ (σ ++ [c]) s s); try done.
    - apply (store_wf_mono σ); [rewrite length_app; lia|done].
    - rewrite length_app. cbn. lia.
    - by left. }
  split; [|split; [|split; [|split; [|split]]]].
  - intros now. unfold handleAddLayer, createOffscreenLayer. cbn [fst snd fmap list_fmap].
    by apply Hadd.
  - intros now iw ih w h img name.
    unfold handleFileUpload, createOffscreenLayer. cbv zeta. cbn [fst snd].
    set (σ1 := paint _ _ _).
    assert (length σ1 = length σ + 1) as Hσ1.
    { subst σ1. rewrite paint_length, length_app. cbn. lia. }
    assert (store_wf σ1 s) as Hwf1 by (apply (store_wf_mono σ); [lia|done]).
    rewrite fmap_app. unfold run. rewrite foldl_app.
    set (resize := (λ a, (t, a)) <$> _).
    assert (Forall (λ a : Z * EditorAction, keeps_canvases a.2) resize) as Hresize.
    { subst resize. case_match; by repeat constructor. }
    destruct (run_keeps_canvases resize σ1 s Hwf1 Hresize) as [Hlen1 Hwf1'].
    assert (layers (run (σ1, s) resize).2 = layers s) as Hlayers.
    { subst resize. case_match; [|done]. unfold run. cbn [fmap list_fmap foldl].
      unfold dispatch. cbn [fst snd]. unfold reducer. cbn [nextState snd layers set_zoom].
      by rewrite pushHistory_layers. }
    unfold run in Hlen1, Hwf1', Hlayers.
    set (c1 := foldl _ (σ1, s) resize) in *.
    cbn [fmap list_fmap foldl]. unfold dispatch at 1 2 3. cbn [fst snd].
    apply (add_fresh_store_wf t σ c1.1 s c1.2); try done; [lia|by left].
  - intros now rect g e. cbv zeta.
    destruct (handleMouseDown_actions now rect g σ s e) as [[Hσ Hacts]|(c & l & Hσ & Hacts & Hl)].
    + cbn [fst snd]. apply Hkeeps; [by rewrite Hσ|done].
    + cbn [fst snd]. rewrite Hσ, Hacts. by apply Hadd.
  - intros stroke rect g e. cbv zeta.
    destruct (handleMouseMove_keeps stroke rect g σ s e) as [Hσ Hacts].
    cbn [fst snd]. by apply Hkeeps.
  - intros g. cbn [fst snd]. apply Hkeeps; [done|apply handleMouseUp_keeps].
  - cbn [fst snd]. apply Hkeeps; [done|apply handleWarpTool_keeps].
Qed.

End Ownership.

Lemma X25_handlers_keep_ownership_witness :
  let down := handleMouseDown toy_blank toy_measureText 11 sample_rect idle sample_heap
                (set_tool T_brush (turned_state 0)) (pointer_at 400 300) in
  let c' := run toy_blank toy_drawImage (down.1.2, set_tool T_brush (turned_state 0))
              ((λ a, (12%Z, a)) <$> down.2) in
  store_wf c'.1 c'.2.
Proof.
  assert (store_wf sample_heap (set_tool T_brush (turned_state 0))) as Hwf.
  { assert (NoDup [0] ∧ Forall (λ r, r < 1) [0]) as H1
      by (split; [apply NoDup_singleton|apply Forall_singleton; lia]).
    assert (NoDup (@nil nat) ∧ Forall (λ r, r < 1) []) as H0
      by (split; [apply NoDup_nil_2|apply Forall_nil_2]).
    split; [exact H1|]. apply Forall_cons. split; [exact H0|].
    apply Forall_singleton. exact H1. }
  destruct (X25_handlers_keep_ownership toy_blank toy_drawImage toy_measureText atan2
              sample_heap (set_tool T_brush (turned_state 0)) 12 Hwf)
    as (_ & _ & H & _).
  exact (proj2 (H 11%Z sample_rect idle (pointer_at 400 300))).
Defined.
